(** * Feed ingestion pipeline of rss-summarizer: a shallow embedding

    Sources embedded here:
    - backend/services/ArticleFetcher.js : parseWithFeedParser, fetchAllFeeds,
      fetchFeedArticles, fetchFeedById
    - the Article model (class [Article extends BaseModel]) :
      bulkCreateSafeWithDupeCheck, cleanOldArticles, and the schema given
      to [Article.initModel]
    - the feed service (class [FeedService]) : parseWithFeedParser,
      validateFeedUrl, createFeed, subscribeFeed, unsubscribeFeed
    - the Article instance method getContentPreview
    - backend/models/Feed.js : the static validateFeedUrl and the
      beforeCreate hook

    Conventions.
    - JavaScript strings are [string]s, read as sequences of code units
      below 256; a [Set] of strings is a [gset string]; arrays are lists; an
      undefined property is [None].
    - A rejected promise or a thrown exception is the left summand of a
      sum; the state a call leaves behind is returned with its result.
    - Times are milliseconds in [Z]. A call reads the clock once: the
      parameter [now] stands for every [new Date()] of the call.
    - What lies outside the repository enters as a parameter: the answers
      of the remote side to the two parsers, [Date.parse], the URL check of
      validator.js, the store behind the Sequelize model, and, for the
      cleanup, the time zone of the process and the order in which the
      store numbers rows. Writes to the feed row ([feed.update]) are taken
      to succeed. *)

From stdpp Require Import base list strings gmap.
From Stdlib Require Import ZArith Lia Ascii.

Open Scope Z_scope.

(** ** JavaScript primitives used by the code *)

Module Js.

(** An [Error] object: the fields the code reads. *)
Record Error := mkError {
  name : string;
  message : string;
  code : option string
}.

(** [new Error(msg)] *)
Definition newError (msg : string) : Error :=
  {| name := "Error"; message := msg; code := None |}.

(** Truthiness of a string: every string but the empty one. *)
Definition truthyStr (s : string) : bool := negb (bool_decide (s = EmptyString)).

(** Truthiness of a possibly [undefined] string property. *)
Definition truthy (v : option string) : bool :=
  match v with
  | Some s => truthyStr s
  | None => false
  end.

(** [a || b] where [a] may be undefined and [b] is a string. *)
Definition or_str (a : option string) (b : string) : string :=
  match a with
  | Some s => if truthyStr s then s else b
  | None => b
  end.

(** [a || b] where both may be undefined. *)
Definition or_opt (a b : option string) : option string :=
  if truthy a then a else b.

(** [n || 0] on an integer. *)
Definition or_zero (n : Z) : Z := if n =? 0 then 0 else n.

(** [s.startsWith(sub)] *)
Fixpoint startsWith (s sub : string) {struct sub} : bool :=
  match sub, s with
  | EmptyString, _ => true
  | String _ _, EmptyString => false
  | String b sub', String a s' => Ascii.eqb a b && startsWith s' sub'
  end.

(** [String.prototype.includes] *)
Fixpoint includes (s sub : string) : bool :=
  startsWith s sub ||
  match s with
  | EmptyString => false
  | String _ s' => includes s' sub
  end.

(** WhiteSpace and LineTerminator code points below 256: TAB, LF, VT, FF,
    CR, SP and NBSP. *)
Definition isWhiteSpace (c : ascii) : bool :=
  let n := nat_of_ascii c in
  ((9 <=? n)%nat && (n <=? 13)%nat) || (n =? 32)%nat || (n =? 160)%nat.

Fixpoint trimStart (s : string) : string :=
  match s with
  | EmptyString => EmptyString
  | String c s' => if isWhiteSpace c then trimStart s' else s
  end.

Fixpoint trimEnd (s : string) : string :=
  match s with
  | EmptyString => EmptyString
  | String c s' =>
      match trimEnd s' with
      | EmptyString => if isWhiteSpace c then EmptyString else String c EmptyString
      | r => String c r
      end
  end.

(** [String.prototype.trim] *)
Definition trim (s : string) : string := trimEnd (trimStart s).

(** A value given to [new Date(...)]: a date string as rss-parser leaves it,
    or a Date object as feedparser produces it ([None] is an Invalid Date). *)
Inductive DateInput :=
| DateString (s : string)
| DateObject (t : option Z).

Definition truthyDate (v : option DateInput) : bool :=
  match v with
  | Some (DateString s) => truthyStr s
  | Some (DateObject _) => true
  | None => false
  end.

End Js.

(** ** Data model *)

(** A candidate article, as built by the normalisation map of
    [fetchFeedArticles] and handed to the model. [pubDate] is a Date object:
    [None] is an Invalid Date. *)
Record ArticleData := mkArticleData {
  title : string;
  link : string;
  pubDate : option Z;
  rawContent : string;
  author : string;
  guid : string;
  categories : list string
}.

(** A row of the [articles] table. [guid], [rawContent] and [author] are
    nullable columns. *)
Record Article := mkArticle {
  a_id : Z;
  a_feedId : Z;
  a_title : string;
  a_link : string;
  a_pubDate : Z;
  a_rawContent : option string;
  a_author : option string;
  a_guid : option string;
  a_categories : list string;
  a_createdAt : Z;
  a_updatedAt : Z
}.

(** A row of the [feeds] table: the columns the fetcher reads and writes. *)
Record Feed := mkFeed {
  f_id : Z;
  f_title : string;
  f_url : string;
  f_isActive : bool;
  f_lastFetched : option Z;
  f_errorCount : Z
}.

(** ** The Sequelize model of articles, as an interface

    [bulkCreateSafeWithDupeCheck] talks to the store through two calls:
    [this.findAll({ where: { feedId }, ... })] and [this.create({...})].
    Either may throw. *)
Module Sequelize.

Class ArticleModel (S : Type) := {
  findAll : S -> Z -> Js.Error + list Article;
  create : S -> ArticleData -> Z -> Z -> S * (Js.Error + Article)
}.

End Sequelize.

(** ** The table behind the model, from the schema of [Article.initModel]

    The rows in insertion order and the counter of the auto-incremented
    primary key. [create] runs the validators of the schema and then the
    INSERT, which the two unique indexes may refuse; nothing else makes it
    fail here. Of what the store checks besides, the foreign key on
    [feedId], the lengths of the columns and the collation of the indexes
    are not modelled; and the counter advances only when a row is written,
    where a store may also use up an id on an INSERT it refuses. *)

Module Db.

Record t := mk {
  articles : list Article;
  next_id : Z
}.

Section Schema.

(** validator.js's URL check behind [validate: { isUrl: true }]. *)
Variable isUrl : string -> bool.

(** [validate: { len: [1, 500] }] *)
Definition len_1_500 (s : string) : bool :=
  let n := String.length s in (1 <=? n)%nat && (n <=? 500)%nat.

(** The validators of the schema, run by [create] before the INSERT. *)
Definition validate (d : ArticleData) : bool :=
  len_1_500 (title d) && isUrl (link d) && bool_decide (is_Some (pubDate d))
  && len_1_500 (guid d).

(** The unique indexes [articles_link_unique] and
    [articles_feed_guid_unique]. *)
Definition link_taken (rows : list Article) (l : string) : bool :=
  existsb (fun a => bool_decide (a_link a = l)) rows.

Definition feed_guid_taken (rows : list Article) (feedId : Z) (g : string) : bool :=
  existsb (fun a => bool_decide (a_feedId a = feedId) && bool_decide (a_guid a = Some g)) rows.

Definition validationError : Js.Error :=
  {| Js.name := "SequelizeValidationError";
     Js.message := "Validation error";
     Js.code := None |}.

Definition uniqueConstraintError : Js.Error :=
  {| Js.name := "SequelizeUniqueConstraintError";
     Js.message := "Validation error";
     Js.code := None |}.

(** The row written by [create({ ...articleData, feedId, createdAt,
    updatedAt })]. *)
Definition row_of (id feedId now : Z) (d : ArticleData) : Article :=
  {| a_id := id;
     a_feedId := feedId;
     a_title := title d;
     a_link := link d;
     a_pubDate := default 0 (pubDate d);
     a_rawContent := Some (rawContent d);
     a_author := Some (author d);
     a_guid := Some (guid d);
     a_categories := categories d;
     a_createdAt := now;
     a_updatedAt := now |}.

(** Whether the INSERT of [d] for [feedId] is refused. *)
Definition rejects (db : t) (feedId : Z) (d : ArticleData) : bool :=
  negb (validate d) || link_taken (articles db) (link d)
  || feed_guid_taken (articles db) feedId (guid d).

Definition create (db : t) (d : ArticleData) (feedId now : Z) : t * (Js.Error + Article) :=
  if negb (validate d) then (db, inl validationError)
  else if link_taken (articles db) (link d) || feed_guid_taken (articles db) feedId (guid d)
  then (db, inl uniqueConstraintError)
  else
    let row := row_of (next_id db) feedId now d in
    ({| articles := articles db ++ [row]; next_id := next_id db + 1 |}, inr row).

(** [findAll({ where: { feedId } })] *)
Definition findAll (db : t) (feedId : Z) : Js.Error + list Article :=
  inr (filter (fun a => a_feedId a = feedId) (articles db)).

Definition model : Sequelize.ArticleModel t :=
  {| Sequelize.findAll := findAll; Sequelize.create := create |}.

End Schema.

End Db.

(** ** Article.bulkCreateSafeWithDupeCheck *)

Module ArticleM.

(** The three lookup sets of the duplicate filter. *)
Record Lookup := mkLookup {
  existingLinks : gset string;
  existingGuids : gset string;
  existingTitles : gset string
}.

(** [new Set(xs.filter(Boolean))] for a column of strings. *)
Definition set_of (xs : list (option string)) : gset string :=
  list_to_set (omap (fun v => if Js.truthy v then v else None) xs).

Definition lookup_of (existingArticles : list Article) : Lookup :=
  {| existingLinks := set_of (map (fun a => Some (a_link a)) existingArticles);
     existingGuids := set_of (map a_guid existingArticles);
     existingTitles := set_of (map (fun a => Some (a_title a)) existingArticles) |}.

(** The [if / else if / else if] cascade: [None] when [isDuplicate] stays
    false, otherwise the [duplicateReason]. *)
Definition duplicateReason (lk : Lookup) (d : ArticleData) : option string :=
  if Js.truthyStr (link d) && bool_decide (link d ∈ existingLinks lk)
  then Some "duplicate link"
  else if Js.truthyStr (guid d) && bool_decide (guid d ∈ existingGuids lk)
  then Some "duplicate guid"
  else if Js.truthyStr (title d) && bool_decide (title d ∈ existingTitles lk)
  then Some "duplicate title"
  else None.

(** The three tests of the cascade, each on its own. *)
Definition linkHit (lk : Lookup) (d : ArticleData) : Prop :=
  link d <> EmptyString /\ link d ∈ existingLinks lk.
Definition guidHit (lk : Lookup) (d : ArticleData) : Prop :=
  guid d <> EmptyString /\ guid d ∈ existingGuids lk.
Definition titleHit (lk : Lookup) (d : ArticleData) : Prop :=
  title d <> EmptyString /\ title d ∈ existingTitles lk.

(** The three guarded [add]s after a successful insert. *)
Definition remember (lk : Lookup) (d : ArticleData) : Lookup :=
  {| existingLinks :=
       if Js.truthyStr (link d) then {[ link d ]} ∪ existingLinks lk else existingLinks lk;
     existingGuids :=
       if Js.truthyStr (guid d) then {[ guid d ]} ∪ existingGuids lk else existingGuids lk;
     existingTitles :=
       if Js.truthyStr (title d) then {[ title d ]} ∪ existingTitles lk else existingTitles lk |}.

(** The test of the inner [catch]. *)
Definition isConstraintError (e : Js.Error) : bool :=
  bool_decide (Js.name e = "SequelizeUniqueConstraintError")
  || Js.includes (Js.message e) "duplicate"
  || Js.includes (Js.message e) "unique constraint".

(** One line written to the console inside the loop. *)
Inductive LogLine :=
| SkippedDuplicate (reason : string) (t : string)
| SkippedDbConstraint (t : string)
| ErrorCreating (t : string) (msg : string).

Section BulkCreate.

Context {St : Type} {M : Sequelize.ArticleModel St}.

(** The variables of the loop. *)
Record Loop := mkLoop {
  store : St;
  lookup : Lookup;
  newArticles : list Article;
  console : list LogLine
}.

(** The body of [for (const articleData of articles)]. *)
Definition body (feedId now : Z) (st : Loop) (articleData : ArticleData) : Loop :=
  match duplicateReason (lookup st) articleData with
  | Some reason =>
      {| store := store st; lookup := lookup st; newArticles := newArticles st;
         console := console st ++ [SkippedDuplicate reason (title articleData)] |}
  | None =>
      match Sequelize.create (store st) articleData feedId now with
      | (s', inr article) =>
          {| store := s';
             lookup := remember (lookup st) articleData;
             newArticles := newArticles st ++ [article];
             console := console st |}
      | (s', inl error) =>
          {| store := s'; lookup := lookup st; newArticles := newArticles st;
             console := console st ++
               [if isConstraintError error
                then SkippedDbConstraint (title articleData)
                else ErrorCreating (title articleData) (Js.message error)] |}
      end
  end.

Definition run (feedId now : Z) (st : Loop) (articles : list ArticleData) : Loop :=
  fold_left (body feedId now) articles st.

(** The variables of the loop when it starts. *)
Definition start (s : St) (existingArticles : list Article) : Loop :=
  {| store := s; lookup := lookup_of existingArticles; newArticles := []; console := [] |}.

(** The store after the call, what the call returns or throws, and the
    lines the loop logged. *)
Definition bulkCreateSafeWithDupeCheck (s : St) (articles : list ArticleData) (feedId now : Z)
  : St * (Js.Error + list Article) * list LogLine :=
  match articles with
  | [] => (s, inr [], [])
  | _ =>
      match Sequelize.findAll s feedId with
      | inl error => (s, inl error, [])
      | inr existingArticles =>
          let st := run feedId now (start s existingArticles) articles in
          (store st, inr (newArticles st), console st)
      end
  end.

(** The verdict of the duplicate filter on each candidate of a batch, as
    the loop reaches it: [None] for a candidate that passes. *)
Fixpoint verdicts (feedId now : Z) (st : Loop) (articles : list ArticleData)
  : list (option string) :=
  match articles with
  | [] => []
  | d :: rest => duplicateReason (lookup st) d :: verdicts feedId now (body feedId now st d) rest
  end.

(** Whether the loop, in state [st], inserts the candidate [d]. *)
Definition inserts (feedId now : Z) (st : Loop) (d : ArticleData) : bool :=
  match duplicateReason (lookup st) d with
  | Some _ => false
  | None =>
      match Sequelize.create (store st) d feedId now with
      | (_, inr _) => true
      | (_, inl _) => false
      end
  end.

(** The candidates of a batch that the loop inserted. *)
Fixpoint insertedCandidates (feedId now : Z) (st : Loop) (articles : list ArticleData)
  : list ArticleData :=
  match articles with
  | [] => []
  | d :: rest =>
      let more := insertedCandidates feedId now (body feedId now st d) rest in
      if inserts feedId now st d then d :: more else more
  end.

End BulkCreate.

(** The duplicate filter as the specification words it, on its own: every
    candidate that passes the three tests is accepted and its link, GUID and
    title join the sets. The verdict on each candidate, in order. *)
Fixpoint layeredFilter (lk : Lookup) (articles : list ArticleData) : list (option string) :=
  match articles with
  | [] => []
  | d :: rest =>
      match duplicateReason lk d with
      | Some reason => Some reason :: layeredFilter lk rest
      | None => None :: layeredFilter (remember lk d) rest
      end
  end.

End ArticleM.

(** ** Vocabulary for the properties of the duplicate filter on the table *)

Module StoreSpec.

Import ArticleM.

(** The rows of a feed, as [findAll] returns them. *)
Definition feedRows (db : Db.t) (feedId : Z) : list Article :=
  filter (fun a => a_feedId a = feedId) (Db.articles db).

(** The lookup sets mirror the rows of the feed. *)
Definition synced (feedId : Z) (db : Db.t) (lk : Lookup) : Prop :=
  lk = lookup_of (feedRows db feedId).


(** A candidate on which a turn of the loop changes nothing but the
    console: the filter finds it a duplicate, or the table refuses it. *)
Definition quiet (isUrl : string -> bool) (feedId : Z) (db : Db.t) (lk : Lookup)
  (d : ArticleData) : Prop :=
  is_Some (duplicateReason lk d) \/ Db.rejects isUrl db feedId d = true.

(** The row [a] was written for the candidate [d] of the feed. *)
Definition writtenFor (feedId : Z) (a : Article) (d : ArticleData) : Prop :=
  a_feedId a = feedId /\ a_title a = title d /\ a_link a = link d /\
  a_guid a = Some (guid d) /\ a_rawContent a = Some (rawContent d).


End StoreSpec.

(** ** What the parsers return *)

(** An item as rss-parser returns it (and as the fallback's [readable]
    handler builds it): every property may be undefined. *)
Record Item := mkItem {
  i_title : option string;
  i_link : option string;
  i_guid : option string;
  i_pubDate : option Js.DateInput;
  i_content : option string;
  i_contentSnippet : option string;
  i_summary : option string;
  i_description : option string;
  i_creator : option string;
  i_author : option string;
  i_categories : option (list string)
}.

(** The feed metadata kept by the [meta] handler. *)
Record FeedMeta := mkFeedMeta {
  m_title : option string;
  m_description : option string;
  m_link : option string;
  m_language : option string
}.

(** A parsed feed, with items of type [I]. *)
Record ParsedFeed (I : Type) := mkParsedFeed {
  meta : FeedMeta;
  items : option (list I)
}.
Arguments mkParsedFeed {I} _ _.
Arguments meta {I} _.
Arguments items {I} _.

(** An item as feedparser emits it. Its dates are Date objects or null. *)
Record FpItem := mkFpItem {
  fp_title : option string;
  fp_link : option string;
  fp_guid : option string;
  fp_pubdate : option (option Z);
  fp_date : option (option Z);
  fp_description : option string;
  fp_summary : option string;
  fp_author : option string;
  fp_categories : option (list string)
}.

(** What piping a response into feedparser leads to: an [error] event, or
    [meta], [readable] and [end]. *)
Inductive StreamOutcome :=
| StreamError (e : Js.Error)
| StreamEnd (m : FeedMeta) (its : list FpItem).

(** What one [axios] request leads to. *)
Inductive HttpOutcome :=
| RequestFailed (err : Js.Error)
| Response (body : StreamOutcome).

(** ** The fallback parser: User-Agent rotation *)

Module Fallback.

Definition userAgents : list string :=
  [ "Mozilla/5.0 (Windows NT 10.0; Win64; x64) AppleWebKit/537.36 (KHTML, like Gecko) Chrome/120.0.0.0 Safari/537.36";
    "Mozilla/5.0 (Macintosh; Intel Mac OS X 10_15_7) AppleWebKit/537.36 (KHTML, like Gecko) Chrome/120.0.0.0 Safari/537.36";
    "Mozilla/5.0 (X11; Linux x86_64) AppleWebKit/537.36 (KHTML, like Gecko) Chrome/120.0.0.0 Safari/537.36";
    "RSS Feed Reader Bot/1.0";
    "Feedfetcher-Google; (+http://www.google.com/feedfetcher.html)" ].

(** What the rotation does, in order. *)
Inductive Event :=
| Get (userAgent : string) (referer : option string)
| Failed (agentNo : nat) (msg : string)
| SetTimeout (ms : Z).

(** [url.split('/').slice(0, 3).join('/')]: the url up to its third slash. *)
Fixpoint upToSlash (n : nat) (s : string) : string :=
  match s with
  | EmptyString => EmptyString
  | String c s' =>
      if bool_decide (c = "/"%char) then
        match n with
        | O => EmptyString
        | Datatypes.S n' => String c (upToSlash n' s')
        end
      else String c (upToSlash n s')
  end.

Definition refererOf (url : string) : option string :=
  let isNews := Js.includes url "news" || Js.includes url "rss" || Js.includes url "feed" in
  if Js.includes url "politico" then Some "https://www.politico.com/"
  else if Js.includes url "bbc" then Some "https://www.bbc.com/"
  else if isNews then Some (upToSlash 2 url)
  else None.

Section Rotation.

(** The type the promise resolves to and the object built by the [end]
    handler from the metadata and the items read. *)
Context {R : Type} (resolve : FeedMeta -> list FpItem -> R).

(** The network: the outcome of a GET of [url] with these headers. *)
Variable axios : string -> string -> option string -> HttpOutcome.

(** [tryRequest], with [currentAgent] and the agents from it on. *)
Fixpoint tryRequest (url : string) (currentAgent : nat) (agents : list string)
  : list Event * (Js.Error + R) :=
  match agents with
  | [] => ([], inl (Js.newError "All User-Agent strings failed"))
  | ua :: rest =>
      let referer := refererOf url in
      match axios url ua referer with
      | Response (StreamEnd m its) => ([Get ua referer], inr (resolve m its))
      | Response (StreamError e) => ([Get ua referer], inl e)
      | RequestFailed err =>
          let log := Failed (currentAgent + 1) (Js.message err) in
          match rest with
          | [] => ([Get ua referer; log], inl err)
          | _ :: _ =>
              let '(evs, r) := tryRequest url (currentAgent + 1) rest in
              (Get ua referer :: log :: SetTimeout 1000 :: evs, r)
          end
      end
  end.

Definition parseWithFeedParser (url : string) : list Event * (Js.Error + R) :=
  tryRequest url 0%nat userAgents.

(** The GET with this User-Agent is refused or fails. *)
Definition refused (url ua : string) : Prop :=
  exists err, axios url ua (refererOf url) = RequestFailed err.

(** How the rotation over [agents] ended at the agent [ua], the [n]th. *)
Definition ended (url : string) (agents : list string) (n : nat) (ua : string)
  (res : Js.Error + R) : Prop :=
  match res with
  | inr feed =>
      exists m its, axios url ua (refererOf url) = Response (StreamEnd m its) /\
                    feed = resolve m its
  | inl e =>
      axios url ua (refererOf url) = Response (StreamError e) \/
      (n = length agents /\ axios url ua (refererOf url) = RequestFailed e)
  end.


End Rotation.

(** The User-Agents of the requests of a trace, in order. *)
Definition requests (evs : list Event) : list string :=
  omap (fun e => match e with Get ua _ => Some ua | _ => None end) evs.

(** The delays of the timers of a trace, in order. *)
Definition timers (evs : list Event) : list Z :=
  omap (fun e => match e with SetTimeout ms => Some ms | _ => None end) evs.

(** Every request but the one that opens the trace comes directly after a
    one-second timer. *)
Definition spaced (evs : list Event) : Prop :=
  forall pre ua referer post,
    evs = pre ++ Get ua referer :: post ->
    pre = [] \/ exists pre', pre = pre' ++ [SetTimeout 1000].

End Fallback.

(** ** ArticleFetcher *)

Module ArticleFetcher.

(** The object pushed by the [readable] handler of the fetcher's fallback
    parser. *)
Definition itemOfFp (item : FpItem) : Item :=
  {| i_title := fp_title item;
     i_link := Js.or_opt (fp_link item) (fp_guid item);
     i_guid := Js.or_opt (fp_guid item) (fp_link item);
     i_pubDate :=
       Js.DateObject <$> (match fp_pubdate item with
                          | Some d => Some d
                          | None => fp_date item
                          end);
     i_content := Js.or_opt (fp_description item) (fp_summary item);
     i_contentSnippet := fp_summary item;
     i_summary := None;
     i_description := None;
     i_creator := None;
     i_author := fp_author item;
     i_categories := Some (default [] (fp_categories item)) |}.

Definition resolveFp (m : FeedMeta) (its : list FpItem) : ParsedFeed Item :=
  {| meta := m; items := Some (map itemOfFp its) |}.

(** The world outside the process during one fetch: what rss-parser's
    [parseURL] returns or throws, and what each GET of the fallback leads
    to. *)
Record Remote := mkRemote {
  parseURL : string -> Js.Error + ParsedFeed Item;
  axios : string -> string -> option string -> HttpOutcome
}.

Definition parseWithFeedParser (r : Remote) (url : string)
  : list Fallback.Event * (Js.Error + ParsedFeed Item) :=
  Fallback.parseWithFeedParser resolveFp (axios r) url.

(** The nested [try] of [fetchFeedArticles]: primary parser, then the
    fallback, then the error naming both. *)
Definition parse (r : Remote) (url : string) : Js.Error + ParsedFeed Item :=
  match parseURL r url with
  | inr parsedFeed => inr parsedFeed
  | inl primaryError =>
      match snd (parseWithFeedParser r url) with
      | inr parsedFeed => inr parsedFeed
      | inl fallbackError =>
          inl (Js.newError ("Both parsers failed. Primary: " +:+ Js.message primaryError
                            +:+ ", Fallback: " +:+ Js.message fallbackError))
      end
  end.

Section Fetch.

(** [Date.parse], behind [new Date(string)]. *)
Variable dateParse : string -> option Z.

Definition newDate (v : Js.DateInput) : option Z :=
  match v with
  | Js.DateString s => dateParse s
  | Js.DateObject t => t
  end.

(** The normalisation map over [parsedFeed.items]. The date is
    [item.pubDate ? new Date(item.pubDate) : new Date()]. *)
Definition normalize (now : Z) (item : Item) : ArticleData :=
  {| title := Js.or_str (i_title item) "Untitled Article";
     link := Js.or_str (i_link item) (Js.or_str (i_guid item) EmptyString);
     pubDate :=
       match i_pubDate item with
       | Some v => if Js.truthyDate (i_pubDate item) then newDate v else Some now
       | None => Some now
       end;
     rawContent :=
       Js.or_str (i_content item)
         (Js.or_str (i_contentSnippet item)
            (Js.or_str (i_summary item) (Js.or_str (i_description item) EmptyString)));
     author := Js.or_str (i_creator item) (Js.or_str (i_author item) EmptyString);
     guid := Js.or_str (i_guid item) (Js.or_str (i_link item) EmptyString);
     categories := default [] (i_categories item) |}.

Definition hasLink (article : ArticleData) : bool :=
  Js.truthyStr (link article) && Js.truthyStr (Js.trim (link article)).

Definition hasDescription (article : ArticleData) : bool :=
  Js.truthyStr (rawContent article) && Js.truthyStr (Js.trim (rawContent article)).

(** The predicate of [articles.filter(...)]. *)
Definition isValid (article : ArticleData) : bool :=
  hasLink article && hasDescription article.

Definition validArticles (now : Z) (its : list Item) : list ArticleData :=
  List.filter isValid (map (normalize now) its).

Context {St : Type} {M : Sequelize.ArticleModel St}.

(** What [fetchFeedArticles] leaves behind and returns: the feed row after
    the call, the article store after the call, and the count returned or
    the error thrown. *)
Definition FetchResult : Type := Feed * St * (Js.Error + Z).

Definition updateFeed (feed : Feed) (lastFetched errorCount : Z) : Feed :=
  {| f_id := f_id feed; f_title := f_title feed; f_url := f_url feed;
     f_isActive := f_isActive feed;
     f_lastFetched := Some lastFetched; f_errorCount := errorCount |}.

Definition dquote : string := String (ascii_of_nat 34) EmptyString.

(** The [try] block: the store after it, and either the error that reaches
    the [catch] or the feed row and the count at the [return]. *)
Definition tryBlock (r : Remote) (feed : Feed) (s : St) (now : Z)
  : St * (Js.Error + Feed * Z) :=
  match parse r (f_url feed) with
  | inl error => (s, inl error)
  | inr parsedFeed =>
      match items parsedFeed with
      | None | Some [] => (s, inr (feed, 0))
      | Some its =>
          match validArticles now its with
          | [] => (s, inr (feed, 0))
          | valid =>
              match ArticleM.bulkCreateSafeWithDupeCheck s valid (f_id feed) now with
              | (s', inl error, _) => (s', inl error)
              | (s', inr newArticles, _) =>
                  (s', inr (updateFeed feed now 0, Z.of_nat (length newArticles)))
              end
          end
      end
  end.

Definition fetchFeedArticles (r : Remote) (feed : Feed) (s : St) (now : Z) : FetchResult :=
  match tryBlock r feed s now with
  | (s', inr (feed', n)) => (feed', s', inr n)
  | (s', inl error) =>
      (updateFeed feed now (Js.or_zero (f_errorCount feed) + 1), s',
       inl (Js.newError ("Failed to fetch articles for feed " +:+ dquote +:+ f_title feed
                         +:+ dquote +:+ ": " +:+ Js.message error)))
  end.

(** The object returned by [fetchAllFeeds]. *)
Record RunSummary := mkRunSummary {
  totalFetched : Z;
  totalErrors : Z;
  feedsProcessed : Z
}.

(** The variables of the loop of [fetchAllFeeds]: the two counters, the
    store, and the feed rows as the calls left them. *)
Record Run := mkRun {
  fetched : Z;
  errors : Z;
  db : St;
  processed : list Feed
}.

Definition step (r : Remote) (now : Z) (st : Run) (feed : Feed) : Run :=
  match fetchFeedArticles r feed (db st) now with
  | (feed', s', inr articleCount) =>
      {| fetched := fetched st + articleCount; errors := errors st;
         db := s'; processed := processed st ++ [feed'] |}
  | (feed', s', inl _) =>
      {| fetched := fetched st; errors := errors st + 1;
         db := s'; processed := processed st ++ [feed'] |}
  end.

(** [fetchAllFeeds] over the rows of the feed table: the summary returned,
    the processed feed rows after the run, and the store after the run. *)
Definition fetchAllFeeds (r : Remote) (table : list Feed) (s : St) (now : Z)
  : RunSummary * list Feed * St :=
  let feeds := List.filter f_isActive table in
  let st := fold_left (step r now) feeds
              {| fetched := 0; errors := 0; db := s; processed := [] |} in
  ({| totalFetched := fetched st; totalErrors := errors st;
      feedsProcessed := Z.of_nat (length feeds) |},
   processed st, db st).

End Fetch.

End ArticleFetcher.

(** ** Article.cleanOldArticles *)

Module Retention.

Definition msPerDay : Z := 86400000.

(** The largest time value of a Date. *)
Definition maxTime : Z := 8640000000000000.

(** [TimeClip] of ECMAScript; [None] is NaN, the time value of an Invalid
    Date. *)
Definition timeClip (t : Z) : option Z :=
  if Z.abs t <=? maxTime then Some t else None.

Section Clean.

(** The time zone of the process: [LocalTime] and [UTC] of ECMAScript. *)
Variables localTime utcOf : Z -> Z.

(** How the store answers [pubDate < cutoffDate] for a row when
    [cutoffDate] is an Invalid Date. *)
Variable beforeInvalidDate : Article -> bool.

(** The order in which the store numbers the rows of a table when the
    window has one partition and its ordering is constant. *)
Variable scan : list Article -> list Article.

(** [cutoffDate.setDate(cutoffDate.getDate() - daysToKeep)] on
    [new Date()]: the day number of the local time moves back by
    [daysToKeep], the time within the day stays; the result is brought back
    to UTC and clipped. *)
Definition cutoffDate (now daysToKeep : Z) : option Z :=
  timeClip (utcOf (localTime now - daysToKeep * msPerDay)).

(** [pubDate < cutoffDate] *)
Definition olderThan (cutoff : option Z) (a : Article) : Prop :=
  match cutoff with
  | Some t => a_pubDate a < t
  | None => beforeInvalidDate a = true
  end.

#[global] Instance olderThan_dec (cutoff : option Z) (a : Article) :
  Decision (olderThan cutoff a).
Proof. destruct cutoff; simpl; apply _. Defined.

(** [where: { pubDate: { [Op.lt]: cutoffDate } }] *)
Definition oldArticles (cutoff : option Z) (rows : list Article) : list Article :=
  filter (olderThan cutoff) rows.

(** The window query is sent as it is written to the store configured in
    config/database.js, MySQL or MariaDB, whose mode leaves a double-quoted
    word a string constant: [PARTITION BY "feedId"] makes one partition of
    the whole table, and [ORDER BY "pubDate" DESC] orders it by a constant.
    The rows with [rn > articlesPerFeedToKeep] are those that the store
    numbered beyond it. *)
Definition excessArticles (articlesPerFeedToKeep : Z) (rows : list Article) : list Article :=
  drop (Z.to_nat articlesPerFeedToKeep) (scan rows).

Definition allArticleIds (cutoff : option Z) (articlesPerFeedToKeep : Z)
  (rows : list Article) : list Z :=
  map a_id (oldArticles cutoff rows) ++ map a_id (excessArticles articlesPerFeedToKeep rows).

(** [destroy({ where: { id: ids } })]: the rows left and the number of rows
    deleted. *)
Definition destroy (ids : list Z) (rows : list Article) : list Article * Z :=
  (filter (fun a => a_id a ∉ ids) rows,
   Z.of_nat (length (filter (fun a => a_id a ∈ ids) rows))).

Definition cleanOldArticles (now daysToKeep articlesPerFeedToKeep : Z) (db : Db.t) : Db.t * Z :=
  let ids := allArticleIds (cutoffDate now daysToKeep) articlesPerFeedToKeep (Db.articles db) in
  match ids with
  | [] => (db, 0)
  | _ =>
      let '(rows, n) := destroy ids (Db.articles db) in
      ({| Db.articles := rows; Db.next_id := Db.next_id db |}, n)
  end.

End Clean.

(** *** Vocabulary for the properties of the pruning *)

(** The articles of a feed. *)
Definition partition (rows : list Article) (feedId : Z) : list Article :=
  filter (fun a => a_feedId a = feedId) rows.

(** The store numbers every row of the table, each once. *)
Definition numbersEveryRow (scan : list Article -> list Article) : Prop :=
  forall rows, scan rows ≡ₚ rows.

(** A table where, as the specification words the pruning, nothing is to
    go: no article is older than the cutoff and no feed holds more than
    [cap] articles. *)
Definition nothingToPrune (cutoff : Z) (cap : nat) (rows : list Article) : Prop :=
  (forall a, a ∈ rows -> cutoff <= a_pubDate a) /\
  (forall feedId, (length (partition rows feedId) <= cap)%nat).

End Retention.

(** ** FeedService.validateFeedUrl *)

Module FeedService.

Definition allowableErrors : list string :=
  [ "Response code 403"; "Status code 403";
    "Response code 429"; "Status code 429";
    "Response code 503"; "Status code 503";
    "ETIMEDOUT"; "ENOTFOUND"; "ECONNREFUSED";
    "socket hang up"; "timeout"; "Request timeout";
    "getaddrinfo ENOTFOUND";
    "Non-whitespace before first tag";
    "Invalid character in entity name";
    "Unexpected end of input" ].

(** [allowableErrors.some(a => e.message.includes(a) || e.code === a)] *)
Definition isAllowableError (e : Js.Error) : bool :=
  existsb (fun allowableError =>
             Js.includes (Js.message e) allowableError
             || bool_decide (Js.code e = Some allowableError))
          allowableErrors.

Record FeedInfo := mkFeedInfo {
  fi_title : option string;
  fi_description : option string;
  fi_link : option string;
  fi_language : string
}.

(** The object returned; an absent (or null) property is [None]. *)
Record Validation := mkValidation {
  valid : bool;
  warning : option string;
  error : option string;
  feedInfo : option FeedInfo
}.

(** The service's own copy of the fallback parser pushes the items as
    feedparser emits them. *)
Definition resolveRaw (m : FeedMeta) (its : list FpItem) : ParsedFeed FpItem :=
  {| meta := m; items := Some its |}.

Definition parseWithFeedParser (axios : string -> string -> option string -> HttpOutcome)
  (url : string) : list Fallback.Event * (Js.Error + ParsedFeed FpItem) :=
  Fallback.parseWithFeedParser resolveRaw axios url.

Definition validResult (m : FeedMeta) (usingFallbackParser : bool) : Validation :=
  {| valid := true;
     warning := if usingFallbackParser
                then Some "Feed parsed successfully using fallback parser (feedparser)"
                else None;
     error := None;
     feedInfo := Some {| fi_title := m_title m;
                         fi_description := m_description m;
                         fi_link := m_link m;
                         fi_language := Js.or_str (m_language m) "en" |} |}.

Definition validateFeedUrl
  (parseURL : string -> Js.Error + ParsedFeed Item)
  (axios : string -> string -> option string -> HttpOutcome)
  (url : string) : Validation :=
  match parseURL url with
  | inr feed => validResult (meta feed) false
  | inl primaryError =>
      match snd (parseWithFeedParser axios url) with
      | inr feed => validResult (meta feed) true
      | inl fallbackError =>
          if isAllowableError primaryError || isAllowableError fallbackError then
            {| valid := true;
               warning := Some ("Feed may not be accessible right now (both parsers failed), but will be created anyway. Primary: "
                                +:+ Js.message primaryError +:+ ", Fallback: "
                                +:+ Js.message fallbackError);
               error := None;
               feedInfo := Some {| fi_title := Some "Feed Title (Unable to fetch)";
                                   fi_description :=
                                     Some "Description will be updated when feed becomes accessible";
                                   fi_link := Some url;
                                   fi_language := "en" |} |}
          else
            {| valid := false;
               warning := None;
               error := Some ("Both parsers failed. Primary: " +:+ Js.message primaryError
                              +:+ ", Fallback: " +:+ Js.message fallbackError);
               feedInfo := None |}
      end
  end.

(** *** The allow-list as the specification words it

    The signatures of a transient failure, written out: HTTP 403, 429 and
    503 in either phrasing; DNS, connection and timeout errors; the
    messages of malformed XML. *)
Definition httpSignatures : list string :=
  [ "Response code 403"; "Status code 403";
    "Response code 429"; "Status code 429";
    "Response code 503"; "Status code 503" ].

Definition networkSignatures : list string :=
  [ "ETIMEDOUT"; "ENOTFOUND"; "ECONNREFUSED"; "socket hang up"; "timeout";
    "Request timeout"; "getaddrinfo ENOTFOUND" ].

Definition xmlSignatures : list string :=
  [ "Non-whitespace before first tag"; "Invalid character in entity name";
    "Unexpected end of input" ].

Definition transientSignatures : list string :=
  httpSignatures ++ networkSignatures ++ xmlSignatures.

(** A failure matches the allow-list when the message of the primary or of
    the fallback error contains one of these signatures, or the [code] of
    one of them is one of these signatures. *)
Definition matchesAllowList (primaryError fallbackError : Js.Error) : Prop :=
  exists e sig,
    (e = primaryError \/ e = fallbackError) /\ In sig transientSignatures /\
    (Js.includes (Js.message e) sig = true \/ Js.code e = Some sig).

Definition placeholderInfo (url : string) : FeedInfo :=
  {| fi_title := Some "Feed Title (Unable to fetch)";
     fi_description := Some "Description will be updated when feed becomes accessible";
     fi_link := Some url;
     fi_language := "en" |}.

End FeedService.

(** ** Vocabulary for the properties of the fetcher *)

Module FetchSpec.

Import ArticleFetcher.

(** A string that is neither empty nor made of white space only. *)
Definition nonBlank (s : string) : Prop :=
  s <> EmptyString /\ Js.trim s <> EmptyString.

Definition allWhiteSpace (s : string) : Prop :=
  forall c, In c (String.list_ascii_of_string s) -> Js.isWhiteSpace c = true.

(** A candidate that may be handed to the model. *)
Definition validCandidate (d : ArticleData) : Prop :=
  nonBlank (link d) /\ nonBlank (rawContent d).

(** A stored article with a link and a content that are not blank. *)
Definition validRow (a : Article) : Prop :=
  nonBlank (a_link a) /\ exists c, a_rawContent a = Some c /\ nonBlank c.

(** The feed row [feed'] is the row [feed] with errorCount set to
    [errorCount] and lastFetched to [now], and nothing else changed. *)
Definition rowAfter (feed : Feed) (now errorCount : Z) (feed' : Feed) : Prop :=
  f_errorCount feed' = errorCount /\ f_lastFetched feed' = Some now /\
  f_id feed' = f_id feed /\ f_title feed' = f_title feed /\ f_url feed' = f_url feed /\
  f_isActive feed' = f_isActive feed.

Section Calls.

Variable dateParse : string -> option Z.
Context {St : Type} {M : Sequelize.ArticleModel St}.

(** The valid candidates that a fetch of [feed] obtains from the remote
    side; none when both parsers fail. *)
Definition candidates (r : Remote) (feed : Feed) (now : Z) : list ArticleData :=
  match parse r (f_url feed) with
  | inr parsedFeed => validArticles dateParse now (default [] (items parsedFeed))
  | inl _ => []
  end.

(** The calls of [fetchFeedArticles] made by a run over [feeds], each on
    the store that the call before it left. *)
Fixpoint calls (r : Remote) (now : Z) (s : St) (feeds : list Feed)
  : list (Feed * St * (Js.Error + Z)) :=
  match feeds with
  | [] => []
  | feed :: rest =>
      let res := fetchFeedArticles dateParse r feed s now in
      res :: calls r now (snd (fst res)) rest
  end.

Definition threw (res : Feed * St * (Js.Error + Z)) : bool :=
  match snd res with inl _ => true | inr _ => false end.

Definition insertedCount (res : Feed * St * (Js.Error + Z)) : Z :=
  match snd res with inl _ => 0 | inr n => n end.

(** The store a sequence of calls ends on. *)
Definition lastStore (s : St) (cs : list (Feed * St * (Js.Error + Z))) : St :=
  match last cs with
  | Some res => snd (fst res)
  | None => s
  end.

(** The error state of [feed] after the call [res] on it, by the three
    ways a call can end. *)
Definition errorStep (r : Remote) (now : Z) (feed : Feed)
  (res : Feed * St * (Js.Error + Z)) : Prop :=
  match snd res with
  | inl _ =>
      f_errorCount (fst (fst res)) = f_errorCount feed + 1 /\
      f_lastFetched (fst (fst res)) = Some now
  | inr n =>
      match candidates r feed now with
      | [] => n = 0 /\ fst (fst res) = feed
      | _ :: _ =>
          f_errorCount (fst (fst res)) = 0 /\
          f_lastFetched (fst (fst res)) = Some now
      end
  end.

End Calls.

End FetchSpec.

(** ** Sample worlds and stores, used by the examples below *)

Module Samples.

Definition feedUrl : string := "https://example.com/feed.xml".

(** Both strategies meet HTTP 429: rss-parser reports the status in its own
    phrasing, every GET of the fallback is refused by axios. *)
Definition rss429 : string -> Js.Error + ParsedFeed Item :=
  fun _ => inl (Js.newError "Status code 429").

Definition axios429 : string -> string -> option string -> HttpOutcome :=
  fun _ _ _ =>
    RequestFailed {| Js.name := "AxiosError";
                     Js.message := "Request failed with status code 429";
                     Js.code := Some "ERR_BAD_REQUEST" |}.

(** The first GET is answered with a page that is no feed. *)
Definition axiosNotAFeed : string -> string -> option string -> HttpOutcome :=
  fun _ _ _ => Response (StreamError (Js.newError "Not a feed")).

Definition emptyMeta : FeedMeta :=
  {| m_title := None; m_description := None; m_link := None; m_language := None |}.

(** The three browser signatures are refused, the declared bot is served an
    empty feed. *)
Definition axiosBotOnly : string -> string -> option string -> HttpOutcome :=
  fun _ ua _ =>
    if bool_decide (ua = "RSS Feed Reader Bot/1.0")
    then Response (StreamEnd emptyMeta [])
    else RequestFailed (Js.newError "Request failed with status code 403").

(** Items without a link: one whose guid is a URN, one whose guid is a
    single space. *)
Definition itemWithGuid (g : string) : Item :=
  {| i_title := Some "A title"; i_link := None; i_guid := Some g;
     i_pubDate := None; i_content := Some "Some text";
     i_contentSnippet := None; i_summary := None; i_description := None;
     i_creator := None; i_author := None; i_categories := None |}.

Definition noDates : string -> option Z := fun _ => None.

(** A URL check for the examples: the strings with an http or https
    scheme. Every link it accepts below is a URL for validator.js too. *)
Definition httpUrl (s : string) : bool :=
  Js.startsWith s "http://" || Js.startsWith s "https://".

Definition model : Sequelize.ArticleModel Db.t := Db.model httpUrl.

Definition emptyDb : Db.t := {| Db.articles := []; Db.next_id := 1 |}.

Definition candidate (t l g : string) : ArticleData :=
  {| title := t; link := l; pubDate := Some 1700000000000; rawContent := "Some text";
     author := EmptyString; guid := g; categories := [] |}.

(** A store where feed 2 already holds an article with the link of the
    first candidate of the batch below. *)
Definition otherFeedDb : Db.t :=
  fst (Db.create httpUrl emptyDb
         (candidate "Elsewhere" "https://example.com/a" "elsewhere-1") 2 1700000000000).

(** A batch for feed 1: two candidates with the same title and different
    links and GUIDs; the link of the first is taken in feed 2. *)
Definition sameTitleBatch : list ArticleData :=
  [ candidate "Same title" "https://example.com/a" "guid-a";
    candidate "Same title" "https://example.com/b" "guid-b" ].

(** The scenario of the specification: feed F with errorCount 2, five
    items of which two are stored already. *)
Definition feedF : Feed :=
  {| f_id := 1; f_title := "F"; f_url := feedUrl; f_isActive := true;
     f_lastFetched := None; f_errorCount := 2 |}.

Definition item (t l : string) : Item :=
  {| i_title := Some t; i_link := Some l; i_guid := None;
     i_pubDate := None; i_content := Some "Some text";
     i_contentSnippet := None; i_summary := None; i_description := None;
     i_creator := None; i_author := None; i_categories := None |}.

Definition fiveItems : list Item :=
  [ item "One" "https://example.com/1"; item "Two" "https://example.com/2";
    item "Three" "https://example.com/3"; item "Four" "https://example.com/4";
    item "Five" "https://example.com/5" ].

Definition serves (its : list Item) : string -> Js.Error + ParsedFeed Item :=
  fun _ => inr {| meta := emptyMeta; items := Some its |}.

Definition remoteF : ArticleFetcher.Remote :=
  {| ArticleFetcher.parseURL := serves fiveItems; ArticleFetcher.axios := axios429 |}.

(** Feed 1 holds the articles of the first two items under other titles. *)
Definition twoStoredDb : Db.t :=
  let db1 := fst (Db.create httpUrl emptyDb
                    (candidate "Old one" "https://example.com/1" "old-1") 1 1600000000000) in
  fst (Db.create httpUrl db1
         (candidate "Old two" "https://example.com/2" "old-2") 1 1600000000000).

(** Two active feeds: the remote side of A fails on both strategies, that
    of B serves the items given. *)
Definition feedA : Feed :=
  {| f_id := 1; f_title := "A"; f_url := "https://a.example/rss"; f_isActive := true;
     f_lastFetched := None; f_errorCount := 0 |}.

Definition feedB : Feed :=
  {| f_id := 2; f_title := "B"; f_url := "https://b.example/rss"; f_isActive := true;
     f_lastFetched := None; f_errorCount := 2 |}.

Definition remoteAB (itemsB : list Item) : ArticleFetcher.Remote :=
  {| ArticleFetcher.parseURL :=
       fun url => if bool_decide (url = f_url feedB)
                  then inr {| meta := emptyMeta; items := Some itemsB |}
                  else inl (Js.newError "Status code 500");
     ArticleFetcher.axios :=
       fun _ _ _ => RequestFailed (Js.newError "Request failed with status code 500") |}.

(** A stored article, by id, feed, pubDate and link. *)
Definition row (id feedId pub : Z) (l : string) : Article :=
  {| a_id := id; a_feedId := feedId; a_title := "T"; a_link := l;
     a_pubDate := pub; a_rawContent := None; a_author := None; a_guid := None;
     a_categories := []; a_createdAt := pub; a_updatedAt := pub |}.

Definition day : Z := 86400000.

(** Four articles of feed 1 and one of feed 2. At day 100, article 1 is 50
    days old and the others are recent. *)
Definition fiveRows : Db.t :=
  {| Db.articles := [ row 1 1 (50 * day) "https://example.com/1";
                      row 2 1 (98 * day) "https://example.com/2";
                      row 3 1 (99 * day) "https://example.com/3";
                      row 4 2 (97 * day) "https://example.com/4";
                      row 5 1 (96 * day) "https://example.com/5" ];
     Db.next_id := 6 |}.

(** Two recent articles of feed 1 and one of feed 2: at day 100 no article
    is older than 30 days, and no feed holds more than two articles. *)
Definition threeRecent : Db.t :=
  {| Db.articles := [ row 1 1 (98 * day) "https://example.com/1";
                      row 2 1 (99 * day) "https://example.com/2";
                      row 3 2 (97 * day) "https://example.com/3" ];
     Db.next_id := 4 |}.

(** A hundred recent articles of feed 1, one an hour before the other from
    day 99 back, and one of feed 2: at day 100 no article is older than 30
    days, and no feed holds more than a hundred articles. *)
Definition twoDigits (i : nat) : string :=
  String (ascii_of_nat (48 + i / 10)%nat)
    (String (ascii_of_nat (48 + i mod 10)%nat) EmptyString).

Definition hourly (i : nat) : Article :=
  row (Z.of_nat i + 1) 1 (99 * day - Z.of_nat i * 3600000)
    ("https://example.com/a/" +:+ twoDigits i).

Definition hundredAndOne : Db.t :=
  {| Db.articles := map hourly (seq 0 100) ++ [row 101 2 (98 * day) "https://example.com/b"];
     Db.next_id := 102 |}.

(** A process whose time zone is UTC, a store that finds no date before an
    Invalid Date, and a store that numbers the rows as they are stored. *)
Definition utcZone : Z -> Z := fun t => t.
Definition noneBefore : Article -> bool := fun _ => false.
Definition inOrder : list Article -> list Article := fun rows => rows.

End Samples.

(** ** Article.getContentPreview *)

Module ArticleInstance.

(** Whether the character [c] occurs in [s]. *)
Fixpoint occurs (c : ascii) (s : string) : bool :=
  match s with
  | EmptyString => false
  | String x s' => bool_decide (x = c) || occurs c s'
  end.

(** [s.replace(/<[^>]*>/g, '')]. The scan goes from left to right; a [<]
    opens a match when a [>] follows somewhere, and the match ends at the
    first one. [inTag] tells that the scan is inside a match. *)
Fixpoint strip (inTag : bool) (s : string) : string :=
  match s with
  | EmptyString => EmptyString
  | String c s' =>
      if inTag then
        if bool_decide (c = ">"%char) then strip false s' else strip true s'
      else if bool_decide (c = "<"%char) && occurs ">"%char s' then strip true s'
      else String c (strip false s')
  end.

Definition stripTags (s : string) : string := strip false s.

(** [s.substring(0, n)] for a natural number [n]. *)
Fixpoint substring0 (n : nat) (s : string) : string :=
  match n, s with
  | O, _ => EmptyString
  | _, EmptyString => EmptyString
  | Datatypes.S n', String c s' => String c (substring0 n' s')
  end.

(** [getContentPreview(maxLength)] on an instance whose [rawContent] is
    [rawContent]. A negative [maxLength] is 0 for [substring]. *)
Definition getContentPreview (rawContent : option string) (maxLength : Z) : string :=
  if negb (Js.truthy rawContent) then EmptyString
  else
    let cleanContent := Js.trim (stripTags (default EmptyString rawContent)) in
    if Z.of_nat (String.length cleanContent) <=? maxLength then cleanContent
    else Js.trim (substring0 (Z.to_nat maxLength) cleanContent) +:+ "...".

(** The default of the parameter. *)
Definition defaultMaxLength : Z := 200.

(** *** Vocabulary *)

(** The characters of a string, as a list. *)
Definition chars (s : string) : list ascii := String.list_ascii_of_string s.

(** A string holds a tag when a [<] is followed, anywhere later, by a [>]. *)
Definition hasTag (s : string) : Prop :=
  exists a b c, chars s = a ++ "<"%char :: b ++ ">"%char :: c.

End ArticleInstance.

(** ** Vocabulary for the batches and the table *)

Module TableSpec.

(** The candidate [d'] repeats a non-empty link, GUID or title of [d]. *)
Definition sharesKey (d d' : ArticleData) : Prop :=
  (link d <> EmptyString /\ link d' = link d) \/
  (guid d <> EmptyString /\ guid d' = guid d) \/
  (title d <> EmptyString /\ title d' = title d).

(** The key of the index [articles_feed_guid_unique]; a row without guid
    has none. *)
Definition feedGuid (a : Article) : option (Z * string) :=
  pair (a_feedId a) <$> a_guid a.

(** The feed and the title of a row with a non-empty title. *)
Definition feedTitle (a : Article) : option (Z * string) :=
  if Js.truthyStr (a_title a) then Some (a_feedId a, a_title a) else None.

(** A table as the primary key and the two unique indexes keep it, and
    where, besides, no two articles of a feed share a non-empty title. *)
Record wellFormed (db : Db.t) : Prop := mkWellFormed {
  ids_unique : NoDup (map a_id (Db.articles db));
  ids_below : Forall (fun a => a_id a < Db.next_id db) (Db.articles db);
  links_unique : NoDup (map a_link (Db.articles db));
  guids_unique : NoDup (omap feedGuid (Db.articles db));
  titles_unique : NoDup (omap feedTitle (Db.articles db))
}.

(** The row [a] holds the candidate [d], written for the feed at [now]
    under some id. *)
Definition writtenFor (feedId now : Z) (a : Article) (d : ArticleData) : Prop :=
  exists id, a = Db.row_of id feedId now d.

(** Both parsers fail on the feed. *)
Definition parseFails (r : ArticleFetcher.Remote) (feed : Feed) : bool :=
  match ArticleFetcher.parse r (f_url feed) with
  | inl _ => true
  | inr _ => false
  end.

End TableSpec.

(** ** The Feed model: validateFeedUrl and the beforeCreate hook *)

Module FeedModel.

(** The object returned by the static [Feed.validateFeedUrl]:
    [{ valid: true, title, description, link, usingFallbackParser }] or
    [{ valid: false, error }]; an absent property is [None]. *)
Record Validation := mkValidation {
  valid : bool;
  v_title : option string;
  v_description : option string;
  v_link : option string;
  usingFallbackParser : option bool;
  error : option string
}.

Definition validResult (m : FeedMeta) (fallback : bool) : Validation :=
  {| valid := true; v_title := m_title m; v_description := m_description m;
     v_link := m_link m; usingFallbackParser := Some fallback; error := None |}.

(** The primary parser, then one GET piped into feedparser. [get] is the
    outcome of that request, sent with the single User-Agent of the model. *)
Definition validateFeedUrl (parseURL : string -> Js.Error + ParsedFeed Item)
  (get : string -> HttpOutcome) (url : string) : Validation :=
  match parseURL url with
  | inr feed => validResult (meta feed) false
  | inl primaryError =>
      let bothFailed (fallbackError : Js.Error) :=
        {| valid := false; v_title := None; v_description := None; v_link := None;
           usingFallbackParser := None;
           error := Some ("Both parsers failed. Primary: " +:+ Js.message primaryError
                          +:+ ", Fallback: " +:+ Js.message fallbackError) |} in
      match get url with
      | Response (StreamEnd m _) => validResult m true
      | Response (StreamError fallbackError) => bothFailed fallbackError
      | RequestFailed fallbackError => bothFailed fallbackError
      end
  end.

(** The properties of the instance that the hook reads and writes. *)
Record NewFeed := mkNewFeed {
  nf_url : string;
  nf_title : option string;
  nf_description : option string;
  nf_link : option string
}.

(** The list of the hook: the sixteen signatures of the service's list. *)
Definition allowableErrors : list string := FeedService.allowableErrors.

(** [allowableErrors.some(a => validation.error.includes(a))] *)
Definition isAllowableError (error : string) : bool :=
  existsb (fun allowableError => Js.includes error allowableError) allowableErrors.

(** [if (!feed.title) ...; if (!feed.description) ...], as both the branch
    of the allowable errors and the [catch] have it. *)
Definition withDefaults (feed : NewFeed) : NewFeed :=
  {| nf_url := nf_url feed;
     nf_title := if Js.truthy (nf_title feed) then nf_title feed
                 else Some "Feed Title (Unable to fetch)";
     nf_description :=
       if Js.truthy (nf_description feed) then nf_description feed
       else Some "Description will be updated when feed becomes accessible";
     nf_link := nf_link feed |}.

(** [if (!feed.p && validation.p) feed.p = validation.p] *)
Definition fill (own found : option string) : option string :=
  if negb (Js.truthy own) && Js.truthy found then found else own.

Definition typeError : Js.Error :=
  {| Js.name := "TypeError";
     Js.message := "Cannot read properties of undefined (reading 'includes')";
     Js.code := None |}.

(** The [try] block of the hook: the instance at its end, or the error
    thrown; nothing is written to the instance before a [throw]. *)
Definition hookTry (validation : Validation) (feed : NewFeed) : Js.Error + NewFeed :=
  if valid validation then
    inr {| nf_url := nf_url feed;
           nf_title := fill (nf_title feed) (v_title validation);
           nf_description := fill (nf_description feed) (v_description validation);
           nf_link := fill (nf_link feed) (v_link validation) |}
  else
    match error validation with
    | None => inl typeError
    | Some e =>
        if negb (isAllowableError e)
        then inl (Js.newError ("Invalid feed URL: " +:+ e))
        else inr (withDefaults feed)
    end.

(** The [try] and its [catch], for the validation obtained: the instance
    left to the INSERT, or the error let out; and the warning logged. *)
Definition hookBody (validation : Validation) (feed : NewFeed)
  : (Js.Error + NewFeed) * option string :=
  match hookTry validation feed with
  | inr feed' => (inr feed', None)
  | inl error =>
      (inr (withDefaults feed),
       Some ("Feed URL validation failed for " +:+ nf_url feed +:+ ": " +:+ Js.message error))
  end.

(** The hook [beforeCreate: async (feed) => ...]. *)
Definition beforeCreate (parseURL : string -> Js.Error + ParsedFeed Item)
  (get : string -> HttpOutcome) (feed : NewFeed) : (Js.Error + NewFeed) * option string :=
  hookBody (validateFeedUrl parseURL get (nf_url feed)) feed.

End FeedModel.

(** ** FeedService.subscribeFeed and unsubscribeFeed *)

Module Subscriptions.

(** A row of the [subscriptions] table. *)
Record Subscription := mkSubscription {
  s_id : Z;
  s_userId : Z;
  s_feedId : Z;
  s_isActive : bool;
  s_notificationsEnabled : bool;
  s_createdAt : Z;
  s_updatedAt : Z
}.

(** The table: the rows in insertion order and the counter of the primary
    key. The users named exist. *)
Record t := mk {
  rows : list Subscription;
  next_id : Z
}.

Definition isFor (userId feedId : Z) (s : Subscription) : bool :=
  bool_decide (s_userId s = userId) && bool_decide (s_feedId s = feedId).

(** [Subscription.findOne({ where: { userId, feedId } })] *)
Definition findOne (db : t) (userId feedId : Z) : option Subscription :=
  List.find (isFor userId feedId) (rows db).

Definition uniqueConstraintError : Js.Error :=
  {| Js.name := "SequelizeUniqueConstraintError";
     Js.message := "Validation error";
     Js.code := None |}.

(** [Subscription.create({ userId, feedId })]: the unique index on
    [(userId, feedId)] may refuse the INSERT. *)
Definition create (db : t) (userId feedId now : Z) : t * (Js.Error + Subscription) :=
  if existsb (isFor userId feedId) (rows db) then (db, inl uniqueConstraintError)
  else
    let row := {| s_id := next_id db; s_userId := userId; s_feedId := feedId;
                  s_isActive := true; s_notificationsEnabled := true;
                  s_createdAt := now; s_updatedAt := now |} in
    ({| rows := rows db ++ [row]; next_id := next_id db + 1 |}, inr row).

(** [subscription.destroy()]: DELETE of the row with its id. *)
Definition destroy (db : t) (subscription : Subscription) : t :=
  {| rows := filter (fun s => s_id s <> s_id subscription) (rows db);
     next_id := next_id db |}.

(** [Feed.findByPk(feedId)] on the rows of the feed table. *)
Definition findByPk (feeds : list Feed) (feedId : Z) : option Feed :=
  List.find (fun f => bool_decide (f_id f = feedId)) feeds.

(** The outer [catch] of the two methods. *)
Definition wrap {A : Type} (prefix : string) (r : Js.Error + A) : Js.Error + A :=
  match r with
  | inl error => inl (Js.newError (prefix +:+ Js.message error))
  | inr v => inr v
  end.

(** [subscribeFeed(userId, feedId)]: the table after the call, and the
    object [{ subscription, message }] returned or the error thrown. *)
Definition subscribeFeed (feeds : list Feed) (db : t) (userId feedId now : Z)
  : t * (Js.Error + Subscription * string) :=
  let '(db', r) :=
    match findByPk feeds feedId with
    | None => (db, inl (Js.newError "Feed not found"))
    | Some _ =>
        match findOne db userId feedId with
        | Some existingSubscription =>
            (db, inr (existingSubscription, "Already subscribed to this feed"))
        | None =>
            match create db userId feedId now with
            | (db', inl error) => (db', inl error)
            | (db', inr subscription) => (db', inr (subscription, "Subscribed successfully"))
            end
        end
    end in
  (db', wrap "Failed to subscribe to feed: " r).

(** [unsubscribeFeed(userId, feedId)]: the table after the call, and the
    message returned or the error thrown. *)
Definition unsubscribeFeed (db : t) (userId feedId : Z) : t * (Js.Error + string) :=
  let '(db', r) :=
    match findOne db userId feedId with
    | None => (db, inl (Js.newError "Subscription not found"))
    | Some subscription => (destroy db subscription, inr "Unsubscribed successfully")
    end in
  (db', wrap "Failed to unsubscribe from feed: " r).

(** *** Vocabulary *)

(** A table as the primary key and the unique index keep it. *)
Record wellFormed (db : t) : Prop := mkWellFormed {
  ids_unique : NoDup (map s_id (rows db));
  ids_below : Forall (fun s => s_id s < next_id db) (rows db);
  pairs_unique : NoDup (map (fun s => (s_userId s, s_feedId s)) (rows db))
}.

Definition subscribed (db : t) (userId feedId : Z) : Prop :=
  exists s, s ∈ rows db /\ s_userId s = userId /\ s_feedId s = feedId.

End Subscriptions.

(** ** FeedService.createFeed *)

Module FeedCreation.

(** The request: [feedData.url], [.title], [.description] and
    [.fetchInterval]. *)
Record FeedData := mkFeedData {
  fd_url : string;
  fd_title : option string;
  fd_description : option string;
  fd_fetchInterval : option Z
}.

(** The object given to [Feed.create]. *)
Record FeedAttrs := mkFeedAttrs {
  at_url : string;
  at_title : string;
  at_description : string;
  at_link : string;
  at_language : string;
  at_isActive : bool;
  at_lastFetched : Z;
  at_fetchInterval : Z
}.

(** The calls on the Feed model: [Feed.findOne({ where: { url } })],
    [Feed.create({...})], which may throw, and, on the instance [feed],
    [feed.update({ lastFetched, errorCount })], which writes the two columns
    to the row of the feed. *)
Class FeedModel (FS : Type) := {
  findOne : FS -> string -> option Feed;
  create : FS -> FeedAttrs -> FS * (Js.Error + Feed);
  update : FS -> Feed -> Z -> Z -> FS
}.

(** The three stores the method works on. *)
Record World (FS St : Type) := mkWorld {
  feeds : FS;
  subscriptions : Subscriptions.t;
  articles : St
}.
Arguments mkWorld {FS St} _ _ _.
Arguments feeds {FS St} _.
Arguments subscriptions {FS St} _.
Arguments articles {FS St} _.

(** Reading [feedInfo.title] when [validation.feedInfo] is undefined. *)
Definition typeError : Js.Error :=
  {| Js.name := "TypeError";
     Js.message := "Cannot read properties of undefined (reading 'title')";
     Js.code := None |}.

(** [a || b] on numbers, where [a] may be undefined. *)
Definition or_number (a : option Z) (b : Z) : Z :=
  match a with
  | Some n => if n =? 0 then b else n
  | None => b
  end.

Definition attrsOf (feedData : FeedData) (feedInfo : FeedService.FeedInfo) (now : Z)
  : FeedAttrs :=
  {| at_url := fd_url feedData;
     at_title := Js.or_str (FeedService.fi_title feedInfo)
                   (Js.or_str (fd_title feedData) "Untitled Feed");
     at_description := Js.or_str (FeedService.fi_description feedInfo)
                         (Js.or_str (fd_description feedData) EmptyString);
     at_link := Js.or_str (FeedService.fi_link feedInfo) EmptyString;
     at_language := Js.or_str (Some (FeedService.fi_language feedInfo)) "en";
     at_isActive := true;
     at_lastFetched := now;
     at_fetchInterval := or_number (fd_fetchInterval feedData) 3600000 |}.

(** The success message, with the warning of the validation if any. *)
Definition createdMessage (validation : FeedService.Validation) : string :=
  "Feed created and subscribed successfully"
  +:+ (if Js.truthy (FeedService.warning validation)
       then ". Warning: " +:+ default EmptyString (FeedService.warning validation)
       else EmptyString).

Section CreateFeed.

Variable dateParse : string -> option Z.
Context {FS St : Type} {F : FeedModel FS} {M : Sequelize.ArticleModel St}.

(** The remote side as the validation meets it: rss-parser and the GETs
    of the service's fallback parser. *)
Variable parseURL : string -> Js.Error + ParsedFeed Item.
Variable axios : string -> string -> option string -> HttpOutcome.

(** The remote side as the fetcher meets it afterwards. *)
Variable fetcher : ArticleFetcher.Remote.

(** [ArticleFetcher.fetchFeedArticles(feed)] on the instance that
    [Feed.create] returned, with the feed table that its two [feed.update]
    calls write to: the table after the call, then the feed instance, the
    article store and the count or the error as the fetcher leaves them. The
    two early returns write nothing. *)
Definition fetchFeedArticles (feed : Feed) (fs : FS) (s : St) (now : Z)
  : FS * (Feed * St * (Js.Error + Z)) :=
  let catch (s' : St) (error : Js.Error) :=
    let errorCount := Js.or_zero (f_errorCount feed) + 1 in
    (update fs feed now errorCount,
     (ArticleFetcher.updateFeed feed now errorCount, s',
      inl (Js.newError ("Failed to fetch articles for feed " +:+ ArticleFetcher.dquote
                        +:+ f_title feed +:+ ArticleFetcher.dquote +:+ ": "
                        +:+ Js.message error)))) in
  match ArticleFetcher.parse fetcher (f_url feed) with
  | inl error => catch s error
  | inr parsedFeed =>
      match items parsedFeed with
      | None | Some [] => (fs, (feed, s, inr 0))
      | Some its =>
          match ArticleFetcher.validArticles dateParse now its with
          | [] => (fs, (feed, s, inr 0))
          | valid =>
              match ArticleM.bulkCreateSafeWithDupeCheck s valid (f_id feed) now with
              | (s', inl error, _) => catch s' error
              | (s', inr newArticles, _) =>
                  (update fs feed now 0,
                   (ArticleFetcher.updateFeed feed now 0, s',
                    inr (Z.of_nat (length newArticles))))
              end
          end
      end
  end.

(** The [try] block of [createFeed]. *)
Definition tryCreate (feedData : FeedData) (userId now : Z) (w : World FS St)
  : World FS St * (Js.Error + Feed * Subscriptions.Subscription * string) :=
  let validation := FeedService.validateFeedUrl parseURL axios (fd_url feedData) in
  match findOne (feeds w) (fd_url feedData) with
  | Some existingFeed =>
      match Subscriptions.findOne (subscriptions w) userId (f_id existingFeed) with
      | Some existingSubscription =>
          (w, inr (existingFeed, existingSubscription, "Already subscribed to this feed"))
      | None =>
          match Subscriptions.create (subscriptions w) userId (f_id existingFeed) now with
          | (subs', inl error) => (mkWorld (feeds w) subs' (articles w), inl error)
          | (subs', inr subscription) =>
              (mkWorld (feeds w) subs' (articles w),
               inr (existingFeed, subscription, "Subscribed to existing feed"))
          end
      end
  | None =>
      match FeedService.feedInfo validation with
      | None => (w, inl typeError)
      | Some feedInfo =>
          match create (feeds w) (attrsOf feedData feedInfo now) with
          | (fs', inl error) => (mkWorld fs' (subscriptions w) (articles w), inl error)
          | (fs', inr feed) =>
              match Subscriptions.create (subscriptions w) userId (f_id feed) now with
              | (subs', inl error) => (mkWorld fs' subs' (articles w), inl error)
              | (subs', inr subscription) =>
                  let '(fs'', (feed', st', _)) :=
                    fetchFeedArticles feed fs' (articles w) now in
                  (mkWorld fs'' subs' st',
                   inr (feed', subscription, createdMessage validation))
              end
          end
      end
  end.

(** [createFeed(feedData, userId)]: the stores after the call, and the
    object [{ feed, subscription, message }] returned or the error thrown.
    The feed returned is the instance as the fetch left it. *)
Definition createFeed (feedData : FeedData) (userId now : Z) (w : World FS St)
  : World FS St * (Js.Error + Feed * Subscriptions.Subscription * string) :=
  let '(w', r) := tryCreate feedData userId now w in
  (w', Subscriptions.wrap "Failed to create feed: " r).

End CreateFeed.

End FeedCreation.

(** ** ArticleFetcher.fetchFeedById *)

Module FetchById.

Section Fetch.

Variable dateParse : string -> option Z.
Context {St : Type} {M : Sequelize.ArticleModel St}.

(** [fetchFeedById(feedId)] over the rows of the feed table: the feed row
    after the call if one was found, the article store after the call, and
    the count returned or the error thrown. *)
Definition fetchFeedById (r : ArticleFetcher.Remote) (table : list Feed) (feedId : Z)
  (s : St) (now : Z) : option Feed * St * (Js.Error + Z) :=
  match Subscriptions.findByPk table feedId with
  | None => (None, s, inl (Js.newError "Feed not found"))
  | Some feed =>
      let '(feed', s', res) := ArticleFetcher.fetchFeedArticles dateParse r feed s now in
      (Some feed', s', res)
  end.

End Fetch.

End FetchById.

(** ** More sample stores, used by the examples of the later parts *)

Module MoreSamples.

Definition t0 : Z := 1700000000000.
Definition t1 : Z := 1700000600000.

(** The remote side refuses every request for every feed. *)
Definition status500 : Js.Error := Js.newError "Status code 500".
Definition refused500 : Js.Error := Js.newError "Request failed with status code 500".

(** No subscription yet; then user 7 subscribed to feed 1 at [t0]. *)
Definition noSubscriptions : Subscriptions.t :=
  {| Subscriptions.rows := []; Subscriptions.next_id := 1 |}.

Definition subscription71 : Subscriptions.Subscription :=
  {| Subscriptions.s_id := 1; Subscriptions.s_userId := 7; Subscriptions.s_feedId := 1;
     Subscriptions.s_isActive := true; Subscriptions.s_notificationsEnabled := true;
     Subscriptions.s_createdAt := t0; Subscriptions.s_updatedAt := t0 |}.

Definition oneSubscription : Subscriptions.t :=
  {| Subscriptions.rows := [subscription71]; Subscriptions.next_id := 2 |}.

(** [feed.update({ lastFetched, errorCount })] on a list of rows. *)
Definition updateRow (fs : list Feed) (feed : Feed) (lastFetched errorCount : Z) : list Feed :=
  map (fun f => if bool_decide (f_id f = f_id feed)
                then ArticleFetcher.updateFeed f lastFetched errorCount
                else f) fs.

(** A feed table for the examples: the rows in a list, ids counted from 1;
    [create] accepts every new URL. *)
Definition feedList : FeedCreation.FeedModel (list Feed) :=
  {| FeedCreation.findOne := fun fs url => List.find (fun f => bool_decide (f_url f = url)) fs;
     FeedCreation.create := fun fs a =>
       if existsb (fun f => bool_decide (f_url f = FeedCreation.at_url a)) fs
       then (fs, inl Db.uniqueConstraintError)
       else
         let row := {| f_id := Z.of_nat (length fs) + 1;
                       f_title := FeedCreation.at_title a;
                       f_url := FeedCreation.at_url a;
                       f_isActive := FeedCreation.at_isActive a;
                       f_lastFetched := Some (FeedCreation.at_lastFetched a);
                       f_errorCount := 0 |} in
         (fs ++ [row], inr row);
     FeedCreation.update := updateRow |}.

Definition request (url : string) : FeedCreation.FeedData :=
  {| FeedCreation.fd_url := url; FeedCreation.fd_title := None;
     FeedCreation.fd_description := None; FeedCreation.fd_fetchInterval := None |}.

(** No feed yet; and feed A known, with user 7 subscribed to it. *)
Definition emptyWorld : FeedCreation.World (list Feed) Db.t :=
  FeedCreation.mkWorld [] noSubscriptions Samples.emptyDb.

Definition worldA : FeedCreation.World (list Feed) Db.t :=
  FeedCreation.mkWorld [Samples.feedA] oneSubscription Samples.emptyDb.

(** The feed created for "https://new.example/rss" at [t0] when the
    validation met HTTP 429, as a first fetch that failed leaves it. *)
Definition newFeed429 : Feed :=
  {| f_id := 1; f_title := "Feed Title (Unable to fetch)";
     f_url := "https://new.example/rss"; f_isActive := true;
     f_lastFetched := Some t0; f_errorCount := 1 |}.

(** A feed that was deactivated. *)
Definition inactiveFeed : Feed :=
  {| f_id := 3; f_title := "Paused"; f_url := "https://c.example/rss"; f_isActive := false;
     f_lastFetched := None; f_errorCount := 0 |}.

(** A page that is no feed, for both strategies of the validation. *)
Definition rssNotAFeed : string -> Js.Error + ParsedFeed Item :=
  fun _ => inl (Js.newError "Feed not recognized as RSS 1 or 2.").

End MoreSamples.

(** * Properties *)

(** ** JavaScript primitives *)

Example includes_ex1 : Js.includes "Status code 429" "code 4" = true.
Proof. reflexivity. Qed.
Example includes_ex2 : Js.includes "Request failed with status code 429" "Status code 429" = false.
Proof. reflexivity. Qed.
Example trim_ex1 : Js.trim "  a b  " = "a b".
Proof. reflexivity. Qed.
Example trim_ex2 : Js.trim "   " = EmptyString.
Proof. reflexivity. Qed.


Module JsFacts.

Lemma truthyStr_true (s : string) : Js.truthyStr s = true <-> s <> EmptyString.
Proof.
  unfold Js.truthyStr. rewrite negb_true_iff, bool_decide_eq_false. tauto.
Qed.

Lemma truthyStr_false (s : string) : Js.truthyStr s = false <-> s = EmptyString.
Proof.
  unfold Js.truthyStr. rewrite negb_false_iff, bool_decide_eq_true. tauto.
Qed.

Lemma or_zero_id (n : Z) : Js.or_zero n = n.
Proof. unfold Js.or_zero. destruct (Z.eqb_spec n 0); congruence. Qed.

Lemma append_nil_l (c : string) : EmptyString +:+ c = c.
Proof. reflexivity. Qed.

Lemma append_cons (x : ascii) (b c : string) : String x b +:+ c = String x (b +:+ c).
Proof. reflexivity. Qed.

Lemma append_nil_r (b : string) : b +:+ EmptyString = b.
Proof.
  induction b as [|x b IH]; [reflexivity|]. now rewrite append_cons, IH.
Qed.

Lemma append_assoc (a b c : string) : (a +:+ b) +:+ c = a +:+ (b +:+ c).
Proof.
  induction a as [|x a IH]; [reflexivity|]. now rewrite !append_cons, IH.
Qed.

Lemma startsWith_app (b c : string) : Js.startsWith (b +:+ c) b = true.
Proof.
  induction b as [|x b IH]; [reflexivity|].
  rewrite append_cons. simpl. rewrite Ascii.eqb_refl. exact IH.
Qed.

(** A string includes each of the pieces it was concatenated from. *)
Lemma includes_app (a b c : string) : Js.includes (a +:+ b +:+ c) b = true.
Proof.
  induction a as [|x a IH].
  - rewrite append_nil_l. destruct b as [|y b].
    + destruct c; reflexivity.
    + rewrite append_cons. simpl. rewrite Ascii.eqb_refl, startsWith_app. reflexivity.
  - rewrite append_cons. simpl. rewrite IH. apply orb_true_r.
Qed.

Lemma includes_app_end (a b : string) : Js.includes (a +:+ b) b = true.
Proof.
  pose proof (includes_app a b EmptyString) as H.
  now rewrite append_nil_r in H.
Qed.

End JsFacts.

(** ** FeedService.validateFeedUrl: the allow-list of transient failures *)

Module FeedServiceFacts.

Import FeedService.

Lemma isAllowableError_spec (e : Js.Error) :
  isAllowableError e = true <->
  exists sig, In sig allowableErrors /\
              (Js.includes (Js.message e) sig = true \/ Js.code e = Some sig).
Proof.
  unfold isAllowableError. rewrite existsb_exists.
  split; intros (sig & Hin & H); exists sig; split; trivial.
  - apply orb_true_iff in H as [H|H]; [left | right]; trivial.
    now apply bool_decide_eq_true in H.
  - apply orb_true_iff. destruct H as [H|H]; [left | right]; trivial.
    now apply bool_decide_eq_true.
Qed.

(** The list of the code holds the signatures of the specification, and
    no other. *)
Lemma allowableErrors_listed : allowableErrors = transientSignatures.
Proof. reflexivity. Qed.

Lemma matchesAllowList_spec (pe fe : Js.Error) :
  matchesAllowList pe fe <-> isAllowableError pe || isAllowableError fe = true.
Proof.
  rewrite orb_true_iff, !isAllowableError_spec. unfold matchesAllowList.
  rewrite allowableErrors_listed. split.
  - intros (e & sig & [-> | ->] & Hin & H); [left | right]; eauto.
  - intros [(sig & Hin & H) | (sig & Hin & H)]; [exists pe | exists fe];
      exists sig; tauto.
Qed.

(** C7. When both parser strategies fail on a URL, [validateFeedUrl]
    answers [valid = true] exactly when the failure matches the allow-list
    of transient-failure signatures, that is when the message of one of the
    two errors contains, or its code is, one of: "Response code" or "Status
    code" followed by 403, 429 or 503; ETIMEDOUT, ENOTFOUND, ECONNREFUSED,
    "socket hang up", "timeout", "Request timeout", "getaddrinfo ENOTFOUND";
    "Non-whitespace before first tag", "Invalid character in entity name",
    "Unexpected end of input". The answer then carries a warning that
    contains both the primary and the fallback error message, and the
    placeholder feed information; a failure that does not match answers
    [valid = false] with an error string that contains both messages. *)
Theorem validateFeedUrl_both_fail
  (parseURL : string -> Js.Error + ParsedFeed Item)
  (axios : string -> string -> option string -> HttpOutcome)
  (url : string) (primaryError fallbackError : Js.Error) :
  parseURL url = inl primaryError ->
  snd (parseWithFeedParser axios url) = inl fallbackError ->
  let v := validateFeedUrl parseURL axios url in
  (valid v = true <-> matchesAllowList primaryError fallbackError) /\
  (valid v = true ->
     exists w, warning v = Some w /\
       Js.includes w (Js.message primaryError) = true /\
       Js.includes w (Js.message fallbackError) = true /\
       feedInfo v = Some (placeholderInfo url) /\ error v = None) /\
  (valid v = false ->
     exists e, error v = Some e /\
       Js.includes e (Js.message primaryError) = true /\
       Js.includes e (Js.message fallbackError) = true /\
       feedInfo v = None /\ warning v = None).
Proof.
  intros Hp Hf v. subst v. unfold validateFeedUrl. rewrite Hp, Hf.
  rewrite matchesAllowList_spec.
  destruct (isAllowableError primaryError || isAllowableError fallbackError) eqn:E;
    simpl; (split; [split; congruence|]); split; try discriminate; intros _.
  - eexists. split; [reflexivity|]. repeat split.
    + apply JsFacts.includes_app.
    + rewrite <- !JsFacts.append_assoc. apply JsFacts.includes_app_end.
  - eexists. split; [reflexivity|]. repeat split.
    + apply JsFacts.includes_app.
    + rewrite <- !JsFacts.append_assoc. apply JsFacts.includes_app_end.
Qed.

End FeedServiceFacts.

Module FeedServiceExamples.

Import FeedService FeedServiceFacts.

(** HTTP 429 from both strategies: the message of rss-parser carries the
    signature "Status code 429", so the failure matches the list and the
    validation is valid, with the warning and the placeholders. *)
Lemma validateFeedUrl_both_fail_witness :
  Samples.rss429 Samples.feedUrl = inl (Js.newError "Status code 429") /\
  snd (parseWithFeedParser Samples.axios429 Samples.feedUrl)
    = inl {| Js.name := "AxiosError";
             Js.message := "Request failed with status code 429";
             Js.code := Some "ERR_BAD_REQUEST" |} /\
  let v := validateFeedUrl Samples.rss429 Samples.axios429 Samples.feedUrl in
  valid v = true /\
  exists w, warning v = Some w /\
    Js.includes w "Status code 429" = true /\
    Js.includes w "Request failed with status code 429" = true /\
    feedInfo v = Some (placeholderInfo Samples.feedUrl) /\ error v = None.
Proof.
  split; [reflexivity|]. split; [reflexivity|]. intros v.
  destruct (validateFeedUrl_both_fail Samples.rss429 Samples.axios429 Samples.feedUrl
              (Js.newError "Status code 429")
              {| Js.name := "AxiosError";
                 Js.message := "Request failed with status code 429";
                 Js.code := Some "ERR_BAD_REQUEST" |} eq_refl eq_refl)
    as (Hiff & Hvalid & _).
  assert (Hv : valid v = true).
  { apply Hiff. exists (Js.newError "Status code 429"), "Status code 429".
    split; [now left|]. split; [|left; reflexivity].
    do 3 right. left. reflexivity. }
  split; [exact Hv | exact (Hvalid Hv)].
Defined.

(** The signature is matched with its case: the message of axios for the
    same status, alone, does not match, and a failure known by this
    message only is invalid. *)
Example validateFeedUrl_case_sensitive :
  let v := validateFeedUrl (fun _ => inl (Js.newError "Request failed with status code 429"))
             Samples.axios429 Samples.feedUrl in
  valid v = false.
Proof. reflexivity. Qed.

(** The scenario of the specification: HTTP 429 from both strategies. *)
Example validateFeedUrl_429 :
  let v := validateFeedUrl Samples.rss429 Samples.axios429 Samples.feedUrl in
  valid v = true /\
  warning v = Some "Feed may not be accessible right now (both parsers failed), but will be created anyway. Primary: Status code 429, Fallback: Request failed with status code 429" /\
  feedInfo v = Some (placeholderInfo Samples.feedUrl).
Proof. repeat split; reflexivity. Qed.

End FeedServiceExamples.

(** ** The fallback parser: User-Agent rotation *)

Module FallbackFacts.

Import Fallback.

Section Rotation.

Context {R : Type} (resolve : FeedMeta -> list FpItem -> R).
Variable axios : string -> string -> option string -> HttpOutcome.
Variable url : string.

Lemma spaced_single (e : Event) : spaced [e].
Proof.
  intros [|x pre] ua r post H; [now left|].
  destruct pre; discriminate.
Qed.

Lemma spaced_pair (ua : string) (r : option string) (k : nat) (msg : string) :
  spaced [Get ua r; Failed k msg].
Proof.
  intros [|x [|y pre]] ua' r' post H; [now left | discriminate |].
  destruct pre; discriminate.
Qed.

Lemma spaced_step (ua : string) (r : option string) (k : nat) (msg : string)
  (evs : list Event) :
  spaced evs -> spaced (Get ua r :: Failed k msg :: SetTimeout 1000 :: evs).
Proof.
  intros IH pre ua' r' post H.
  destruct pre as [|e1 [|e2 [|e3 pre]]]; [now left | discriminate | discriminate |].
  injection H as <- <- <- H. right.
  destruct (IH _ _ _ _ H) as [-> | [pre' ->]].
  - now exists [Get ua r; Failed k msg].
  - now exists (Get ua r :: Failed k msg :: SetTimeout 1000 :: pre').
Qed.

(** The shape of every run of the rotation over a non-empty list of
    agents. *)
Lemma tryRequest_shape (agents : list string) :
  forall k : nat, agents <> [] ->
  exists n ua,
    (1 <= n <= length agents)%nat /\
    agents !! (n - 1)%nat = Some ua /\
    requests (fst (tryRequest resolve axios url k agents)) = take n agents /\
    timers (fst (tryRequest resolve axios url k agents)) = replicate (n - 1) 1000 /\
    spaced (fst (tryRequest resolve axios url k agents)) /\
    Forall (refused axios url) (take (n - 1) agents) /\
    ended resolve axios url agents n ua (snd (tryRequest resolve axios url k agents)).
Proof.
  induction agents as [|ua rest IH]; intros k Hne; [congruence|].
  simpl. destruct (axios url ua (refererOf url)) as [err | [e | m its]] eqn:E.
  - destruct rest as [|ua' rest].
    + exists 1%nat, ua. simpl. split_and!; try lia; try reflexivity; try apply Forall_nil_2.
      * apply spaced_pair.
      * right. split; [reflexivity | exact E].
    + destruct (IH (k + 1)%nat) as (n & u & Hn & Hu & Hr & Ht & Hs & Hf & He);
        [discriminate|].
      destruct (tryRequest resolve axios url (k + 1) (ua' :: rest)) as [evs res].
      simpl in Hr, Ht, Hs, He, Hn.
      exists (Datatypes.S n), u. simpl. split_and!; try lia.
      * replace (n - 0)%nat with (Datatypes.S (n - 1)) by lia. exact Hu.
      * now rewrite Hr.
      * rewrite Ht. replace (n - 0)%nat with (Datatypes.S (n - 1)) by lia.
        reflexivity.
      * now apply spaced_step.
      * replace (n - 0)%nat with (Datatypes.S (n - 1)) by lia.
        rewrite firstn_cons. constructor; [now exists err | exact Hf].
      * destruct res as [e | feed]; [|exact He].
        destruct He as [He | [-> He]]; [now left | right].
        split; [reflexivity | exact He].
  - exists 1%nat, ua. simpl. split_and!; try lia; try reflexivity; try apply Forall_nil_2.
    + apply spaced_single.
    + left. exact E.
  - exists 1%nat, ua. simpl. split_and!; try lia; try reflexivity; try apply Forall_nil_2.
    + apply spaced_single.
    + exists m, its. split; [exact E | reflexivity].
Qed.

End Rotation.

(** C6 (amended). Whenever the fallback parser runs, it issues its GETs
    with the five User-Agent strings in their declared order, stopping at
    the [n]th; the [n - 1] attempts before it were all refused, each
    followed by a one-second timer that directly precedes the next request.
    If the promise resolves, the [n]th request was answered with a feed, so
    exactly [n] attempts were made. If it rejects, either the [n]th request
    was answered and the stream parser raised the error (whatever [n] is),
    or all five requests were refused and the error is that of the last. *)
Theorem parseWithFeedParser_rotation {R : Type} (resolve : FeedMeta -> list FpItem -> R)
  (axios : string -> string -> option string -> HttpOutcome) (url : string) :
  exists n ua,
    (1 <= n <= 5)%nat /\
    userAgents !! (n - 1)%nat = Some ua /\
    requests (fst (parseWithFeedParser resolve axios url)) = take n userAgents /\
    timers (fst (parseWithFeedParser resolve axios url)) = replicate (n - 1) 1000 /\
    spaced (fst (parseWithFeedParser resolve axios url)) /\
    Forall (refused axios url) (take (n - 1) userAgents) /\
    ended resolve axios url userAgents n ua (snd (parseWithFeedParser resolve axios url)).
Proof.
  unfold parseWithFeedParser.
  apply (tryRequest_shape resolve axios url userAgents 0%nat). discriminate.
Qed.

(** C6 as stated fails: when the first request is answered with a body that
    is no feed, the error of the stream parser rejects the promise after one
    attempt. *)
Lemma fallback_rejects_before_all_agents :
  ~ (forall (axios : string -> string -> option string -> HttpOutcome) (url : string)
            (e : Js.Error),
        snd (parseWithFeedParser ArticleFetcher.resolveFp axios url) = inl e ->
        requests (fst (parseWithFeedParser ArticleFetcher.resolveFp axios url)) = userAgents).
Proof.
  intros H.
  specialize (H Samples.axiosNotAFeed Samples.feedUrl (Js.newError "Not a feed") eq_refl).
  vm_compute in H. discriminate H.
Qed.

Example rejects_after_one_attempt :
  parseWithFeedParser ArticleFetcher.resolveFp Samples.axiosNotAFeed Samples.feedUrl
  = ([Get "Mozilla/5.0 (Windows NT 10.0; Win64; x64) AppleWebKit/537.36 (KHTML, like Gecko) Chrome/120.0.0.0 Safari/537.36"
          (Some "https://example.com")],
     inl (Js.newError "Not a feed")).
Proof. reflexivity. Qed.

Example resolves_on_fourth_attempt :
  let run := parseWithFeedParser ArticleFetcher.resolveFp Samples.axiosBotOnly Samples.feedUrl in
  requests (fst run) = take 4 userAgents /\
  timers (fst run) = [1000; 1000; 1000] /\
  snd run = inr (ArticleFetcher.resolveFp Samples.emptyMeta []).
Proof. repeat split; reflexivity. Qed.

Example rejects_after_five_refusals :
  let run := parseWithFeedParser ArticleFetcher.resolveFp Samples.axios429 Samples.feedUrl in
  requests (fst run) = userAgents /\
  timers (fst run) = [1000; 1000; 1000; 1000] /\
  exists e, snd run = inl e /\ Js.message e = "Request failed with status code 429".
Proof. repeat split; try reflexivity. eexists. split; reflexivity. Qed.

End FallbackFacts.

(** ** ArticleFetcher: normalisation and the validity filter *)

Module FetchFacts.

Import ArticleFetcher FetchSpec.

Lemma trimStart_empty (s : string) :
  Js.trimStart s = EmptyString <-> allWhiteSpace s.
Proof.
  unfold allWhiteSpace. induction s as [|c s IH]; simpl.
  - split; [intros _ c [] | reflexivity].
  - destruct (Js.isWhiteSpace c) eqn:E.
    + rewrite IH. split.
      * intros H x [<- | Hx]; auto.
      * intros H x Hx. apply H. now right.
    + split; [discriminate|]. intros H.
      specialize (H c (or_introl eq_refl)). congruence.
Qed.

Lemma trimEnd_nonempty (c : ascii) (s : string) :
  Js.isWhiteSpace c = false -> Js.trimEnd (String c s) <> EmptyString.
Proof.
  intros E. simpl. destruct (Js.trimEnd s); [rewrite E|]; discriminate.
Qed.

Lemma trimStart_head (s : string) (c : ascii) (t : string) :
  Js.trimStart s = String c t -> Js.isWhiteSpace c = false.
Proof.
  induction s as [|x s IH]; simpl; [discriminate|].
  destruct (Js.isWhiteSpace x) eqn:E; [exact IH|].
  intros [= <- _]. exact E.
Qed.

(** [s.trim() === ''] exactly for the strings made of white space only. *)
Lemma trim_empty (s : string) : Js.trim s = EmptyString <-> allWhiteSpace s.
Proof.
  rewrite <- trimStart_empty. unfold Js.trim.
  destruct (Js.trimStart s) as [|c t] eqn:E; [tauto|].
  split; [|discriminate]. intros H.
  now apply trimEnd_nonempty in H; [|eapply trimStart_head; eauto].
Qed.

Lemma hasLink_spec (d : ArticleData) : hasLink d = true <-> nonBlank (link d).
Proof.
  unfold hasLink, nonBlank. now rewrite andb_true_iff, !JsFacts.truthyStr_true.
Qed.

Lemma hasDescription_spec (d : ArticleData) :
  hasDescription d = true <-> nonBlank (rawContent d).
Proof.
  unfold hasDescription, nonBlank. now rewrite andb_true_iff, !JsFacts.truthyStr_true.
Qed.

Lemma isValid_spec (d : ArticleData) : isValid d = true <-> validCandidate d.
Proof.
  unfold isValid, validCandidate.
  now rewrite andb_true_iff, hasLink_spec, hasDescription_spec.
Qed.

Lemma validArticles_valid (dateParse : string -> option Z) (now : Z) (its : list Item) :
  Forall validCandidate (validArticles dateParse now its).
Proof.
  unfold validArticles. apply Forall_forall. intros d Hd.
  apply list_elem_of_In, filter_In in Hd as [_ Hd]. now apply isValid_spec.
Qed.

Lemma or_str_truthy (a : option string) (b : string) :
  Js.truthy a = true -> Some (Js.or_str a b) = a.
Proof.
  destruct a as [v|]; simpl; [|discriminate]. now intros ->.
Qed.

Lemma or_str_falsy (a : option string) (b : string) :
  Js.truthy a = false -> Js.or_str a b = b.
Proof.
  destruct a as [v|]; simpl; [|reflexivity]. now intros ->.
Qed.

(** C10 (amended). For a parsed item whose link is missing or empty and
    whose guid [v] is not empty, normalisation sets both the link and the
    guid of the candidate to [v]; the candidate passes the link test of the
    validity filter exactly when [v] is not made of white space only, and it
    is among the valid candidates handed on exactly when, besides, its
    content is not blank. Symmetrically, a missing or empty guid is set to
    a non-empty link. *)
Theorem normalize_link_guid_fallback (dateParse : string -> option Z) (now : Z)
  (item : Item) (v : string) :
  v <> EmptyString ->
  let n := normalize dateParse now item in
  (Js.truthy (i_link item) = false -> i_guid item = Some v ->
     link n = v /\ guid n = v /\
     (hasLink n = true <-> ~ allWhiteSpace v) /\
     (In n (validArticles dateParse now [item]) <->
        ~ allWhiteSpace v /\ nonBlank (rawContent n))) /\
  (Js.truthy (i_guid item) = false -> i_link item = Some v ->
     guid n = v /\ link n = v).
Proof.
  intros Hv n.
  assert (Ht : Js.truthy (Some v) = true) by now apply JsFacts.truthyStr_true.
  split; intros Hfalsy Hsome.
  - assert (Hl : link n = v).
    { subst n. simpl. rewrite (or_str_falsy _ _ Hfalsy), Hsome.
      simpl. simpl in Ht. now rewrite Ht. }
    assert (Hg : guid n = v).
    { subst n. simpl. rewrite Hsome. simpl. simpl in Ht. now rewrite Ht. }
    assert (Hh : hasLink n = true <-> ~ allWhiteSpace v).
    { rewrite hasLink_spec. unfold nonBlank. rewrite Hl, trim_empty. tauto. }
    split_and!; trivial.
    change (validArticles dateParse now [item]) with (List.filter isValid [n]).
    rewrite filter_In. unfold isValid.
    rewrite andb_true_iff, Hh, hasDescription_spec. simpl. tauto.
  - split.
    + subst n. simpl. rewrite (or_str_falsy _ _ Hfalsy), Hsome.
      simpl. simpl in Ht. now rewrite Ht.
    + subst n. simpl. rewrite Hsome. simpl. simpl in Ht. now rewrite Ht.
Qed.

Lemma normalize_link_guid_fallback_witness :
  let item := Samples.itemWithGuid "urn:uuid:1234" in
  let n := normalize Samples.noDates 0 item in
  "urn:uuid:1234" <> EmptyString /\
  Js.truthy (i_link item) = false /\ i_guid item = Some "urn:uuid:1234" /\
  link n = "urn:uuid:1234" /\ guid n = "urn:uuid:1234" /\
  (hasLink n = true <-> ~ allWhiteSpace "urn:uuid:1234") /\
  (In n (validArticles Samples.noDates 0 [item]) <->
     ~ allWhiteSpace "urn:uuid:1234" /\ nonBlank (rawContent n)).
Proof.
  intros item n.
  assert (Hv : "urn:uuid:1234" <> EmptyString) by discriminate.
  split; [exact Hv|]. split; [reflexivity|]. split; [reflexivity|].
  exact (proj1 (normalize_link_guid_fallback Samples.noDates 0 item "urn:uuid:1234" Hv)
           eq_refl eq_refl).
Defined.

(** C10 as stated fails: an item without a link whose guid is a single
    space has a non-empty guid, yet its candidate does not pass the link
    test of the validity filter and is discarded. *)
Lemma blank_guid_is_discarded :
  ~ (forall (dateParse : string -> option Z) (now : Z) (item : Item) (v : string),
        v <> EmptyString ->
        Js.truthy (i_link item) = false -> i_guid item = Some v ->
        hasLink (normalize dateParse now item) = true).
Proof.
  intros H.
  specialize (H Samples.noDates 0 (Samples.itemWithGuid " ") " ").
  discriminate H; [discriminate | reflexivity | reflexivity].
Qed.

Example blank_guid_candidate :
  link (normalize Samples.noDates 0 (Samples.itemWithGuid " ")) = " " /\
  validArticles Samples.noDates 0 [Samples.itemWithGuid " "] = [].
Proof. split; reflexivity. Qed.

Example urn_guid_candidate :
  map link (validArticles Samples.noDates 0 [Samples.itemWithGuid "urn:uuid:1234"])
  = ["urn:uuid:1234"].
Proof. reflexivity. Qed.

End FetchFacts.

(** ** ArticleFetcher: the error state of a feed and the run over all feeds *)

Module OrchestratorFacts.

Import ArticleFetcher FetchSpec.

Section Store.

Variable dateParse : string -> option Z.
Context {St : Type} {M : Sequelize.ArticleModel St}.

(** How the [try] block ends, by the candidates the fetch obtained. *)
Lemma tryBlock_cases (r : Remote) (feed : Feed) (s : St) (now : Z) :
  match parse r (f_url feed) with
  | inl error => tryBlock dateParse r feed s now = (s, inl error)
  | inr _ =>
      match candidates dateParse r feed now with
      | [] => tryBlock dateParse r feed s now = (s, inr (feed, 0))
      | valid =>
          tryBlock dateParse r feed s now =
          match ArticleM.bulkCreateSafeWithDupeCheck s valid (f_id feed) now with
          | (s', inl error, _) => (s', inl error)
          | (s', inr newArticles, _) =>
              (s', inr (updateFeed feed now 0, Z.of_nat (length newArticles)))
          end
      end
  end.
Proof.
  unfold tryBlock, candidates.
  destruct (parse r (f_url feed)) as [e | pf]; [reflexivity|].
  destruct (items pf) as [[|it its]|]; simpl; try reflexivity.
  destruct (validArticles dateParse now (it :: its)); reflexivity.
Qed.

(** C4. What a call of [fetchFeedArticles] does, by what the remote side
    and the model answer. When a parser returns a feed (rss-parser, or the
    fallback after rss-parser failed) whose items give no valid candidate,
    the call returns 0 and leaves the feed row, errorCount included, and the
    store untouched. When the valid candidates are handed to
    [bulkCreateSafeWithDupeCheck] and it returns, the call returns the
    number of articles inserted and leaves errorCount at 0 and lastFetched
    at now. When both parsers fail, or [bulkCreateSafeWithDupeCheck] throws,
    the call throws and leaves errorCount incremented by exactly one and
    lastFetched at now. Nothing else of the feed row changes: in no case is
    the feed deactivated. *)
Theorem fetchFeedArticles_error_state (r : Remote) (feed : Feed) (s : St) (now : Z) :
  let res := fetchFeedArticles dateParse r feed s now in
  let feed' := fst (fst res) in
  let s' := snd (fst res) in
  let failed := threw res = true /\ rowAfter feed now (f_errorCount feed + 1) feed' in
  let fetched (parsedFeed : ParsedFeed Item) :=
    match validArticles dateParse now (default [] (items parsedFeed)) with
    | [] => res = (feed, s, inr 0)
    | valid =>
        match ArticleM.bulkCreateSafeWithDupeCheck s valid (f_id feed) now with
        | (s1, inr newArticles, _) =>
            s' = s1 /\ snd res = inr (Z.of_nat (length newArticles)) /\
            rowAfter feed now 0 feed'
        | (s1, inl _, _) => s' = s1 /\ failed
        end
    end in
  match parseURL r (f_url feed) with
  | inr parsedFeed => fetched parsedFeed
  | inl _ =>
      match snd (parseWithFeedParser r (f_url feed)) with
      | inr parsedFeed => fetched parsedFeed
      | inl _ => s' = s /\ failed
      end
  end.
Proof.
  intros res feed' s' failed fetched.
  pose proof (tryBlock_cases r feed s now) as H.
  assert (Hfail : forall s1 error,
             tryBlock dateParse r feed s now = (s1, inl error) -> s' = s1 /\ failed).
  { intros s1 error E. subst failed s' feed' res. unfold fetchFeedArticles. rewrite E.
    cbn [fst snd]. rewrite JsFacts.or_zero_id. unfold threw, rowAfter. cbn.
    split_and!; reflexivity. }
  assert (Hfetched : forall parsedFeed,
             parse r (f_url feed) = inr parsedFeed -> fetched parsedFeed).
  { intros pf Ep. subst fetched. cbv beta. rewrite Ep in H. unfold candidates in H.
    rewrite Ep in H.
    destruct (validArticles dateParse now (default [] (items pf))) as [|d valid] eqn:Ev.
    - subst res. unfold fetchFeedArticles. now rewrite H.
    - destruct (ArticleM.bulkCreateSafeWithDupeCheck s (d :: valid) (f_id feed) now)
        as [[s1 [e | news]] log] eqn:Eb.
      + now apply (Hfail s1 e).
      + subst s' feed' res. unfold fetchFeedArticles. rewrite H.
        cbn [fst snd]. unfold rowAfter. cbn. split_and!; reflexivity. }
  destruct (parseURL r (f_url feed)) as [pe | pf] eqn:Ep.
  - destruct (snd (parseWithFeedParser r (f_url feed))) as [fe | pf] eqn:Ef.
    + apply (Hfail s (Js.newError ("Both parsers failed. Primary: " +:+ Js.message pe
                                   +:+ ", Fallback: " +:+ Js.message fe))).
      unfold tryBlock, parse. now rewrite Ep, Ef.
    + apply Hfetched. unfold parse. now rewrite Ep, Ef.
  - apply Hfetched. unfold parse. now rewrite Ep.
Qed.

Lemma fetchFeedArticles_errorStep (r : Remote) (feed : Feed) (s : St) (now : Z) :
  errorStep dateParse r now feed (fetchFeedArticles dateParse r feed s now).
Proof.
  unfold errorStep, fetchFeedArticles.
  pose proof (tryBlock_cases r feed s now) as H.
  destruct (parse r (f_url feed)) as [e | pf] eqn:Ep.
  - rewrite H. simpl. now rewrite JsFacts.or_zero_id.
  - destruct (candidates dateParse r feed now) as [|d valid] eqn:Ec; rewrite H.
    + simpl. auto.
    + destruct (ArticleM.bulkCreateSafeWithDupeCheck s (d :: valid) (f_id feed) now)
        as [[s' [e | news]] log]; simpl; [now rewrite JsFacts.or_zero_id | auto].
Qed.

(** The loop of [fetchAllFeeds] against the sequence of its calls. *)
Lemma fold_step_calls (r : Remote) (now : Z) (feeds : list Feed) :
  forall st : Run,
    let st' := fold_left (step dateParse r now) feeds st in
    let cs := calls dateParse r now (db st) feeds in
    fetched st' = fetched st + foldr Z.add 0 (map insertedCount cs) /\
    errors st' = errors st + Z.of_nat (length (List.filter threw cs)) /\
    processed st' = processed st ++ map (fun res => fst (fst res)) cs /\
    db st' = lastStore (db st) cs /\
    length cs = length feeds.
Proof.
  induction feeds as [|feed rest IH]; intros st; simpl.
  - unfold lastStore. simpl. split_and!; try lia; trivial. now rewrite app_nil_r.
  - set (res := fetchFeedArticles dateParse r feed (db st) now).
    assert (Hstep : db (step dateParse r now st feed) = snd (fst res) /\
                    fetched (step dateParse r now st feed) = fetched st + insertedCount res /\
                    errors (step dateParse r now st feed)
                    = errors st + (if threw res then 1 else 0) /\
                    processed (step dateParse r now st feed)
                    = processed st ++ [fst (fst res)]).
    { unfold step, threw, insertedCount. fold res.
      destruct res as [[feed' s'] [e | n]]; simpl; split_and!; trivial; lia. }
    destruct Hstep as (Hdb & Hfe & Her & Hpr).
    specialize (IH (step dateParse r now st feed)). simpl in IH.
    rewrite Hdb, Hfe, Her, Hpr in IH.
    destruct IH as (Hf & He & Hp & Hd & Hl).
    rewrite Hf, He, Hp, Hd, Hl. clear Hf He Hp Hd Hl.
    assert (Hlast : forall s1 cs,
               lastStore s1 (res :: cs) = lastStore (snd (fst res)) cs).
    { intros s1 cs. unfold lastStore. destruct cs as [|c cs]; [reflexivity|].
      rewrite last_cons_cons. unfold FetchResult in *.
      destruct (last (c :: cs)) eqn:E; [reflexivity|].
      apply last_None in E. discriminate E. }
    rewrite Hlast.
    split_and!; try reflexivity; try lia.
    + destruct (threw res); simpl; lia.
    + now rewrite <- app_assoc.
Qed.

(** C3 (amended). [fetchAllFeeds] calls [fetchFeedArticles] once for each
    active feed, in order, whatever the earlier calls did: a call that
    throws does not end the loop. The summary has feedsProcessed equal to
    the number of active feeds, totalFetched equal to the sum of the counts
    returned by the calls that returned, and totalErrors equal to the number
    of calls that threw. Each feed row is left as its own call left it: with
    errorCount incremented by one when the call threw, reset to 0 when the
    call returned after handing at least one valid candidate to the model,
    and unchanged when the call returned without any valid candidate. *)
Theorem fetchAllFeeds_summary (r : Remote) (table : list Feed) (s : St) (now : Z) :
  let feeds := List.filter f_isActive table in
  let cs := calls dateParse r now s feeds in
  let out := fetchAllFeeds dateParse r table s now in
  let summary := fst (fst out) in
  length cs = length feeds /\
  feedsProcessed summary = Z.of_nat (length feeds) /\
  totalFetched summary = foldr Z.add 0 (map insertedCount cs) /\
  totalErrors summary = Z.of_nat (length (List.filter threw cs)) /\
  snd (fst out) = map (fun res => fst (fst res)) cs /\
  snd out = lastStore s cs /\
  Forall2 (errorStep dateParse r now) feeds cs.
Proof.
  intros feeds cs out summary. subst summary out. unfold fetchAllFeeds. fold feeds.
  pose proof (fold_step_calls r now feeds
                {| fetched := 0; errors := 0; db := s; processed := [] |}) as H.
  simpl in H. fold cs in H. destruct H as (Hf & He & Hp & Hd & Hl).
  simpl. split_and!; trivial.
  subst cs. clear. generalize s. induction feeds as [|feed rest IH]; intros s0; simpl.
  - constructor.
  - constructor; [apply fetchFeedArticles_errorStep | apply IH].
Qed.

End Store.

End OrchestratorFacts.

(** ** Article.bulkCreateSafeWithDupeCheck *)

Module ArticleFacts.

Import ArticleM.

(** *** The lookup sets *)

Lemma elem_of_set_of (x : string) (xs : list (option string)) :
  x ∈ set_of xs <-> x <> EmptyString /\ Some x ∈ xs.
Proof.
  unfold set_of. rewrite elem_of_list_to_set, list_elem_of_omap. split.
  - intros (v & Hin & Hv). destruct (Js.truthy v) eqn:E; [|discriminate].
    subst v. split; [|exact Hin]. now apply JsFacts.truthyStr_true.
  - intros [Hne Hin]. exists (Some x). split; [exact Hin|].
    simpl. now apply JsFacts.truthyStr_true in Hne as ->.
Qed.

Lemma elem_of_existingLinks (x : string) (rows : list Article) :
  x ∈ existingLinks (lookup_of rows) <->
  x <> EmptyString /\ exists a, a ∈ rows /\ a_link a = x.
Proof.
  simpl. rewrite elem_of_set_of, list_elem_of_fmap.
  split; intros [Hne (a & H1 & H2)]; split; trivial; exists a.
  - split; congruence.
  - split; [congruence | trivial].
Qed.

Lemma elem_of_existingGuids (x : string) (rows : list Article) :
  x ∈ existingGuids (lookup_of rows) <->
  x <> EmptyString /\ exists a, a ∈ rows /\ a_guid a = Some x.
Proof.
  simpl. rewrite elem_of_set_of, list_elem_of_fmap.
  split; intros [Hne (a & H1 & H2)]; split; trivial; exists a; split; congruence.
Qed.

Lemma elem_of_existingTitles (x : string) (rows : list Article) :
  x ∈ existingTitles (lookup_of rows) <->
  x <> EmptyString /\ exists a, a ∈ rows /\ a_title a = x.
Proof.
  simpl. rewrite elem_of_set_of, list_elem_of_fmap.
  split; intros [Hne (a & H1 & H2)]; split; trivial; exists a.
  - split; congruence.
  - split; [congruence | trivial].
Qed.

Lemma elem_of_guarded_add (x y : string) (X : gset string) :
  x ∈ (if Js.truthyStr y then {[ y ]} ∪ X else X) <->
  x ∈ X \/ (x <> EmptyString /\ y = x).
Proof.
  destruct (Js.truthyStr y) eqn:E.
  - apply JsFacts.truthyStr_true in E. rewrite elem_of_union, elem_of_singleton.
    split; [intros [->|H]; auto | intros [H|[_ ->]]; auto].
  - apply JsFacts.truthyStr_false in E. subst y. split; [auto|].
    intros [H|[H1 H2]]; [trivial | congruence].
Qed.

(** *** The cascade of the three tests *)

Lemma test_spec (s : string) (X : gset string) :
  Js.truthyStr s && bool_decide (s ∈ X) = true <-> s <> EmptyString /\ s ∈ X.
Proof. now rewrite andb_true_iff, JsFacts.truthyStr_true, bool_decide_eq_true. Qed.

Lemma duplicateReason_cascade (lk : Lookup) (d : ArticleData) :
  (duplicateReason lk d = Some "duplicate link" <-> linkHit lk d) /\
  (duplicateReason lk d = Some "duplicate guid" <-> ~ linkHit lk d /\ guidHit lk d) /\
  (duplicateReason lk d = Some "duplicate title" <->
     ~ linkHit lk d /\ ~ guidHit lk d /\ titleHit lk d) /\
  (duplicateReason lk d = None <->
     ~ linkHit lk d /\ ~ guidHit lk d /\ ~ titleHit lk d).
Proof.
  unfold duplicateReason, linkHit, guidHit, titleHit.
  pose proof (test_spec (link d) (existingLinks lk)) as Hl.
  pose proof (test_spec (guid d) (existingGuids lk)) as Hg.
  pose proof (test_spec (title d) (existingTitles lk)) as Ht.
  assert (Hb : forall (b : bool) (P : Prop), (b = true <-> P) ->
                 (b = true /\ P) \/ (b = false /\ ~ P)).
  { intros [] P H; [left | right]; split; trivial; [tauto|].
    intros HP. apply H in HP. discriminate. }
  apply Hb in Hl as [[El Hl] | [El Hl]];
  apply Hb in Hg as [[Eg Hg] | [Eg Hg]];
  apply Hb in Ht as [[Et Ht] | [Et Ht]];
  rewrite El, ?Eg, ?Et;
  split_and!;
    (split; [intros H; first [discriminate H | tauto]
            | intros H; first [reflexivity | exfalso; tauto]]).
Qed.

(** *** The loop *)

Section Loop.

Context {St : Type} {M : Sequelize.ArticleModel St}.
Variables feedId now : Z.


Lemma run_cons (st : Loop) (d : ArticleData) (l : list ArticleData) :
  run feedId now st (d :: l) = run feedId now (body feedId now st d) l.
Proof. reflexivity. Qed.

(** What one turn of the loop does to the lookup sets and to the list of
    new articles. *)
Lemma body_lookup (st : Loop) (d : ArticleData) :
  lookup (body feedId now st d)
  = if inserts feedId now st d then remember (lookup st) d else lookup st.
Proof.
  unfold body, inserts. destruct (duplicateReason (lookup st) d); [reflexivity|].
  destruct (Sequelize.create (store st) d feedId now) as [s' [e | a]]; reflexivity.
Qed.





(** The lookup sets after the loop ran over [l]: what they held before,
    and the non-empty values of the candidates that were inserted. *)
Lemma run_lookup (l : list ArticleData) :
  forall (st : Loop) (x : string),
    let ins := insertedCandidates feedId now st l in
    let lk := lookup (run feedId now st l) in
    (x ∈ existingLinks lk <->
       x ∈ existingLinks (lookup st) \/
       (x <> EmptyString /\ exists c, c ∈ ins /\ link c = x)) /\
    (x ∈ existingGuids lk <->
       x ∈ existingGuids (lookup st) \/
       (x <> EmptyString /\ exists c, c ∈ ins /\ guid c = x)) /\
    (x ∈ existingTitles lk <->
       x ∈ existingTitles (lookup st) \/
       (x <> EmptyString /\ exists c, c ∈ ins /\ title c = x)).
Proof.
  induction l as [|d l IH]; intros st x; simpl.
  - split_and!; (split; [auto | intros [H | (_ & c & Hc & _)]; [trivial|]]);
      now apply elem_of_nil in Hc.
  - specialize (IH (body feedId now st d) x). simpl in IH.
    destruct IH as (IHl & IHg & IHt). rewrite IHl, IHg, IHt. clear IHl IHg IHt.
    rewrite body_lookup.
    destruct (inserts feedId now st d); simpl.
    + rewrite !elem_of_guarded_add.
      split_and!; (split;
        [ intros [[H | [H1 H2]] | (H1 & c & Hc & H2)];
          [ now left
          | right; split; [trivial|]; exists d; split; [apply elem_of_cons; now left | trivial]
          | right; split; [trivial|]; exists c; split; [apply elem_of_cons; now right | trivial] ]
        | intros [H | (H1 & c & Hc & H2)];
          [ now left; left
          | apply elem_of_cons in Hc as [-> | Hc];
            [ left; right; now split
            | right; split; [trivial|]; now exists c ] ] ]).
    + tauto.
Qed.

Lemma verdicts_at (post : list ArticleData) (d : ArticleData) (pre : list ArticleData) :
  forall st : Loop,
    verdicts feedId now st (pre ++ d :: post) !! length pre
    = Some (duplicateReason (lookup (run feedId now st pre)) d).
Proof.
  induction pre as [|c pre IH]; intros st; simpl; [reflexivity|]. apply IH.
Qed.

(** C2 (amended). The three lookup sets hold the non-empty links, GUIDs
    and titles of the existing articles of the feed. The candidates are
    classified in order: a candidate is a duplicate by link if its non-empty
    link is known, else a duplicate by GUID if its non-empty GUID is known,
    else a duplicate by title if its non-empty title is known, else it
    passes; where a value is known if an existing article of the feed has
    it or an earlier candidate of the same batch that was inserted has it.
    A candidate that passed the filter and whose insert was rejected leaves
    the sets as they were. *)
Theorem duplicate_filter_layers (s : St) (existing : list Article)
  (pre : list ArticleData) (d : ArticleData) (post : list ArticleData) :
  let st0 := start s existing in
  let ins := insertedCandidates feedId now st0 pre in
  let verdict := duplicateReason (lookup (run feedId now st0 pre)) d in
  let linkKnown :=
    link d <> EmptyString /\
    ((exists a, a ∈ existing /\ a_link a = link d) \/
     (exists c, c ∈ ins /\ link c = link d)) in
  let guidKnown :=
    guid d <> EmptyString /\
    ((exists a, a ∈ existing /\ a_guid a = Some (guid d)) \/
     (exists c, c ∈ ins /\ guid c = guid d)) in
  let titleKnown :=
    title d <> EmptyString /\
    ((exists a, a ∈ existing /\ a_title a = title d) \/
     (exists c, c ∈ ins /\ title c = title d)) in
  verdicts feedId now st0 (pre ++ d :: post) !! length pre = Some verdict /\
  (verdict = Some "duplicate link" <-> linkKnown) /\
  (verdict = Some "duplicate guid" <-> ~ linkKnown /\ guidKnown) /\
  (verdict = Some "duplicate title" <-> ~ linkKnown /\ ~ guidKnown /\ titleKnown) /\
  (verdict = None <-> ~ linkKnown /\ ~ guidKnown /\ ~ titleKnown).
Proof.
  intros st0 ins verdict linkKnown guidKnown titleKnown.
  split; [apply verdicts_at|].
  pose proof (duplicateReason_cascade (lookup (run feedId now st0 pre)) d) as Hc.
  assert (Hl : linkHit (lookup (run feedId now st0 pre)) d <-> linkKnown).
  { unfold linkHit, linkKnown.
    destruct (run_lookup pre st0 (link d)) as (H & _ & _). rewrite H. fold ins.
    unfold st0 at 1. simpl lookup. rewrite elem_of_existingLinks. tauto. }
  assert (Hg : guidHit (lookup (run feedId now st0 pre)) d <-> guidKnown).
  { unfold guidHit, guidKnown.
    destruct (run_lookup pre st0 (guid d)) as (_ & H & _). rewrite H. fold ins.
    unfold st0 at 1. simpl lookup. rewrite elem_of_existingGuids. tauto. }
  assert (Ht : titleHit (lookup (run feedId now st0 pre)) d <-> titleKnown).
  { unfold titleHit, titleKnown.
    destruct (run_lookup pre st0 (title d)) as (_ & _ & H). rewrite H. fold ins.
    unfold st0 at 1. simpl lookup. rewrite elem_of_existingTitles. tauto. }
  fold verdict in Hc. rewrite <- Hl, <- Hg, <- Ht. exact Hc.
Qed.

(** The filter agrees with its wording in the specification on every batch
    in which no insert is rejected. *)
Lemma verdicts_layeredFilter (l : list ArticleData) :
  forall st : Loop,
    (forall pre d post, l = pre ++ d :: post ->
       duplicateReason (lookup (run feedId now st pre)) d = None ->
       inserts feedId now (run feedId now st pre) d = true) ->
    verdicts feedId now st l = layeredFilter (lookup st) l.
Proof.
  induction l as [|d l IH]; intros st H; simpl; [reflexivity|].
  destruct (duplicateReason (lookup st) d) as [reason|] eqn:E.
  - f_equal. rewrite IH.
    + rewrite body_lookup. unfold inserts. now rewrite E.
    + intros pre c post -> Hc. apply (H (d :: pre) c post); trivial.
  - f_equal. rewrite IH.
    + pose proof (H [] d l eq_refl E) as Hi.
      change (run feedId now st []) with st in Hi.
      rewrite body_lookup. now rewrite Hi.
    + intros pre c post -> Hc. apply (H (d :: pre) c post); trivial.
Qed.


End Loop.

End ArticleFacts.

(** ** The duplicate filter on the table of the schema *)

Module DbFacts.

Import ArticleM StoreSpec ArticleFacts.

(** The model is that of the schema, with the URL check in scope. *)
#[local] Hint Extern 0 (Sequelize.ArticleModel Db.t) =>
  match goal with
  | isUrl : string -> bool |- _ => exact (Db.model isUrl)
  end : typeclass_instances.

Section Table.

Variable isUrl : string -> bool.
Variables feedId now : Z.

Lemma create_eq (db : Db.t) (d : ArticleData) :
  Sequelize.create db d feedId now =
  if Db.rejects isUrl db feedId d
  then (db, inl (if Db.validate isUrl d
                 then Db.uniqueConstraintError else Db.validationError))
  else ({| Db.articles := Db.articles db ++ [Db.row_of (Db.next_id db) feedId now d];
           Db.next_id := Db.next_id db + 1 |},
        inr (Db.row_of (Db.next_id db) feedId now d)).
Proof.
  simpl. unfold Db.create, Db.rejects.
  destruct (Db.validate isUrl d); simpl; [|reflexivity].
  destruct (Db.link_taken _ _ || Db.feed_guid_taken _ _ _); reflexivity.
Qed.









(** *** One turn of the loop on the table *)

Lemma inserts_quiet (st : Loop) (d : ArticleData) :
  inserts feedId now st d = false <-> quiet isUrl feedId (store st) (lookup st) d.
Proof.
  unfold inserts, quiet. rewrite create_eq.
  destruct (duplicateReason (lookup st) d) as [reason|].
  - split; eauto.
  - destruct (Db.rejects isUrl (store st) feedId d); split; intros H; auto;
      try discriminate H.
    destruct H as [[x Hx] | H]; discriminate.
Qed.

Lemma body_quiet (st : Loop) (d : ArticleData) :
  quiet isUrl feedId (store st) (lookup st) d ->
  store (body feedId now st d) = store st /\
  lookup (body feedId now st d) = lookup st /\
  newArticles (body feedId now st d) = newArticles st.
Proof.
  intros Hq. apply inserts_quiet in Hq. revert Hq. unfold inserts, body.
  rewrite create_eq.
  destruct (duplicateReason (lookup st) d) as [reason|]; [auto|].
  destruct (Db.rejects isUrl (store st) feedId d); [auto | discriminate].
Qed.

Lemma body_inserts (st : Loop) (d : ArticleData) :
  inserts feedId now st d = true ->
  let row := Db.row_of (Db.next_id (store st)) feedId now d in
  Db.validate isUrl d = true /\
  Db.articles (store (body feedId now st d)) = Db.articles (store st) ++ [row] /\
  lookup (body feedId now st d) = remember (lookup st) d /\
  newArticles (body feedId now st d) = newArticles st ++ [row].
Proof.
  unfold inserts, body. rewrite create_eq.
  destruct (duplicateReason (lookup st) d) as [reason|]; [discriminate|].
  destruct (Db.rejects isUrl (store st) feedId d) eqn:E; [discriminate|].
  intros _. cbv zeta. split_and!; try reflexivity.
  unfold Db.rejects in E. apply orb_false_iff in E as [E _].
  apply orb_false_iff in E as [E _]. now apply negb_false_iff in E.
Qed.










(** *** The lookup sets mirror the rows of the feed *)

Lemma set_of_snoc (xs : list (option string)) (v : string) :
  set_of (xs ++ [Some v]) = if Js.truthyStr v then {[ v ]} ∪ set_of xs else set_of xs.
Proof.
  apply set_eq. intros x. rewrite elem_of_guarded_add, !elem_of_set_of, elem_of_app.
  rewrite list_elem_of_singleton. split.
  - intros [Hne [H | [= ->]]]; auto.
  - intros [[Hne H] | [Hne ->]]; auto.
Qed.

Lemma lookup_of_snoc (rows : list Article) (id : Z) (d : ArticleData) :
  lookup_of (rows ++ [Db.row_of id feedId now d]) = remember (lookup_of rows) d.
Proof.
  unfold lookup_of, remember. rewrite !map_app. simpl.
  now rewrite !set_of_snoc.
Qed.

Lemma feedRows_snoc (db : Db.t) (d : ArticleData) (id next : Z) :
  feedRows {| Db.articles := Db.articles db ++ [Db.row_of id feedId now d];
              Db.next_id := next |} feedId
  = feedRows db feedId ++ [Db.row_of id feedId now d].
Proof.
  unfold feedRows. simpl. rewrite filter_app. f_equal.
  rewrite filter_cons. simpl. now destruct (decide (feedId = feedId)).
Qed.

Lemma body_synced (st : Loop) (d : ArticleData) :
  synced feedId (store st) (lookup st) ->
  synced feedId (store (body feedId now st d)) (lookup (body feedId now st d)).
Proof.
  unfold synced. intros Hs.
  destruct (inserts feedId now st d) eqn:E.
  - revert E. unfold inserts, body. rewrite create_eq.
    destruct (duplicateReason (lookup st) d) as [reason|]; [discriminate|].
    destruct (Db.rejects isUrl (store st) feedId d); [discriminate|]. intros _.
    simpl. now rewrite feedRows_snoc, lookup_of_snoc, <- Hs.
  - apply inserts_quiet, body_quiet in E as (Es & El & _). now rewrite Es, El.
Qed.


(** *** What the loop writes *)

Lemma run_rows (l : list ArticleData) :
  forall st : Loop,
  exists news,
    Db.articles (store (run feedId now st l)) = Db.articles (store st) ++ news /\
    newArticles (run feedId now st l) = newArticles st ++ news /\
    Forall (fun a => exists d, d ∈ l /\ writtenFor feedId a d) news.
Proof.
  induction l as [|d l IH]; intros st.
  - exists []. simpl. rewrite !app_nil_r. auto.
  - rewrite run_cons. destruct (IH (body feedId now st d)) as (news & Ha & Hn & Hf).
    assert (Hf' : Forall (fun a => exists c, c ∈ d :: l /\ writtenFor feedId a c) news).
    { eapply Forall_impl; [exact Hf|]. intros a (c & Hc & Hw). exists c.
      split; [now apply elem_of_cons; right | exact Hw]. }
    destruct (inserts feedId now st d) eqn:E.
    + destruct (body_inserts st d E) as (_ & Ea & _ & En).
      exists (Db.row_of (Db.next_id (store st)) feedId now d :: news).
      rewrite Ha, Hn, Ea, En, <- !app_assoc. split_and!; try reflexivity.
      constructor; [|exact Hf'].
      exists d. split; [apply elem_of_cons; now left | repeat split].
    + apply inserts_quiet, body_quiet in E as (Es & _ & En).
      exists news. rewrite Ha, Hn, Es, En. auto.
Qed.

(** *** Running the same batch again *)

Lemma bulkCreate_run (db : Db.t) (d : ArticleData) (l : list ArticleData) :
  bulkCreateSafeWithDupeCheck db (d :: l) feedId now
  = let st := run feedId now (start db (feedRows db feedId)) (d :: l) in
    (store st, inr (newArticles st), console st).
Proof. reflexivity. Qed.

End Table.


End DbFacts.

(** ** The fetch pipeline on the table of the schema *)

Module PipelineFacts.

Import ArticleFetcher FetchSpec ArticleM StoreSpec.

#[local] Hint Extern 0 (Sequelize.ArticleModel Db.t) =>
  match goal with
  | isUrl : string -> bool |- _ => exact (Db.model isUrl)
  end : typeclass_instances.

Section Pipeline.

Variable isUrl : string -> bool.
Variable dateParse : string -> option Z.







Lemma candidates_valid (r : Remote) (feed : Feed) (now : Z) :
  Forall validCandidate (candidates dateParse r feed now).
Proof.
  unfold candidates. destruct (parse r (f_url feed)); [constructor|].
  apply FetchFacts.validArticles_valid.
Qed.

Lemma writtenFor_valid (feedId : Z) (a : Article) (d : ArticleData) :
  writtenFor feedId a d -> validCandidate d -> validRow a.
Proof.
  intros (_ & _ & Hl & _ & Hr) [Hvl Hvr]. unfold validRow. rewrite Hl. eauto.
Qed.

(** C8. The validity filter keeps exactly the normalised candidates whose
    link and rawContent are neither empty nor made of white space only; so
    the candidates that [fetchFeedArticles] hands to
    [bulkCreateSafeWithDupeCheck] all have such a link and rawContent, and
    so has every article that a call of [fetchFeedArticles] adds to the
    table; the call changes the table in no other way. *)
Theorem fetch_stores_only_valid (r : Remote) (feed : Feed) (db : Db.t) (now : Z) :
  let res := fetchFeedArticles dateParse r feed db now in
  (forall its d, d ∈ validArticles dateParse now its <->
                 d ∈ map (normalize dateParse now) its /\ validCandidate d) /\
  Forall validCandidate (candidates dateParse r feed now) /\
  exists news,
    Db.articles (snd (fst res)) = Db.articles db ++ news /\ Forall validRow news.
Proof.
  intros res. split.
  { intros its d. unfold validArticles.
    rewrite !list_elem_of_In, filter_In, FetchFacts.isValid_spec. tauto. }
  split; [apply candidates_valid|].
  assert (Hnone : exists news, Db.articles db = Db.articles db ++ news /\ Forall validRow news).
  { exists []. now rewrite app_nil_r. }
  subst res. unfold fetchFeedArticles.
  pose proof (OrchestratorFacts.tryBlock_cases dateParse r feed db now) as H.
  pose proof (candidates_valid r feed now) as Hv.
  destruct (parse r (f_url feed)) as [e | pf] eqn:Ep; [now rewrite H|].
  destruct (candidates dateParse r feed now) as [|d valid] eqn:Ec; [now rewrite H|].
  rewrite H, DbFacts.bulkCreate_run. cbv zeta.
  destruct (DbFacts.run_rows isUrl (f_id feed) now (d :: valid)
              (start db (feedRows db (f_id feed)))) as (news & Ha & _ & Hw).
  simpl. exists news. split; [exact Ha|].
  eapply Forall_impl; [exact Hw|]. intros a (c & Hc & Hwc).
  eapply writtenFor_valid; [exact Hwc|].
  rewrite Forall_forall in Hv. now apply Hv.
Qed.

End Pipeline.


End PipelineFacts.

(** ** Examples on the table of the schema *)

Module ArticleExamples.

Import ArticleM.

(** C2 as stated fails: the first candidate passes the filter and its
    insert is refused (its link is taken by an article of another feed), so
    its title does not join the lookup sets; the second candidate, with the
    same title, passes the filter too, where the filter as worded finds it a
    duplicate by title. *)
Lemma rejected_insert_is_not_remembered :
  ~ (forall (St : Type) (M : Sequelize.ArticleModel St) (s : St)
            (existing : list Article) (cs : list ArticleData) (feedId now : Z),
        Sequelize.findAll s feedId = inr existing ->
        verdicts feedId now (start s existing) cs
        = layeredFilter (lookup_of existing) cs).
Proof.
  intros H.
  specialize (H Db.t Samples.model Samples.otherFeedDb [] Samples.sameTitleBatch
                1 1700000000000 eq_refl).
  vm_compute in H. discriminate H.
Qed.

Example same_title_batch :
  let M := Samples.model in
  verdicts 1 1700000000000 (start Samples.otherFeedDb []) Samples.sameTitleBatch
  = [None; None] /\
  layeredFilter (lookup_of []) Samples.sameTitleBatch = [None; Some "duplicate title"] /\
  exists db' a,
    bulkCreateSafeWithDupeCheck Samples.otherFeedDb Samples.sameTitleBatch 1 1700000000000
    = (db', inr [a], [SkippedDbConstraint "Same title"]) /\
    a_link a = "https://example.com/b" /\ a_title a = "Same title".
Proof.
  intros M. split; [reflexivity|]. split; [reflexivity|].
  eexists. eexists. split; [vm_compute; reflexivity|]. split; reflexivity.
Qed.


End ArticleExamples.

Module OrchestratorExamples.

Import ArticleFetcher FetchSpec.

(** C3 as stated fails: when A throws and B returns without a valid
    candidate (here its feed has no item), one error is reported and the
    errorCount of A is incremented, but the errorCount of B stays at 2. *)
Lemma returning_feed_keeps_errorCount :
  ~ (forall (St : Type) (M : Sequelize.ArticleModel St) (dateParse : string -> option Z)
            (r : Remote) (A B : Feed) (s : St) (now : Z)
            (resA resB : Feed * St * (Js.Error + Z)),
        f_isActive A = true -> f_isActive B = true ->
        calls dateParse r now s [A; B] = [resA; resB] ->
        threw resA = true -> threw resB = false ->
        totalErrors (fst (fst (fetchAllFeeds dateParse r [A; B] s now))) = 1 /\
        f_errorCount (fst (fst resA)) = f_errorCount A + 1 /\
        f_errorCount (fst (fst resB)) = 0).
Proof.
  intros H.
  pose (cs := calls (M := Samples.model) Samples.noDates (Samples.remoteAB [])
                1700000000000 Samples.emptyDb [Samples.feedA; Samples.feedB]).
  pose (dflt := (Samples.feedA, Samples.emptyDb, @inr Js.Error Z 0)).
  specialize (H Db.t Samples.model Samples.noDates (Samples.remoteAB [])
                Samples.feedA Samples.feedB Samples.emptyDb 1700000000000
                (hd dflt cs) (hd dflt (tl cs))
                eq_refl eq_refl eq_refl eq_refl eq_refl).
  destruct H as (_ & _ & H). vm_compute in H. discriminate H.
Qed.

Example run_with_empty_feed :
  let out := fetchAllFeeds (M := Samples.model) Samples.noDates (Samples.remoteAB [])
               [Samples.feedA; Samples.feedB] Samples.emptyDb 1700000000000 in
  fst (fst out) = {| totalFetched := 0; totalErrors := 1; feedsProcessed := 2 |} /\
  map f_errorCount (snd (fst out)) = [1; 2].
Proof. split; vm_compute; reflexivity. Qed.

(** The scenario of the specification: A throws, B returns with articles. *)
Example run_with_two_items :
  let out := fetchAllFeeds (M := Samples.model) Samples.noDates
               (Samples.remoteAB [Samples.item "One" "https://example.com/1";
                                  Samples.item "Two" "https://example.com/2"])
               [Samples.feedA; Samples.feedB] Samples.emptyDb 1700000000000 in
  fst (fst out) = {| totalFetched := 2; totalErrors := 1; feedsProcessed := 2 |} /\
  map f_errorCount (snd (fst out)) = [1; 0] /\
  map a_feedId (Db.articles (snd out)) = [2; 2].
Proof. repeat split; vm_compute; reflexivity. Qed.

End OrchestratorExamples.

(** ** Article.cleanOldArticles *)

Module RetentionFacts.

Import Retention.

Lemma filter_all {A : Type} (P : A -> Prop) `{forall x, Decision (P x)} (l : list A) :
  (forall x, x ∈ l -> P x) -> filter P l = l.
Proof.
  induction l as [|x l IH]; intros Hall; [reflexivity|].
  rewrite filter_cons_True by (apply Hall, elem_of_cons; now left).
  f_equal. apply IH. intros y Hy. apply Hall, elem_of_cons. now right.
Qed.

Lemma filter_none {A : Type} (P : A -> Prop) `{forall x, Decision (P x)} (l : list A) :
  (forall x, x ∈ l -> ~ P x) -> filter P l = [].
Proof.
  induction l as [|x l IH]; intros Hnone; [reflexivity|].
  rewrite filter_cons_False by (apply Hnone, elem_of_cons; now left).
  apply IH. intros y Hy. apply Hnone, elem_of_cons. now right.
Qed.

Lemma filter_count {A : Type} (P : A -> Prop) `{forall x, Decision (P x)} (l : list A) :
  (length (filter P l) + length (filter (fun x => ~ P x) l) = length l)%nat.
Proof.
  rewrite <- length_app. apply Permutation_length, filter_app_complement.
Qed.

(** Two rows of a table with unique ids that have the same id are the same
    row. *)
Lemma id_inj (rows : list Article) (a b : Article) :
  NoDup (map a_id rows) -> a ∈ rows -> b ∈ rows -> a_id a = a_id b -> a = b.
Proof.
  induction rows as [|x l IH]; intros Hn Ha Hb Hid.
  - now apply elem_of_nil in Ha.
  - simpl in Hn. apply NoDup_cons in Hn as [Hx Hl].
    apply elem_of_cons in Ha as [-> | Ha]; apply elem_of_cons in Hb as [-> | Hb];
      trivial.
    + exfalso. apply Hx. rewrite Hid. now apply list_elem_of_fmap_2.
    + exfalso. apply Hx. rewrite <- Hid. now apply list_elem_of_fmap_2.
    + now apply IH.
Qed.

(** A Date is valid exactly within the range of time values. *)
Lemma timeClip_Some (t c : Z) :
  timeClip t = Some c <-> c = t /\ - maxTime <= t <= maxTime.
Proof.
  unfold timeClip. destruct (Z.leb_spec (Z.abs t) maxTime) as [H | H].
  - split; [intros [= <-]; split; [reflexivity | lia] | intros [-> _]; reflexivity].
  - split; [discriminate | intros [_ Hr]; lia].
Qed.

Section Clean.

Variables localTime utcOf : Z -> Z.
Variable beforeInvalidDate : Article -> bool.
Variable scan : list Article -> list Article.
Hypothesis scan_numbers : numbersEveryRow scan.

(** What [cleanOldArticles] leaves and returns, whether or not it found an
    id to delete. *)
Lemma cleanOldArticles_eq (now daysToKeep c : Z) (db : Db.t) :
  let ids := allArticleIds beforeInvalidDate scan (cutoffDate localTime utcOf now daysToKeep)
               c (Db.articles db) in
  let out := cleanOldArticles localTime utcOf beforeInvalidDate scan now daysToKeep c db in
  Db.articles (fst out) = filter (fun a => a_id a ∉ ids) (Db.articles db) /\
  snd out = Z.of_nat (length (filter (fun a => a_id a ∈ ids) (Db.articles db))) /\
  Db.next_id (fst out) = Db.next_id db.
Proof.
  intros ids out. subst out. unfold cleanOldArticles. fold ids.
  destruct ids as [|i ids'] eqn:E; [|simpl; auto].
  simpl. split_and!; trivial.
  - symmetry. apply filter_all. intros x _. apply not_elem_of_nil.
  - rewrite filter_none; [reflexivity|]. intros x _. apply not_elem_of_nil.
Qed.

Lemma elem_of_scan (rows : list Article) (a : Article) : a ∈ scan rows <-> a ∈ rows.
Proof. now rewrite (scan_numbers rows). Qed.

Lemma scan_NoDup (rows : list Article) : NoDup (map a_id rows) -> NoDup (scan rows).
Proof.
  intros Hn. rewrite (scan_numbers rows). exact (NoDup_fmap_1 a_id rows Hn).
Qed.

(** A row of the table is numbered within the first [n] or beyond them,
    and not both. *)
Lemma take_or_drop (rows : list Article) (n : nat) (a : Article) :
  NoDup (map a_id rows) -> a ∈ rows ->
  (a ∈ take n (scan rows) <-> a ∉ drop n (scan rows)).
Proof.
  intros Hn Ha. pose proof (scan_NoDup rows Hn) as Hs.
  rewrite <- (take_drop n (scan rows)) in Hs. apply NoDup_app in Hs as (_ & Hdis & _).
  split; [apply Hdis|]. intros Hnd.
  apply elem_of_scan in Ha. rewrite <- (take_drop n (scan rows)) in Ha.
  apply elem_of_app in Ha as [Ha | Ha]; [exact Ha | contradiction].
Qed.

(** The ids collected for deletion are those of the old rows and of the
    rows numbered beyond the cap, and of no other row. *)
Lemma elem_of_allArticleIds (rows : list Article) (cutoff : option Z) (c : Z) (a : Article) :
  NoDup (map a_id rows) -> a ∈ rows ->
  (a_id a ∈ allArticleIds beforeInvalidDate scan cutoff c rows <->
   olderThan beforeInvalidDate cutoff a \/ a ∈ excessArticles scan c rows).
Proof.
  intros Hn Ha. unfold allArticleIds, oldArticles, excessArticles.
  rewrite elem_of_app, !list_elem_of_fmap. split.
  - intros [(b & Hid & Hb) | (b & Hid & Hb)].
    + apply list_elem_of_filter in Hb as [Hold Hb].
      rewrite (id_inj rows a b Hn Ha Hb Hid). now left.
    + assert (Hbr : b ∈ rows).
      { apply elem_of_scan. rewrite <- (take_drop (Z.to_nat c) (scan rows)).
        apply elem_of_app. now right. }
      rewrite (id_inj rows a b Hn Ha Hbr Hid). now right.
  - intros [Hold | He]; [left | right]; exists a; split; trivial.
    now apply list_elem_of_filter.
Qed.

(** The rows left: those that are not old and that the store numbered
    within the cap. *)
Lemma kept_spec (now daysToKeep c : Z) (db : Db.t) (a : Article) :
  NoDup (map a_id (Db.articles db)) ->
  a ∈ Db.articles (fst (cleanOldArticles localTime utcOf beforeInvalidDate scan
                           now daysToKeep c db)) <->
  a ∈ Db.articles db /\
  ~ olderThan beforeInvalidDate (cutoffDate localTime utcOf now daysToKeep) a /\
  a ∈ take (Z.to_nat c) (scan (Db.articles db)).
Proof.
  intros Hn. destruct (cleanOldArticles_eq now daysToKeep c db) as (Hk & _ & _).
  rewrite Hk, list_elem_of_filter. split.
  - intros [Hni Ha]. split; [exact Ha|].
    rewrite (elem_of_allArticleIds _ _ c a Hn Ha) in Hni.
    rewrite (take_or_drop _ (Z.to_nat c) a Hn Ha). unfold excessArticles in Hni. tauto.
  - intros (Ha & Hold & Ht). split; [|exact Ha].
    rewrite (elem_of_allArticleIds _ _ c a Hn Ha).
    apply (take_or_drop _ (Z.to_nat c) a Hn Ha) in Ht. unfold excessArticles. tauto.
Qed.

Lemma kept_NoDup (now daysToKeep c : Z) (db : Db.t) :
  NoDup (map a_id (Db.articles db)) ->
  NoDup (map a_id (Db.articles (fst (cleanOldArticles localTime utcOf beforeInvalidDate scan
                                       now daysToKeep c db)))).
Proof.
  intros Hn. destruct (cleanOldArticles_eq now daysToKeep c db) as (Hk & _ & _).
  rewrite Hk. eapply sublist_NoDup; [exact Hn|]. apply fmap_sublist, sublist_filter.
Qed.

(** The whole table is left with at most [c] rows. *)
Lemma kept_length (now daysToKeep c : Z) (db : Db.t) :
  NoDup (map a_id (Db.articles db)) ->
  (length (Db.articles (fst (cleanOldArticles localTime utcOf beforeInvalidDate scan
                               now daysToKeep c db))) <= Z.to_nat c)%nat.
Proof.
  intros Hn.
  transitivity (length (take (Z.to_nat c) (scan (Db.articles db))));
    [|rewrite length_take; lia].
  apply submseteq_length, NoDup_submseteq.
  - exact (NoDup_fmap_1 a_id _ (kept_NoDup now daysToKeep c db Hn)).
  - intros a Ha. now apply kept_spec in Ha as (_ & _ & Ht).
Qed.

Lemma kept_count (now daysToKeep c : Z) (db : Db.t) :
  let out := cleanOldArticles localTime utcOf beforeInvalidDate scan now daysToKeep c db in
  snd out = Z.of_nat (length (Db.articles db) - length (Db.articles (fst out))).
Proof.
  intros out. subst out.
  destruct (cleanOldArticles_eq now daysToKeep c db) as (Hk & Hn & _).
  rewrite Hn, Hk.
  pose proof (filter_count
                (fun a => a_id a ∈ allArticleIds beforeInvalidDate scan
                                     (cutoffDate localTime utcOf now daysToKeep) c
                                     (Db.articles db))
                (Db.articles db)) as Hc.
  simpl in Hc. f_equal. lia.
Qed.

(** Where no row is old, the rows left are those numbered within the
    cap. *)
Lemma kept_recent (now daysToKeep c : Z) (db : Db.t) :
  NoDup (map a_id (Db.articles db)) ->
  (forall a, a ∈ Db.articles db ->
             ~ olderThan beforeInvalidDate (cutoffDate localTime utcOf now daysToKeep) a) ->
  length (Db.articles (fst (cleanOldArticles localTime utcOf beforeInvalidDate scan
                              now daysToKeep c db)))
  = Nat.min (Z.to_nat c) (length (Db.articles db)).
Proof.
  intros Hn Hrecent.
  rewrite <- (Permutation_length (scan_numbers (Db.articles db))), <- length_take.
  apply Permutation_length, NoDup_Permutation.
  - exact (NoDup_fmap_1 a_id _ (kept_NoDup now daysToKeep c db Hn)).
  - pose proof (scan_NoDup _ Hn) as Hs.
    rewrite <- (take_drop (Z.to_nat c) (scan (Db.articles db))) in Hs.
    now apply NoDup_app in Hs as (Hs & _).
  - intros a. rewrite (kept_spec now daysToKeep c db a Hn). split.
    + now intros (_ & _ & Ht).
    + intros Ht. assert (Ha : a ∈ Db.articles db).
      { apply elem_of_scan. rewrite <- (take_drop (Z.to_nat c) (scan (Db.articles db))).
        apply elem_of_app. now left. }
      split_and!; auto.
Qed.

(** C5. What [cleanOldArticles] does on the configured store, for a table
    with unique ids and a cutoff that is a valid Date. The cutoff is the
    local time of the call moved back by [daysToKeep] days of 86400000 ms,
    in UTC. An article is left exactly when it is not older than the cutoff
    and the store numbered it within the first [articlesPerFeedToKeep] rows
    of the whole table: every article older than the cutoff goes, each row
    that goes is counted once in the number returned, and the table is left
    with at most [articlesPerFeedToKeep] articles over all feeds together.
    So on a table where no article is older than the cutoff and no feed
    holds more than [articlesPerFeedToKeep] articles, the call still deletes
    all but [articlesPerFeedToKeep] articles. *)
Theorem cleanOldArticles_caps_the_table (now daysToKeep articlesPerFeedToKeep : Z)
  (db : Db.t) (cutoff : Z) :
  NoDup (map a_id (Db.articles db)) ->
  cutoffDate localTime utcOf now daysToKeep = Some cutoff ->
  let rows := Db.articles db in
  let cap := Z.to_nat articlesPerFeedToKeep in
  let out := cleanOldArticles localTime utcOf beforeInvalidDate scan
               now daysToKeep articlesPerFeedToKeep db in
  let kept := Db.articles (fst out) in
  cutoff = utcOf (localTime now - daysToKeep * 86400000) /\
  sublist kept rows /\
  (forall a, a ∈ kept <->
     a ∈ rows /\ cutoff <= a_pubDate a /\ a ∈ take cap (scan rows)) /\
  (forall a, a ∈ rows -> a_pubDate a < cutoff -> a ∉ kept) /\
  snd out = Z.of_nat (length rows - length kept) /\
  (length kept <= cap)%nat /\
  (nothingToPrune cutoff cap rows -> length kept = Nat.min cap (length rows)).
Proof.
  intros Hn Hc rows cap out kept.
  assert (Hmem : forall a, a ∈ kept <->
            a ∈ rows /\ cutoff <= a_pubDate a /\ a ∈ take cap (scan rows)).
  { intros a. subst kept out. rewrite (kept_spec now daysToKeep _ db a Hn), Hc.
    simpl. subst rows cap. split; intros (Ha & Hp & Ht); split_and!; trivial; lia. }
  split_and!.
  - unfold cutoffDate in Hc. apply timeClip_Some in Hc as [-> _]. reflexivity.
  - subst kept out. destruct (cleanOldArticles_eq now daysToKeep articlesPerFeedToKeep db)
      as (Hk & _ & _). rewrite Hk. apply sublist_filter.
  - exact Hmem.
  - intros a Ha Hold Hin. apply Hmem in Hin as (_ & Hp & _). lia.
  - apply kept_count.
  - now apply kept_length.
  - intros [Hrecent _]. subst kept out cap rows. apply kept_recent; [exact Hn|].
    intros a Ha. rewrite Hc. simpl. specialize (Hrecent a Ha). lia.
Qed.

End Clean.

Lemma hundredAndOne_ids : NoDup (map a_id (Db.articles Samples.hundredAndOne)).
Proof. apply (bool_decide_unpack _). vm_compute. exact I. Qed.

Lemma hundredAndOne_nothingToPrune :
  nothingToPrune (70 * Samples.day) 100 (Db.articles Samples.hundredAndOne).
Proof.
  split.
  - apply Forall_forall. apply (bool_decide_unpack _). vm_compute. exact I.
  - intros feedId. destruct (decide (feedId = 1)) as [-> | H1].
    { apply (bool_decide_unpack _). vm_compute. exact I. }
    destruct (decide (feedId = 2)) as [-> | H2].
    { apply (bool_decide_unpack _). vm_compute. exact I. }
    unfold partition. rewrite filter_none; [simpl; lia|].
    assert (Hfeeds : Forall (fun a => a_feedId a = 1 \/ a_feedId a = 2)
                       (Db.articles Samples.hundredAndOne)).
    { apply (bool_decide_unpack _). vm_compute. exact I. }
    rewrite Forall_forall in Hfeeds. intros a Ha Hf. destruct (Hfeeds a Ha); congruence.
Qed.

(** At day 100, with 30 days and the default cap of 100, on the table of
    101 recent articles, a hundred of feed 1 and one of feed 2, numbered as
    they are stored: nothing is to be pruned, and one article is deleted. *)
Lemma cleanOldArticles_caps_the_table_witness :
  let rows := Db.articles Samples.hundredAndOne in
  let out := cleanOldArticles Samples.utcZone Samples.utcZone Samples.noneBefore
               Samples.inOrder (100 * Samples.day) 30 100 Samples.hundredAndOne in
  let kept := Db.articles (fst out) in
  cutoffDate Samples.utcZone Samples.utcZone (100 * Samples.day) 30 = Some (70 * Samples.day) /\
  nothingToPrune (70 * Samples.day) 100 rows /\
  length rows = 101%nat /\ length kept = 100%nat /\ snd out = 1 /\
  sublist kept rows.
Proof.
  cbv zeta.
  destruct (cleanOldArticles_caps_the_table Samples.utcZone Samples.utcZone
              Samples.noneBefore Samples.inOrder (fun rows => Permutation_refl rows)
              (100 * Samples.day) 30 100 Samples.hundredAndOne (70 * Samples.day)
              hundredAndOne_ids eq_refl)
    as (_ & Hsub & _ & _ & Hcount & _ & Hmiss).
  pose proof (Hmiss hundredAndOne_nothingToPrune) as Hlen.
  split; [reflexivity|]. split; [exact hundredAndOne_nothingToPrune|].
  split; [reflexivity|]. split; [exact Hlen|]. split; [|exact Hsub].
  rewrite Hcount, Hlen. reflexivity.
Defined.

(** On that table nothing is to be pruned, and yet, in whatever order the
    store numbers the rows, one article is deleted. *)
Example per_feed_cap_is_missed (scan : list Article -> list Article) :
  numbersEveryRow scan ->
  let out := cleanOldArticles Samples.utcZone Samples.utcZone Samples.noneBefore scan
               (100 * Samples.day) 30 100 Samples.hundredAndOne in
  nothingToPrune (70 * Samples.day) 100 (Db.articles Samples.hundredAndOne) /\
  length (Db.articles (fst out)) = 100%nat /\ snd out = 1.
Proof.
  intros Hscan out. split; [exact hundredAndOne_nothingToPrune|].
  assert (Hlen : length (Db.articles (fst out)) = 100%nat).
  { subst out. rewrite (kept_recent _ _ _ scan Hscan _ _ _ _ hundredAndOne_ids);
      [reflexivity|].
    intros a Ha. destruct hundredAndOne_nothingToPrune as [Hrecent _].
    specialize (Hrecent a Ha). change (~ a_pubDate a < 70 * Samples.day). lia. }
  split; [exact Hlen|].
  subst out. rewrite kept_count, Hlen. reflexivity.
Qed.

(** With the rows numbered as they are stored, the article that goes is the
    only one of feed 2. *)
Example prune_hundred_and_one :
  let out := cleanOldArticles Samples.utcZone Samples.utcZone Samples.noneBefore
               Samples.inOrder (100 * Samples.day) 30 100 Samples.hundredAndOne in
  map a_feedId (filter (fun a => a_id a ∉ map a_id (Db.articles (fst out)))
                  (Db.articles Samples.hundredAndOne)) = [2] /\
  snd out = 1.
Proof. split; vm_compute; reflexivity. Qed.

(** The same with a cap of 2 on three recent articles, two of feed 1 and
    one of feed 2. *)
Example prune_three_recent :
  let out := cleanOldArticles Samples.utcZone Samples.utcZone Samples.noneBefore
               Samples.inOrder (100 * Samples.day) 30 2 Samples.threeRecent in
  map a_id (Db.articles (fst out)) = [1; 2] /\ snd out = 1.
Proof. split; vm_compute; reflexivity. Qed.

(** A number of days that moves the cutoff out of the range of a Date makes
    it an Invalid Date, and the comparison is then the store's: one that
    finds every date before an Invalid Date deletes every row. *)
Example invalid_cutoff_date :
  cutoffDate Samples.utcZone Samples.utcZone (100 * Samples.day) 200000000 = None /\
  cleanOldArticles Samples.utcZone Samples.utcZone (fun _ => true) Samples.inOrder
    (100 * Samples.day) 200000000 100 Samples.threeRecent
  = ({| Db.articles := []; Db.next_id := 4 |}, 3).
Proof. split; vm_compute; reflexivity. Qed.

(** Article 1 of the five rows is older than the cutoff and goes for that;
    of the others, two stay. *)
Example prune_five_rows :
  let out := cleanOldArticles Samples.utcZone Samples.utcZone Samples.noneBefore
               Samples.inOrder (100 * Samples.day) 30 2 Samples.fiveRows in
  map a_id (Db.articles (fst out)) = [2] /\ snd out = 4.
Proof. split; vm_compute; reflexivity. Qed.

End RetentionFacts.

(** ** Article.getContentPreview *)

Module PreviewFacts.

Import ArticleInstance.

Lemma length_append (a b : string) :
  String.length (a +:+ b) = (String.length a + String.length b)%nat.
Proof.
  induction a as [|x a IH]; [now rewrite JsFacts.append_nil_l|].
  rewrite JsFacts.append_cons. simpl. now rewrite IH.
Qed.

Lemma length_trimStart (s : string) :
  (String.length (Js.trimStart s) <= String.length s)%nat.
Proof.
  induction s as [|c s IH]; simpl; [lia|].
  destruct (Js.isWhiteSpace c); simpl; lia.
Qed.

Lemma length_trimEnd (s : string) :
  (String.length (Js.trimEnd s) <= String.length s)%nat.
Proof.
  induction s as [|c s IH]; simpl; [lia|].
  destruct (Js.trimEnd s) as [|x r]; [destruct (Js.isWhiteSpace c)|]; simpl in *; lia.
Qed.

Lemma length_trim (s : string) : (String.length (Js.trim s) <= String.length s)%nat.
Proof.
  unfold Js.trim. etransitivity; [apply length_trimEnd | apply length_trimStart].
Qed.

Lemma length_substring0 (n : nat) (s : string) :
  (String.length (substring0 n s) <= n)%nat.
Proof.
  revert s. induction n as [|n IH]; intros [|c s]; simpl; try lia.
  specialize (IH s). lia.
Qed.

(** X1. Whatever the content and the bound, the preview is at most
    [maxLength] characters long (none for a negative bound), plus the three
    of the ellipsis. *)
Theorem getContentPreview_length (rawContent : option string) (maxLength : Z) :
  (String.length (getContentPreview rawContent maxLength) <= Z.to_nat maxLength + 3)%nat.
Proof.
  unfold getContentPreview.
  destruct (Js.truthy rawContent); simpl; [|lia].
  set (clean := Js.trim (stripTags (default EmptyString rawContent))).
  destruct (Z.leb_spec (Z.of_nat (String.length clean)) maxLength) as [Hle | Hgt].
  - lia.
  - rewrite length_append. simpl.
    pose proof (length_trim (substring0 (Z.to_nat maxLength) clean)).
    pose proof (length_substring0 (Z.to_nat maxLength) clean). lia.
Qed.

(** *** Tags *)

Lemma occurs_spec (c : ascii) (s : string) : occurs c s = true <-> c ∈ chars s.
Proof.
  unfold chars. induction s as [|x s IH]; simpl.
  - split; [discriminate | intros H; now apply elem_of_nil in H].
  - rewrite orb_true_iff, bool_decide_eq_true, elem_of_cons, IH. intuition congruence.
Qed.

Lemma occurs_append (c : ascii) (a b : string) :
  occurs c (a +:+ b) = occurs c a || occurs c b.
Proof.
  induction a as [|x a IH]; [now rewrite JsFacts.append_nil_l|].
  rewrite JsFacts.append_cons. simpl. now rewrite IH, orb_assoc.
Qed.

Lemma hasTag_empty : ~ hasTag EmptyString.
Proof. intros (a & b & c & H). unfold chars in H. simpl in H. now destruct a. Qed.

(** A tag starts at the head of the string or later. *)
Lemma hasTag_cons (x : ascii) (s : string) :
  hasTag (String x s) <-> (x = "<"%char /\ occurs ">"%char s = true) \/ hasTag s.
Proof.
  unfold hasTag. split.
  - intros (a & b & c & H). unfold chars in H. simpl in H.
    destruct a as [|y a]; simpl in H; injection H as Hx Hs.
    + left. split; [exact Hx|]. apply occurs_spec. unfold chars. rewrite Hs.
      apply elem_of_app. right. apply elem_of_cons. now left.
    + right. now exists a, b, c.
  - intros [[-> Ho] | (a & b & c & H)].
    + apply occurs_spec, list_elem_of_split in Ho as (b & c & Hs).
      exists [], b, c. unfold chars in *. simpl. now rewrite Hs.
    + exists (x :: a), b, c. unfold chars in *. simpl. now rewrite H.
Qed.

Lemma occurs_strip (c : ascii) (s : string) :
  forall inTag, occurs c (strip inTag s) = true -> occurs c s = true.
Proof.
  induction s as [|x s IH]; intros inTag; simpl; [now destruct inTag|].
  destruct inTag.
  - destruct (bool_decide (x = ">"%char)); intros H%IH; rewrite H; apply orb_true_r.
  - destruct (bool_decide (x = "<"%char) && occurs ">"%char s).
    + intros H%IH. rewrite H. apply orb_true_r.
    + simpl. rewrite !orb_true_iff. intros [H | H%IH]; auto.
Qed.

Lemma strip_no_tag (s : string) : forall inTag, ~ hasTag (strip inTag s).
Proof.
  induction s as [|x s IH]; intros inTag; simpl.
  - destruct inTag; apply hasTag_empty.
  - destruct inTag.
    + destruct (bool_decide (x = ">"%char)); apply IH.
    + destruct (bool_decide (x = "<"%char)) eqn:Ex; simpl.
      * destruct (occurs ">"%char s) eqn:Eo; [apply IH|].
        rewrite hasTag_cons. intros [[_ Ho] | H]; [|now apply (IH false)].
        apply occurs_strip in Ho. congruence.
      * rewrite hasTag_cons. intros [[Hx _] | H]; [|now apply (IH false)].
        apply bool_decide_eq_false in Ex. contradiction.
Qed.

Lemma occurs_trimStart (c : ascii) (s : string) :
  occurs c (Js.trimStart s) = true -> occurs c s = true.
Proof.
  induction s as [|x s IH]; simpl; [trivial|].
  destruct (Js.isWhiteSpace x); [|trivial].
  intros H%IH. rewrite H. apply orb_true_r.
Qed.

Lemma occurs_trimEnd (c : ascii) (s : string) :
  occurs c (Js.trimEnd s) = true -> occurs c s = true.
Proof.
  induction s as [|x s IH]; simpl; [trivial|].
  destruct (Js.trimEnd s) as [|y r].
  - destruct (Js.isWhiteSpace x); simpl; [discriminate|].
    rewrite orb_false_r. intros ->. reflexivity.
  - change (occurs c (String x (String y r))) with (bool_decide (x = c) || occurs c (String y r)).
    rewrite !orb_true_iff. intros [H | H%IH]; auto.
Qed.

Lemma occurs_substring0 (c : ascii) (n : nat) (s : string) :
  occurs c (substring0 n s) = true -> occurs c s = true.
Proof.
  revert s. induction n as [|n IH]; intros [|x s]; simpl; try discriminate.
  rewrite !orb_true_iff. intros [H | H%IH]; auto.
Qed.

Lemma hasTag_trimStart (s : string) : hasTag (Js.trimStart s) -> hasTag s.
Proof.
  induction s as [|x s IH]; simpl; [trivial|].
  destruct (Js.isWhiteSpace x); [|trivial].
  intros H%IH. apply hasTag_cons. now right.
Qed.

Lemma hasTag_trimEnd (s : string) : hasTag (Js.trimEnd s) -> hasTag s.
Proof.
  induction s as [|x s IH]; simpl; [trivial|].
  pose proof (occurs_trimEnd ">"%char s) as Ho.
  destruct (Js.trimEnd s) as [|y r].
  - destruct (Js.isWhiteSpace x); intros H; [now apply hasTag_empty in H|].
    apply hasTag_cons in H as [[_ H] | H]; [discriminate | now apply hasTag_empty in H].
  - intros H. apply hasTag_cons in H as [[Hx H] | H]; apply hasTag_cons; auto.
Qed.

Lemma hasTag_trim (s : string) : hasTag (Js.trim s) -> hasTag s.
Proof. unfold Js.trim. intros H. now apply hasTag_trimStart, hasTag_trimEnd. Qed.

Lemma hasTag_substring0 (n : nat) (s : string) : hasTag (substring0 n s) -> hasTag s.
Proof.
  revert s. induction n as [|n IH]; intros [|x s]; simpl; trivial.
  - intros H. now apply hasTag_empty in H.
  - intros H. apply hasTag_cons in H as [[Hx H] | H]; apply hasTag_cons; auto.
    left. split; [exact Hx|]. now apply occurs_substring0 in H.
Qed.

Lemma hasTag_ellipsis (s : string) : hasTag (s +:+ "...") -> hasTag s.
Proof.
  induction s as [|x s IH].
  - rewrite JsFacts.append_nil_l. intros H.
    repeat (apply hasTag_cons in H as [[Hx _] | H]; [discriminate Hx|]).
    now apply hasTag_empty in H.
  - rewrite JsFacts.append_cons. intros H.
    apply hasTag_cons in H as [[Hx H] | H]; apply hasTag_cons; auto.
    left. split; [exact Hx|]. rewrite occurs_append in H.
    apply orb_true_iff in H as [H | H]; [exact H | discriminate H].
Qed.

(** X2. No preview holds a tag: in the text returned no [<] is
    followed, anywhere later, by a [>]. *)
Theorem getContentPreview_no_tag (rawContent : option string) (maxLength : Z) :
  ~ hasTag (getContentPreview rawContent maxLength).
Proof.
  unfold getContentPreview.
  destruct (Js.truthy rawContent); simpl; [|apply hasTag_empty].
  destruct (_ <=? _).
  - intros H%hasTag_trim. now apply strip_no_tag in H.
  - intros H%hasTag_ellipsis%hasTag_trim%hasTag_substring0%hasTag_trim.
    now apply strip_no_tag in H.
Qed.

Lemma strip_plain (s : string) : ~ hasTag s -> stripTags s = s.
Proof.
  unfold stripTags. induction s as [|x s IH]; intros Hn; [reflexivity|]. simpl.
  rewrite hasTag_cons in Hn.
  destruct (bool_decide (x = "<"%char)) eqn:Ex; simpl.
  - apply bool_decide_eq_true in Ex.
    destruct (occurs ">"%char s) eqn:Eo; [exfalso; apply Hn; auto|].
    rewrite IH; [reflexivity | tauto].
  - rewrite IH; [reflexivity | tauto].
Qed.

(** X3. The tag stripping of [getContentPreview] leaves a text as it is
    exactly when the text holds no tag, that is no [<] with a [>] anywhere
    after it; so stripping twice is stripping once. *)
Theorem stripTags_fixed_points (s : string) :
  (stripTags s = s <-> ~ hasTag s) /\ stripTags (stripTags s) = stripTags s.
Proof.
  split; [split|].
  - intros <-. apply strip_no_tag.
  - apply strip_plain.
  - apply strip_plain, strip_no_tag.
Qed.

(** X4. The preview of a non-empty content without tag whose trimmed
    text is at most [maxLength] long is that trimmed text, with no
    ellipsis: a lone [<] or [>] in a text is kept. *)
Theorem getContentPreview_plain (s : string) (maxLength : Z) :
  s <> EmptyString -> ~ hasTag s -> Z.of_nat (String.length (Js.trim s)) <= maxLength ->
  getContentPreview (Some s) maxLength = Js.trim s.
Proof.
  intros Hs Hn Hl. unfold getContentPreview.
  apply JsFacts.truthyStr_true in Hs. simpl. rewrite Hs. simpl.
  rewrite (strip_plain s Hn).
  destruct (Z.leb_spec (Z.of_nat (String.length (Js.trim s))) maxLength); [reflexivity | lia].
Qed.

Lemma getContentPreview_plain_witness :
  getContentPreview (Some " 1 < 2 and so on ") defaultMaxLength = "1 < 2 and so on".
Proof.
  apply (getContentPreview_plain " 1 < 2 and so on " defaultMaxLength).
  - discriminate.
  - exact (strip_no_tag " 1 < 2 and so on " false).
  - vm_compute. discriminate.
Defined.

Example preview_strips_markup :
  getContentPreview (Some "<p>Hello <b>world</b></p> ") defaultMaxLength = "Hello world".
Proof. reflexivity. Qed.

Example preview_truncates :
  getContentPreview (Some "<i>one two</i> three") 8 = "one two...".
Proof. reflexivity. Qed.

Example preview_nested_brackets : stripTags "a<<b>>c" = "a>c".
Proof. reflexivity. Qed.

Example preview_without_content :
  getContentPreview None defaultMaxLength = EmptyString /\
  getContentPreview (Some EmptyString) defaultMaxLength = EmptyString.
Proof. split; reflexivity. Qed.

End PreviewFacts.

(** ** The normalisation map and the errors of a fetch *)

Module NormalizeFacts.

Import ArticleFetcher FetchSpec.

Lemma or_str_empty (a : option string) (b : string) :
  Js.or_str a b = EmptyString <-> Js.truthy a = false /\ b = EmptyString.
Proof.
  destruct a as [v|]; simpl; [|tauto].
  destruct (Js.truthyStr v) eqn:E.
  - apply JsFacts.truthyStr_true in E. split; [contradiction | intros [? _]; discriminate].
  - tauto.
Qed.

(** X5. Every candidate built by the normalisation map has a title that
    is not empty; its link is empty exactly when its guid is, which is
    exactly when the item has neither a link nor a guid; an item without
    pubDate gets the time of the fetch; and a candidate that passes the
    validity filter has a link and a guid that are not empty. *)
Theorem normalize_keys (dateParse : string -> option Z) (now : Z) (item : Item) :
  let n := normalize dateParse now item in
  title n <> EmptyString /\
  (link n = EmptyString <-> guid n = EmptyString) /\
  (link n = EmptyString <-> Js.truthy (i_link item) = false /\ Js.truthy (i_guid item) = false) /\
  (i_pubDate item = None -> pubDate n = Some now) /\
  (isValid n = true -> link n <> EmptyString /\ guid n <> EmptyString).
Proof.
  intros n.
  assert (Hl : link n = EmptyString <->
               Js.truthy (i_link item) = false /\ Js.truthy (i_guid item) = false).
  { subst n. simpl. rewrite !or_str_empty. tauto. }
  assert (Hg : guid n = EmptyString <->
               Js.truthy (i_link item) = false /\ Js.truthy (i_guid item) = false).
  { subst n. simpl. rewrite !or_str_empty. tauto. }
  split_and!.
  - subst n. simpl. rewrite or_str_empty. intros [_ H]. discriminate H.
  - tauto.
  - exact Hl.
  - subst n. simpl. now intros ->.
  - intros Hv. apply FetchFacts.isValid_spec in Hv as [[Hne _] _]. tauto.
Qed.

Section Store.

Variable dateParse : string -> option Z.
Context {St : Type} {M : Sequelize.ArticleModel St}.

(** X6. When rss-parser fails on a feed and every GET of the fallback is
    refused, the rotation sends one request for each of the five User-Agents,
    in order, with four timers of one second in between, and
    [fetchFeedArticles] throws an error whose message names the feed, the
    message of the primary error and the message of the refusal met by the
    last User-Agent; the store is untouched and the feed row has its
    errorCount incremented and lastFetched set. *)
Theorem fetchFeedArticles_all_refused (r : Remote) (feed : Feed) (s : St) (now : Z)
  (primaryError : Js.Error) (refusal : string -> Js.Error) :
  parseURL r (f_url feed) = inl primaryError ->
  (forall ua, ua ∈ Fallback.userAgents ->
     axios r (f_url feed) ua (Fallback.refererOf (f_url feed)) = RequestFailed (refusal ua)) ->
  Fallback.requests (fst (parseWithFeedParser r (f_url feed))) = Fallback.userAgents /\
  Fallback.timers (fst (parseWithFeedParser r (f_url feed))) = [1000; 1000; 1000; 1000] /\
  fetchFeedArticles dateParse r feed s now
  = (updateFeed feed now (f_errorCount feed + 1), s,
     inl (Js.newError
            ("Failed to fetch articles for feed " +:+ dquote +:+ f_title feed +:+ dquote
             +:+ ": Both parsers failed. Primary: " +:+ Js.message primaryError
             +:+ ", Fallback: "
             +:+ Js.message
                   (refusal "Feedfetcher-Google; (+http://www.google.com/feedfetcher.html)")))).
Proof.
  intros Hp Hall.
  assert (Hf : parseWithFeedParser r (f_url feed)
               = (fst (parseWithFeedParser r (f_url feed)),
                  inl (refusal "Feedfetcher-Google; (+http://www.google.com/feedfetcher.html)"))
               /\ Fallback.requests (fst (parseWithFeedParser r (f_url feed)))
                   = Fallback.userAgents
               /\ Fallback.timers (fst (parseWithFeedParser r (f_url feed)))
                   = [1000; 1000; 1000; 1000]).
  { unfold parseWithFeedParser, Fallback.parseWithFeedParser, Fallback.userAgents in *.
    simpl. rewrite !Hall by (repeat (first [apply list_elem_of_here | apply list_elem_of_further])).
    simpl. auto. }
  destruct Hf as (Hf & Hr & Ht). split_and!; trivial.
  unfold fetchFeedArticles, tryBlock, parse. rewrite Hp, Hf.
  rewrite JsFacts.or_zero_id. reflexivity.
Qed.

End Store.

End NormalizeFacts.

(** ** What one call of bulkCreateSafeWithDupeCheck inserts *)

Module BatchFacts.

Import ArticleM TableSpec ArticleFacts.

Section Loop.

Context {St : Type} {M : Sequelize.ArticleModel St}.
Variables feedId now : Z.

(** The [i]th inserted candidate sits somewhere in the batch; the loop
    reached it after inserting the [i] candidates before it. *)
Lemma inserted_split (l : list ArticleData) :
  forall (st : Loop) (i : nat) (d : ArticleData),
    insertedCandidates feedId now st l !! i = Some d ->
    exists pre post,
      l = pre ++ d :: post /\
      inserts feedId now (run feedId now st pre) d = true /\
      insertedCandidates feedId now st pre = take i (insertedCandidates feedId now st l).
Proof.
  induction l as [|c l IH]; intros st i d; simpl; [discriminate|].
  destruct (inserts feedId now st c) eqn:E.
  - destruct i as [|i]; simpl.
    + intros [= ->]. exists [], l. simpl. auto.
    + intros H. destruct (IH _ _ _ H) as (pre & post & -> & Hi & Ht).
      exists (c :: pre), post. simpl. rewrite E, Ht. auto.
  - intros H. destruct (IH _ _ _ H) as (pre & post & -> & Hi & Ht).
    exists (c :: pre), post. simpl. rewrite E, Ht. auto.
Qed.

Lemma inserts_passes (st : Loop) (d : ArticleData) :
  inserts feedId now st d = true -> duplicateReason (lookup st) d = None.
Proof.
  unfold inserts. destruct (duplicateReason (lookup st) d); [discriminate | reflexivity].
Qed.

(** X7. Whatever the store does, the candidates of a batch that one call
    of [bulkCreateSafeWithDupeCheck] inserts are candidates that the filter
    found new against the existing articles handed to it, and no two of
    them share a non-empty link, a non-empty guid or a non-empty title. *)
Theorem batch_inserts_distinct (s : St) (existing : list Article) (cs : list ArticleData) :
  let ins := insertedCandidates feedId now (start s existing) cs in
  (forall d, d ∈ ins -> d ∈ cs /\ duplicateReason (lookup_of existing) d = None) /\
  (forall i j d d', (i < j)%nat -> ins !! i = Some d -> ins !! j = Some d' ->
                    ~ sharesKey d d').
Proof.
  intros ins. split.
  - intros d Hd. apply list_elem_of_lookup in Hd as [i Hi].
    destruct (inserted_split cs _ _ _ Hi) as (pre & post & -> & Hins & _).
    split; [apply elem_of_app; right; apply elem_of_cons; now left|].
    apply inserts_passes in Hins.
    apply duplicateReason_cascade in Hins as (Hl & Hg & Ht).
    apply duplicateReason_cascade.
    destruct (run_lookup feedId now pre (start s existing) (link d)) as (Rl & _ & _).
    destruct (run_lookup feedId now pre (start s existing) (guid d)) as (_ & Rg & _).
    destruct (run_lookup feedId now pre (start s existing) (title d)) as (_ & _ & Rt).
    unfold linkHit, guidHit, titleHit in *. simpl in *.
    split_and!; intros [Hne Hin]; [apply Hl | apply Hg | apply Ht]; split; trivial;
      [apply Rl | apply Rg | apply Rt]; now left.
  - intros i j d d' Hij Hi Hj Hs.
    destruct (inserted_split cs _ _ _ Hj) as (pre & post & -> & Hins & Htake).
    fold ins in Htake.
    assert (Hd : d ∈ insertedCandidates feedId now (start s existing) pre).
    { rewrite Htake. apply list_elem_of_lookup. exists i. now rewrite lookup_take_lt. }
    apply inserts_passes in Hins.
    apply duplicateReason_cascade in Hins as (Hl & Hg & Ht).
    destruct (run_lookup feedId now pre (start s existing) (link d')) as (Rl & _ & _).
    destruct (run_lookup feedId now pre (start s existing) (guid d')) as (_ & Rg & _).
    destruct (run_lookup feedId now pre (start s existing) (title d')) as (_ & _ & Rt).
    unfold linkHit, guidHit, titleHit in *.
    destruct Hs as [[Hne He] | [[Hne He] | [Hne He]]].
    + apply Hl. split; [congruence|]. apply Rl. right. split; [congruence|]. now exists d.
    + apply Hg. split; [congruence|]. apply Rg. right. split; [congruence|]. now exists d.
    + apply Ht. split; [congruence|]. apply Rt. right. split; [congruence|]. now exists d.
Qed.

End Loop.

End BatchFacts.

(** ** The table under the fetch pipeline *)

Module TableFacts.

Import ArticleFetcher FetchSpec ArticleM StoreSpec TableSpec ArticleFacts.

#[local] Hint Extern 0 (Sequelize.ArticleModel Db.t) =>
  match goal with
  | isUrl : string -> bool |- _ => exact (Db.model isUrl)
  end : typeclass_instances.

Section Table.

Variable isUrl : string -> bool.

Lemma existsb_false {A : Type} (f : A -> bool) (l : list A) :
  existsb f l = false <-> forall x, x ∈ l -> f x = false.
Proof.
  induction l as [|y l IH]; simpl.
  - split; [intros _ x Hx; now apply elem_of_nil in Hx | reflexivity].
  - rewrite orb_false_iff, IH. split.
    + intros [Hy Hl] x Hx. apply elem_of_cons in Hx as [-> | Hx]; auto.
    + intros H. split; [apply H; apply elem_of_cons; now left|].
      intros x Hx. apply H. apply elem_of_cons. now right.
Qed.

(** The table after the INSERT of a row that the indexes accept and
    whose title is new in the feed. *)
Lemma insert_wellFormed (feedId now : Z) (db : Db.t) (d : ArticleData) :
  wellFormed db ->
  Db.rejects isUrl db feedId d = false ->
  ~ titleHit (lookup_of (feedRows db feedId)) d ->
  wellFormed {| Db.articles := Db.articles db ++ [Db.row_of (Db.next_id db) feedId now d];
                Db.next_id := Db.next_id db + 1 |}.
Proof.
  intros [Hids Hbelow Hlinks Hguids Htitles] Hr Ht.
  unfold Db.rejects in Hr. rewrite !orb_false_iff in Hr. destruct Hr as [[_ Hl] Hg].
  unfold Db.link_taken in Hl. unfold Db.feed_guid_taken in Hg.
  rewrite existsb_false in Hl, Hg.
  constructor; simpl.
  - rewrite map_app. simpl. apply NoDup_app. split_and!; trivial.
    + intros x Hx Hn. apply list_elem_of_singleton in Hn. subst x.
      apply list_elem_of_fmap in Hx as (a & Ha & Hin).
      rewrite Forall_forall in Hbelow. specialize (Hbelow a Hin). lia.
    + apply NoDup_singleton.
  - apply Forall_app. split.
    + eapply Forall_impl; [exact Hbelow|]. simpl. intros a Ha. lia.
    + constructor; [simpl; lia | constructor].
  - rewrite map_app. simpl. apply NoDup_app. split_and!; trivial.
    + intros x Hx Hn. apply list_elem_of_singleton in Hn. subst x.
      apply list_elem_of_fmap in Hx as (a & Ha & Hin).
      specialize (Hl a Hin). apply bool_decide_eq_false in Hl. congruence.
    + apply NoDup_singleton.
  - rewrite omap_app. simpl. apply NoDup_app. split_and!; trivial.
    + intros x Hx Hn. apply list_elem_of_singleton in Hn. subst x.
      apply list_elem_of_omap in Hx as (a & Hin & Ha).
      specialize (Hg a Hin). unfold feedGuid in Ha.
      destruct (a_guid a) as [g|] eqn:Eg; [|discriminate]. simpl in Ha.
      injection Ha as Hf Hgd. subst g.
      rewrite andb_false_iff, !bool_decide_eq_false in Hg. destruct Hg; congruence.
    + apply NoDup_singleton.
  - rewrite omap_app. simpl. unfold feedTitle at 2. simpl.
    destruct (Js.truthyStr (title d)) eqn:Et; [|now rewrite app_nil_r].
    apply NoDup_app. split_and!; trivial.
    + intros x Hx Hn. apply list_elem_of_singleton in Hn. subst x.
      apply list_elem_of_omap in Hx as (a & Hin & Ha).
      unfold feedTitle in Ha. destruct (Js.truthyStr (a_title a)); [|discriminate].
      injection Ha as Hf Hta.
      apply Ht. split; [now apply JsFacts.truthyStr_true|].
      apply elem_of_existingTitles. split; [now apply JsFacts.truthyStr_true|].
      exists a. split; [|exact Hta]. unfold feedRows. now apply list_elem_of_filter.
    + apply NoDup_singleton.
Qed.

Section Loop.

Variables feedId now : Z.

(** What one turn of the loop does to the table, the list of new
    articles and the invariants. *)
Lemma body_table (st : Loop) (d : ArticleData) :
  synced feedId (store st) (lookup st) ->
  exists news,
    Db.articles (store (body feedId now st d)) = Db.articles (store st) ++ news /\
    newArticles (body feedId now st d) = newArticles st ++ news /\
    Db.next_id (store (body feedId now st d))
    = Db.next_id (store st) + Z.of_nat (length news) /\
    Forall (fun a => a_feedId a = feedId) news /\
    (wellFormed (store st) -> wellFormed (store (body feedId now st d))).
Proof.
  intros Hs. destruct (inserts feedId now st d) eqn:E.
  - revert E. unfold inserts, body. rewrite DbFacts.create_eq.
    destruct (duplicateReason (lookup st) d) as [reason|] eqn:Ed; [discriminate|].
    destruct (Db.rejects isUrl (store st) feedId d) eqn:Er; [discriminate|]. intros _.
    exists [Db.row_of (Db.next_id (store st)) feedId now d]. simpl.
    split_and!; trivial.
    + constructor; [reflexivity | constructor].
    + intros Hw. apply insert_wellFormed; trivial.
      unfold synced in Hs. rewrite <- Hs.
      now apply duplicateReason_cascade in Ed as (_ & _ & Ht).
  - apply (DbFacts.inserts_quiet isUrl feedId now) in E.
    apply (DbFacts.body_quiet isUrl feedId now) in E as (Es & _ & En).
    exists []. rewrite Es, En, !app_nil_r. simpl. split_and!; trivial. lia.
Qed.

Lemma run_table (l : list ArticleData) :
  forall st : Loop,
    synced feedId (store st) (lookup st) ->
    exists news,
      Db.articles (store (run feedId now st l)) = Db.articles (store st) ++ news /\
      newArticles (run feedId now st l) = newArticles st ++ news /\
      Db.next_id (store (run feedId now st l))
      = Db.next_id (store st) + Z.of_nat (length news) /\
      Forall (fun a => a_feedId a = feedId) news /\
      (wellFormed (store st) -> wellFormed (store (run feedId now st l))).
Proof.
  induction l as [|d l IH]; intros st Hs.
  - exists []. simpl. rewrite !app_nil_r. split_and!; trivial. lia.
  - rewrite run_cons.
    destruct (body_table st d Hs) as (n1 & Ha1 & Hn1 & Hi1 & Hf1 & Hw1).
    destruct (IH (body feedId now st d)) as (n2 & Ha2 & Hn2 & Hi2 & Hf2 & Hw2).
    { now apply DbFacts.body_synced. }
    exists (n1 ++ n2). rewrite Ha2, Hn2, Hi2, Ha1, Hn1, Hi1, <- !app_assoc.
    split_and!; trivial.
    + rewrite length_app. lia.
    + now apply Forall_app.
    + auto.
Qed.

(** A call of [bulkCreateSafeWithDupeCheck] on the table returns, and what
    it returns is what it appended. *)
Lemma bulkCreate_table (db : Db.t) (cs : list ArticleData) :
  exists news,
    fst (bulkCreateSafeWithDupeCheck db cs feedId now)
    = ({| Db.articles := Db.articles db ++ news;
          Db.next_id := Db.next_id db + Z.of_nat (length news) |}, inr news) /\
    Forall (fun a => a_feedId a = feedId) news /\
    (wellFormed db ->
     wellFormed {| Db.articles := Db.articles db ++ news;
                   Db.next_id := Db.next_id db + Z.of_nat (length news) |}).
Proof.
  destruct cs as [|d l].
  - exists []. simpl. rewrite app_nil_r, Z.add_0_r. destruct db. simpl. auto.
  - rewrite DbFacts.bulkCreate_run. cbv zeta. cbn [fst].
    destruct (run_table (d :: l) (start db (feedRows db feedId))) as (news & Ha & Hn & Hi & Hf & Hw).
    { reflexivity. }
    change (store (start db (feedRows db feedId))) with db in Ha, Hi, Hw.
    change (newArticles (start db (feedRows db feedId))) with (@nil Article) in Hn.
    exists news. rewrite Hn.
    destruct (store (run feedId now (start db (feedRows db feedId)) (d :: l))) as [rows next].
    cbn [Db.articles Db.next_id] in Ha, Hi. subst rows next. auto.
Qed.

(** The candidates that the loop inserts are candidates of the batch, in
    its order. *)
Lemma inserted_sublist (l : list ArticleData) :
  forall st : Loop,
    sublist (insertedCandidates (M := Db.model isUrl) feedId now st l) l.
Proof.
  induction l as [|d l IH]; intros st; [constructor|].
  cbn [insertedCandidates]. destruct (inserts feedId now st d).
  - apply sublist_skip, IH.
  - apply sublist_cons, IH.
Qed.

(** The loop against the list of the candidates it inserts. *)
Lemma run_writtenFor (l : list ArticleData) :
  forall st : Loop,
    exists news,
      Db.articles (store (run feedId now st l)) = Db.articles (store st) ++ news /\
      newArticles (run feedId now st l) = newArticles st ++ news /\
      Forall2 (writtenFor feedId now) news (insertedCandidates feedId now st l).
Proof.
  induction l as [|d l IH]; intros st.
  - exists []. simpl. rewrite !app_nil_r. split_and!; trivial.
  - rewrite run_cons. cbn [insertedCandidates].
    assert (Hstep : exists one,
              Db.articles (store (body feedId now st d)) = Db.articles (store st) ++ one /\
              newArticles (body feedId now st d) = newArticles st ++ one /\
              Forall2 (writtenFor feedId now) one
                (if inserts feedId now st d then [d] else [])).
    { destruct (inserts feedId now st d) eqn:E.
      - revert E. unfold inserts, body. rewrite DbFacts.create_eq.
        destruct (duplicateReason (lookup st) d) as [reason|]; [discriminate|].
        destruct (Db.rejects isUrl (store st) feedId d); [discriminate|]. intros _.
        exists [Db.row_of (Db.next_id (store st)) feedId now d]. simpl.
        split_and!; trivial. constructor; [|constructor]. eexists. reflexivity.
      - apply (DbFacts.inserts_quiet isUrl feedId now) in E.
        apply (DbFacts.body_quiet isUrl feedId now) in E as (Es & _ & En).
        exists []. rewrite Es, En, !app_nil_r. split_and!; trivial. }
    destruct Hstep as (one & Ha1 & Hn1 & Hw1).
    destruct (IH (body feedId now st d)) as (news & Ha & Hn & Hw).
    exists (one ++ news). rewrite Ha, Hn, Ha1, Hn1, <- !app_assoc.
    split_and!; trivial.
    destruct (inserts feedId now st d).
    + change (d :: insertedCandidates feedId now (body feedId now st d) l)
        with ([d] ++ insertedCandidates feedId now (body feedId now st d) l).
      now apply Forall2_app.
    + inversion Hw1; subst. exact Hw.
Qed.

(** X8. On the table of the schema, a call of
    [bulkCreateSafeWithDupeCheck] returns and does not throw, whatever the
    table refuses: the list returned holds one row for each candidate that
    the loop inserted, in the order of the batch, each with the fields of
    its candidate, the feed id and the time of the call; the candidates
    inserted are candidates of the batch; and the table after the call is
    the table before it followed by the rows returned. *)
Theorem bulkCreate_returns_rows (db : Db.t) (cs : list ArticleData) :
  let out := bulkCreateSafeWithDupeCheck db cs feedId now in
  let ins := insertedCandidates feedId now (start db (feedRows db feedId)) cs in
  exists news,
    snd (fst out) = inr news /\
    Db.articles (fst (fst out)) = Db.articles db ++ news /\
    Forall2 (writtenFor feedId now) news ins /\
    sublist ins cs.
Proof.
  intros out ins. subst out ins. destruct cs as [|d l].
  - exists []. simpl. rewrite app_nil_r. split_and!; trivial; constructor.
  - rewrite DbFacts.bulkCreate_run. cbv zeta. cbn [fst snd].
    destruct (run_writtenFor (d :: l) (start db (feedRows db feedId)))
      as (news & Ha & Hn & Hw).
    change (store (start db (feedRows db feedId))) with db in Ha.
    change (newArticles (start db (feedRows db feedId))) with (@nil Article) in Hn.
    exists news. rewrite Ha, Hn. split_and!; trivial. apply inserted_sublist.
Qed.

End Loop.

Variable dateParse : string -> option Z.

(** A call of [fetchFeedArticles] on the table: it throws exactly when both
    parsers fail, and then leaves the table as it was; otherwise it returns
    the number of rows it appended. *)
Lemma fetch_table (r : Remote) (feed : Feed) (tbl : Db.t) (now : Z) :
  let res := fetchFeedArticles dateParse r feed tbl now in
  exists news,
    snd (fst res) = {| Db.articles := Db.articles tbl ++ news;
                       Db.next_id := Db.next_id tbl + Z.of_nat (length news) |} /\
    Forall (fun a => a_feedId a = f_id feed) news /\
    (wellFormed tbl -> wellFormed (snd (fst res))) /\
    (if parseFails r feed then news = [] /\ threw res = true
     else snd res = inr (Z.of_nat (length news))).
Proof.
  intros res. subst res. unfold fetchFeedArticles, parseFails, threw.
  pose proof (OrchestratorFacts.tryBlock_cases dateParse r feed tbl now) as H.
  assert (Hnone : tbl = {| Db.articles := Db.articles tbl ++ [];
                           Db.next_id := Db.next_id tbl + Z.of_nat (length (@nil Article)) |}).
  { rewrite app_nil_r. simpl. rewrite Z.add_0_r. now destruct tbl. }
  destruct (parse r (f_url feed)) as [e | pf] eqn:Ep.
  - rewrite H. exists []. simpl. split_and!; auto.
  - destruct (candidates dateParse r feed now) as [|d valid] eqn:Ec; rewrite H.
    + exists []. cbn [fst snd]. split_and!; auto.
    + destruct (bulkCreate_table (f_id feed) now tbl (d :: valid)) as (news & Hb & Hf & Hw).
      destruct (bulkCreateSafeWithDupeCheck tbl (d :: valid) (f_id feed) now)
        as [[s' res] log]. cbn [fst] in Hb. injection Hb as -> ->.
      exists news. cbn [fst snd]. split_and!; auto.
Qed.

Lemma fold_step_table (r : Remote) (now : Z) (feeds : list Feed) :
  forall st : Run,
    let st' := fold_left (step dateParse r now) feeds st in
    exists news,
      Db.articles (db st') = Db.articles (db st) ++ news /\
      Db.next_id (db st') = Db.next_id (db st) + Z.of_nat (length news) /\
      fetched st' = fetched st + Z.of_nat (length news) /\
      errors st' = errors st + Z.of_nat (length (List.filter (parseFails r) feeds)) /\
      Forall (fun a => exists feed, feed ∈ feeds /\ a_feedId a = f_id feed) news /\
      (wellFormed (db st) -> wellFormed (db st')).
Proof.
  induction feeds as [|feed rest IH]; intros st; simpl.
  - exists []. rewrite app_nil_r. simpl. split_and!; trivial; lia.
  - destruct (fetch_table r feed (db st) now) as (n1 & Hs & Hf & Hw & Hres).
    cbv zeta in Hs, Hw, Hres.
    assert (Hstep : db (step dateParse r now st feed)
                    = snd (fst (fetchFeedArticles dateParse r feed (db st) now)) /\
                    fetched (step dateParse r now st feed)
                    = fetched st + Z.of_nat (length n1) /\
                    errors (step dateParse r now st feed)
                    = errors st + (if parseFails r feed then 1 else 0)).
    { unfold step. unfold threw in Hres.
      destruct (fetchFeedArticles dateParse r feed (db st) now) as [[feed' s'] [e | n]];
        cbn [fst snd db fetched errors] in *; destruct (parseFails r feed).
      - destruct Hres as [-> _]. simpl. split_and!; trivial; lia.
      - discriminate Hres.
      - destruct Hres as [_ Hres]. discriminate Hres.
      - injection Hres as ->. split_and!; trivial; lia. }
    destruct Hstep as (Hdb & Hfe & Her).
    destruct (IH (step dateParse r now st feed)) as (n2 & Ha2 & Hi2 & Hf2 & He2 & Hfr2 & Hw2).
    cbv zeta in Ha2, Hi2, Hf2, He2, Hw2.
    exists (n1 ++ n2). rewrite Ha2, Hi2, Hf2, He2, Hfe, Her, Hdb, Hs. cbn [Db.articles Db.next_id].
    rewrite length_app, <- app_assoc. split_and!; trivial; try lia.
    + destruct (parseFails r feed); simpl; lia.
    + apply Forall_app. split.
      * eapply Forall_impl; [exact Hf|]. intros a Ha. exists feed.
        split; [apply elem_of_cons; now left | exact Ha].
      * eapply Forall_impl; [exact Hfr2|]. intros a (f & Hin & Ha). exists f.
        split; [apply elem_of_cons; now right | exact Ha].
    + intros Hwf. apply Hw2. rewrite Hdb. now apply Hw.
Qed.

(** X9. On a table whose ids are unique and below the counter, whose links
    are unique, whose (feedId, guid) pairs are unique and where no two
    articles of a feed share a non-empty title, a call of
    [fetchFeedArticles] and a run of [fetchAllFeeds] leave a table with the
    same properties. *)
Theorem fetch_keeps_wellFormed (r : Remote) (feed : Feed) (table : list Feed)
  (tbl : Db.t) (now : Z) :
  wellFormed tbl ->
  wellFormed (snd (fst (fetchFeedArticles dateParse r feed tbl now))) /\
  wellFormed (snd (fetchAllFeeds dateParse r table tbl now)).
Proof.
  intros Hw. split.
  - destruct (fetch_table r feed tbl now) as (news & _ & _ & H & _). now apply H.
  - unfold fetchAllFeeds. cbn [snd].
    destruct (fold_step_table r now (List.filter f_isActive table)
                {| fetched := 0; errors := 0; db := tbl; processed := [] |})
      as (news & _ & _ & _ & _ & _ & H).
    now apply H.
Qed.

(** X10. On the table of the schema a run of [fetchAllFeeds] only appends
    rows: the table after it is the table before it followed by the new
    rows, each of an active feed; totalFetched is the number of the new
    rows, and totalErrors is the number of active feeds on which both
    parsers fail. *)
Theorem fetchAllFeeds_accounting (r : Remote) (table : list Feed) (tbl : Db.t) (now : Z) :
  let feeds := List.filter f_isActive table in
  let out := fetchAllFeeds dateParse r table tbl now in
  let summary := fst (fst out) in
  exists news,
    Db.articles (snd out) = Db.articles tbl ++ news /\
    totalFetched summary = Z.of_nat (length news) /\
    totalErrors summary = Z.of_nat (length (List.filter (parseFails r) feeds)) /\
    Forall (fun a => exists feed, feed ∈ feeds /\ a_feedId a = f_id feed) news.
Proof.
  intros feeds out summary. subst summary out. unfold fetchAllFeeds. fold feeds.
  cbn [fst snd totalFetched totalErrors].
  destruct (fold_step_table r now feeds
              {| fetched := 0; errors := 0; db := tbl; processed := [] |})
    as (news & Ha & _ & Hf & He & Hfr & _).
  cbv zeta in Ha, Hf, He. cbn [db fetched errors] in Ha, Hf, He.
  exists news. rewrite Ha, Hf, He. split_and!; trivial.
Qed.

End Table.

End TableFacts.

(** ** More on Article.cleanOldArticles *)

Module CleanupFacts.

Import Retention RetentionFacts.

Lemma filter_ext_elem {A : Type} (P1 P2 : A -> Prop)
  `{!forall x, Decision (P1 x), !forall x, Decision (P2 x)} (l : list A) :
  (forall x, x ∈ l -> P1 x <-> P2 x) -> filter P1 l = filter P2 l.
Proof.
  induction l as [|a l IH]; intros Hext; [reflexivity|].
  assert (Ha : P1 a <-> P2 a) by (apply Hext, elem_of_cons; now left).
  assert (Hl : filter P1 l = filter P2 l).
  { apply IH. intros x Hx. apply Hext, elem_of_cons. now right. }
  destruct (decide (P1 a)).
  - rewrite !filter_cons_True by tauto. now rewrite Hl.
  - rewrite !filter_cons_False by tauto. exact Hl.
Qed.

Section Again.

Variables localTime utcOf : Z -> Z.
Variable beforeInvalidDate : Article -> bool.
Variable scan : list Article -> list Article.
Hypothesis scan_numbers : numbersEveryRow scan.

(** A table within the cap: no row is numbered beyond it. *)
Lemma excess_none (c : Z) (rows : list Article) :
  (length rows <= Z.to_nat c)%nat -> excessArticles scan c rows = [].
Proof.
  intros Hcap. unfold excessArticles. apply drop_ge.
  now rewrite (Permutation_length (scan_numbers rows)).
Qed.

(** X11. After a call of [cleanOldArticles] on a table with unique ids, a
    later call with the same cap, at any time and with any number of days,
    deletes exactly the articles that the store finds older than the later
    call's cutoff and returns their number: the table is within the cap, so
    none goes for the number the store gave it. Called again with the first
    call's arguments it deletes nothing and returns 0. *)
Theorem cleanOldArticles_again (now daysToKeep c now' daysToKeep' : Z) (db : Db.t) :
  NoDup (map a_id (Db.articles db)) ->
  let clean := cleanOldArticles localTime utcOf beforeInvalidDate scan in
  let cutoff' := cutoffDate localTime utcOf now' daysToKeep' in
  let db1 := fst (clean now daysToKeep c db) in
  let out := clean now' daysToKeep' c db1 in
  Db.articles (fst out)
  = filter (fun a => ~ olderThan beforeInvalidDate cutoff' a) (Db.articles db1) /\
  snd out = Z.of_nat (length (oldArticles beforeInvalidDate cutoff' (Db.articles db1))) /\
  clean now daysToKeep c db1 = (db1, 0).
Proof.
  intros Hids clean cutoff' db1 out.
  assert (Hids1 : NoDup (map a_id (Db.articles db1))).
  { subst db1 clean. now apply kept_NoDup. }
  assert (Hex : excessArticles scan c (Db.articles db1) = []).
  { apply excess_none. subst db1 clean. now apply kept_length. }
  assert (Hmem : forall cutoff a, a ∈ Db.articles db1 ->
            (a_id a ∈ allArticleIds beforeInvalidDate scan cutoff c (Db.articles db1)
             <-> olderThan beforeInvalidDate cutoff a)).
  { intros cutoff a Ha.
    rewrite (elem_of_allArticleIds beforeInvalidDate scan scan_numbers _ cutoff c a Hids1 Ha), Hex.
    split; [intros [H | H]; [exact H | now apply elem_of_nil in H] | now left]. }
  assert (Hfilter : forall cutoff,
            filter (fun a => a_id a ∉ allArticleIds beforeInvalidDate scan cutoff c
                                        (Db.articles db1)) (Db.articles db1)
            = filter (fun a => ~ olderThan beforeInvalidDate cutoff a) (Db.articles db1) /\
            filter (fun a => a_id a ∈ allArticleIds beforeInvalidDate scan cutoff c
                                        (Db.articles db1)) (Db.articles db1)
            = oldArticles beforeInvalidDate cutoff (Db.articles db1)).
  { intros cutoff. unfold oldArticles. split; apply filter_ext_elem.
    - intros a Ha. now rewrite (Hmem cutoff a Ha).
    - intros a Ha. now rewrite (Hmem cutoff a Ha). }
  destruct (cleanOldArticles_eq localTime utcOf beforeInvalidDate scan now' daysToKeep' c db1)
    as (Hk & Hn & _).
  fold clean in Hk, Hn. fold out in Hk, Hn. fold cutoff' in Hk, Hn.
  destruct (Hfilter cutoff') as [F1 F2].
  split_and!.
  - now rewrite Hk, F1.
  - now rewrite Hn, F2.
  - subst clean. unfold cleanOldArticles.
    assert (Hnone : allArticleIds beforeInvalidDate scan
                      (cutoffDate localTime utcOf now daysToKeep) c (Db.articles db1) = []).
    { unfold allArticleIds. rewrite Hex. simpl. rewrite app_nil_r.
      unfold oldArticles. rewrite filter_none; [reflexivity|].
      intros a Ha Hold. subst db1.
      apply kept_spec in Ha as (_ & Hni & _); [|exact scan_numbers|exact Hids]. tauto. }
    now rewrite Hnone.
Qed.

End Again.

End CleanupFacts.

(** ** The Referer of the fallback requests *)

Module RefererFacts.

Import Fallback.

Lemma includes_slash_cons (c : ascii) (s : string) :
  Js.includes (String c s) "/" = false ->
  c <> "/"%char /\ Js.includes s "/" = false.
Proof.
  simpl. rewrite orb_false_iff, andb_true_r. intros [Hc Hs]. split; [|exact Hs].
  intros ->. discriminate Hc.
Qed.

(** The scan passes over a stretch without slash. *)
Lemma upToSlash_app (n : nat) (s t : string) :
  Js.includes s "/" = false -> upToSlash n (s +:+ t) = s +:+ upToSlash n t.
Proof.
  induction s as [|c s IH]; intros H; [now rewrite !JsFacts.append_nil_l|].
  apply includes_slash_cons in H as [Hc Hs].
  rewrite !JsFacts.append_cons. simpl.
  rewrite bool_decide_eq_false_2 by exact Hc. now rewrite IH.
Qed.

(** X14. For a URL made of a scheme, [//], a host, [/] and a path (no
    slash in the scheme nor in the host) that contains neither [politico]
    nor [bbc] and contains [news], [rss] or [feed], the Referer sent by the
    fallback parser is the scheme followed by [//] and the host. *)
Theorem refererOf_origin (scheme host path : string) :
  let url := scheme +:+ "//" +:+ host +:+ "/" +:+ path in
  Js.includes scheme "/" = false ->
  Js.includes host "/" = false ->
  Js.includes url "politico" = false ->
  Js.includes url "bbc" = false ->
  Js.includes url "news" || Js.includes url "rss" || Js.includes url "feed" = true ->
  refererOf url = Some (scheme +:+ "//" +:+ host).
Proof.
  intros url Hs Hh Hp Hb Hn. unfold refererOf. rewrite Hp, Hb, Hn. f_equal.
  subst url. rewrite (upToSlash_app 2 scheme _ Hs). f_equal.
  change ("//" +:+ host +:+ "/" +:+ path)
    with (String "/"%char (String "/"%char (host +:+ "/" +:+ path))).
  change ("//" +:+ host) with (String "/"%char (String "/"%char host)).
  simpl. do 2 f_equal. rewrite (upToSlash_app 0 host _ Hh).
  change ("/" +:+ path) with (String "/"%char path). simpl.
  now rewrite JsFacts.append_nil_r.
Qed.

Lemma refererOf_origin_witness :
  refererOf "https://example.com/feed.xml" = Some "https://example.com".
Proof.
  apply (refererOf_origin "https:" "example.com" "feed.xml"); reflexivity.
Defined.

End RefererFacts.

(** ** The beforeCreate hook of the Feed model *)

Module FeedModelFacts.

Import FeedModel.

Lemma fill_provided (own found : option string) :
  Js.truthy own = true -> fill own found = own.
Proof. unfold fill. now intros ->. Qed.

Lemma withDefaults_spec (feed : NewFeed) :
  nf_url (withDefaults feed) = nf_url feed /\
  nf_link (withDefaults feed) = nf_link feed /\
  Js.truthy (nf_title (withDefaults feed)) = true /\
  Js.truthy (nf_description (withDefaults feed)) = true /\
  (Js.truthy (nf_title feed) = true -> nf_title (withDefaults feed) = nf_title feed) /\
  (Js.truthy (nf_description feed) = true ->
   nf_description (withDefaults feed) = nf_description feed).
Proof.
  unfold withDefaults. simpl.
  destruct (Js.truthy (nf_title feed)) eqn:Et, (Js.truthy (nf_description feed)) eqn:Ed;
    split_and!; trivial; discriminate.
Qed.

Lemma hookBody_spec (validation : Validation) (feed : NewFeed) :
  exists feed',
    fst (hookBody validation feed) = inr feed' /\
    nf_url feed' = nf_url feed /\
    (Js.truthy (nf_title feed) = true -> nf_title feed' = nf_title feed) /\
    (Js.truthy (nf_description feed) = true -> nf_description feed' = nf_description feed) /\
    (Js.truthy (nf_link feed) = true -> nf_link feed' = nf_link feed) /\
    (valid validation = false -> feed' = withDefaults feed) /\
    (valid validation = true ->
     nf_title feed' = fill (nf_title feed) (v_title validation) /\
     nf_description feed' = fill (nf_description feed) (v_description validation) /\
     nf_link feed' = fill (nf_link feed) (v_link validation)).
Proof.
  destruct (withDefaults_spec feed) as (Du & Dl & Dt & Dd & Dkt & Dkd).
  unfold hookBody, hookTry.
  destruct (valid validation) eqn:Ev.
  - eexists. cbn [fst]. split; [reflexivity|]. cbn [nf_url nf_title nf_description nf_link].
    split_and!; trivial; try apply fill_provided; try discriminate.
    intros _. split_and!; reflexivity.
  - assert (Hdef : exists feed', inr (withDefaults feed) = inr (B := NewFeed) (A := Js.Error) feed' /\
            nf_url feed' = nf_url feed /\
            (Js.truthy (nf_title feed) = true -> nf_title feed' = nf_title feed) /\
            (Js.truthy (nf_description feed) = true ->
             nf_description feed' = nf_description feed) /\
            (Js.truthy (nf_link feed) = true -> nf_link feed' = nf_link feed) /\
            (false = false -> feed' = withDefaults feed) /\
            (false = true ->
             nf_title feed' = fill (nf_title feed) (v_title validation) /\
             nf_description feed' = fill (nf_description feed) (v_description validation) /\
             nf_link feed' = fill (nf_link feed) (v_link validation))).
    { exists (withDefaults feed). split_and!; auto. discriminate. }
    destruct (error validation) as [e|]; [|exact Hdef].
    destruct (isAllowableError e); exact Hdef.
Qed.

(** The validation of the model is invalid exactly when rss-parser fails
    and the single GET of the fallback does not end in a parsed feed. *)
Lemma validateFeedUrl_valid (parseURL : string -> Js.Error + ParsedFeed Item)
  (get : string -> HttpOutcome) (url : string) :
  valid (validateFeedUrl parseURL get url) = false <->
  (exists primaryError, parseURL url = inl primaryError) /\
  (forall m its, get url <> Response (StreamEnd m its)).
Proof.
  unfold validateFeedUrl. destruct (parseURL url) as [pe | feed].
  - destruct (get url) as [fe | [fe | m its]]; simpl.
    + split; [split; [eauto | discriminate] | reflexivity].
    + split; [split; [eauto | discriminate] | reflexivity].
    + split; [discriminate|]. intros [_ H]. now specialize (H m its).
  - simpl. split; [discriminate|]. intros [[pe H] _]. discriminate H.
Qed.

(** X15. The beforeCreate hook of the Feed model never rejects an
    instance, whatever the remote side answers, and never changes its url
    nor a title, description or link that was provided. When rss-parser
    fails and the single GET of the fallback does not end in a parsed feed,
    the instance is left with the placeholder title and description where
    none was provided and with its link as it was, whether or not the error
    is on the list of allowable errors. *)
Theorem beforeCreate_never_rejects (parseURL : string -> Js.Error + ParsedFeed Item)
  (get : string -> HttpOutcome) (feed : NewFeed) :
  exists feed',
    fst (beforeCreate parseURL get feed) = inr feed' /\
    nf_url feed' = nf_url feed /\
    (Js.truthy (nf_title feed) = true -> nf_title feed' = nf_title feed) /\
    (Js.truthy (nf_description feed) = true -> nf_description feed' = nf_description feed) /\
    (Js.truthy (nf_link feed) = true -> nf_link feed' = nf_link feed) /\
    ((exists primaryError, parseURL (nf_url feed) = inl primaryError) ->
     (forall m its, get (nf_url feed) <> Response (StreamEnd m its)) ->
     feed' = withDefaults feed /\
     Js.truthy (nf_title feed') = true /\ Js.truthy (nf_description feed') = true /\
     nf_link feed' = nf_link feed).
Proof.
  unfold beforeCreate.
  destruct (hookBody_spec (validateFeedUrl parseURL get (nf_url feed)) feed)
    as (feed' & Hr & Hu & Ht & Hd & Hl & Hinv & _).
  exists feed'. split_and!; trivial.
  intros Hp Hg.
  assert (Hv : valid (validateFeedUrl parseURL get (nf_url feed)) = false).
  { apply validateFeedUrl_valid. now split. }
  rewrite (Hinv Hv).
  destruct (withDefaults_spec feed) as (_ & Dl & Dt & Dd & _). auto.
Qed.

(** A page that is no feed: the error is not on the list, the hook logs
    its warning and lets the instance through with the placeholders. *)
Example beforeCreate_not_a_feed :
  beforeCreate MoreSamples.rssNotAFeed (fun _ => Response (StreamError (Js.newError "Not a feed")))
    {| nf_url := "https://example.com/page.html"; nf_title := None;
       nf_description := Some "Mine"; nf_link := None |}
  = (inr {| nf_url := "https://example.com/page.html";
            nf_title := Some "Feed Title (Unable to fetch)";
            nf_description := Some "Mine"; nf_link := None |},
     Some ("Feed URL validation failed for https://example.com/page.html: "
           +:+ "Invalid feed URL: Both parsers failed. "
           +:+ "Primary: Feed not recognized as RSS 1 or 2., Fallback: Not a feed")).
Proof. reflexivity. Qed.

End FeedModelFacts.

(** ** Subscribing and unsubscribing *)

Module SubscriptionFacts.

Import Subscriptions.

Lemma isFor_spec (userId feedId : Z) (s : Subscription) :
  isFor userId feedId s = true <-> s_userId s = userId /\ s_feedId s = feedId.
Proof. unfold isFor. now rewrite andb_true_iff, !bool_decide_eq_true. Qed.

Lemma findOne_Some (db : t) (userId feedId : Z) (s : Subscription) :
  findOne db userId feedId = Some s ->
  s ∈ rows db /\ s_userId s = userId /\ s_feedId s = feedId.
Proof.
  unfold findOne. intros H. apply find_some in H as [Hin Hf].
  split; [now apply list_elem_of_In | now apply isFor_spec].
Qed.

Lemma findOne_None (db : t) (userId feedId : Z) :
  findOne db userId feedId = None <-> ~ subscribed db userId feedId.
Proof.
  unfold findOne, subscribed. split.
  - intros H (s & Hin & Hs). apply list_elem_of_In in Hin.
    pose proof (find_none _ _ H s Hin) as Hf.
    apply isFor_spec in Hs. congruence.
  - intros Hn. destruct (find (isFor userId feedId) (rows db)) as [s|] eqn:E; [|reflexivity].
    exfalso. apply Hn. exists s. now apply findOne_Some.
Qed.

Lemma existsb_findOne (db : t) (userId feedId : Z) :
  existsb (isFor userId feedId) (rows db) = bool_decide (is_Some (findOne db userId feedId)).
Proof.
  unfold findOne. induction (rows db) as [|s l IH]; [reflexivity|].
  cbn [existsb find]. destruct (isFor userId feedId s); [reflexivity | exact IH].
Qed.

(** The search over a table with one more row at its end. *)
Lemma find_snoc {A : Type} (f : A -> bool) (l : list A) (x : A) :
  find f (l ++ [x]) = match find f l with
                      | Some y => Some y
                      | None => if f x then Some x else None
                      end.
Proof.
  induction l as [|y l IH]; simpl; [reflexivity|]. now destruct (f y).
Qed.

(** What [create] does when the pair is new. *)
Lemma create_new (db : t) (userId feedId now : Z) :
  findOne db userId feedId = None ->
  create db userId feedId now
  = ({| rows := rows db ++ [ {| s_id := next_id db; s_userId := userId; s_feedId := feedId;
                                s_isActive := true; s_notificationsEnabled := true;
                                s_createdAt := now; s_updatedAt := now |} ];
        next_id := next_id db + 1 |},
     inr {| s_id := next_id db; s_userId := userId; s_feedId := feedId;
            s_isActive := true; s_notificationsEnabled := true;
            s_createdAt := now; s_updatedAt := now |}).
Proof.
  intros H. unfold create. rewrite existsb_findOne, H.
  rewrite bool_decide_eq_false_2; [reflexivity|]. intros [x Hx]. discriminate.
Qed.

(** X16. When [subscribeFeed] has returned, calling it again for the
    same user and feed returns the same subscription with the message
    "Already subscribed to this feed" and leaves the table as it is. *)
Theorem subscribeFeed_idempotent (feeds : list Feed) (db db1 : t) (userId feedId now now' : Z)
  (s : Subscription) (msg : string) :
  subscribeFeed feeds db userId feedId now = (db1, inr (s, msg)) ->
  subscribeFeed feeds db1 userId feedId now'
  = (db1, inr (s, "Already subscribed to this feed")).
Proof.
  unfold subscribeFeed.
  destruct (findByPk feeds feedId) as [feed|]; [|discriminate].
  destruct (findOne db userId feedId) as [existing|] eqn:E.
  - simpl. intros [= <- <- _]. now rewrite E.
  - rewrite (create_new db userId feedId now E). simpl. intros [= <- <- _].
    unfold findOne. simpl. rewrite find_snoc. unfold findOne in E. rewrite E.
    simpl. unfold isFor. simpl. now rewrite !bool_decide_eq_true_2.
Qed.

(** Two rows of a list without duplicate keys that have the same key. *)
Lemma NoDup_key_inj {A K : Type} (key : A -> K) (l : list A) (x y : A) :
  NoDup (map key l) -> x ∈ l -> y ∈ l -> key x = key y -> x = y.
Proof.
  induction l as [|z l IH]; intros Hn Hx Hy Hk.
  - now apply elem_of_nil in Hx.
  - simpl in Hn. apply NoDup_cons in Hn as [Hz Hl].
    apply elem_of_cons in Hx as [-> | Hx]; apply elem_of_cons in Hy as [-> | Hy]; trivial.
    + exfalso. apply Hz. rewrite Hk. now apply list_elem_of_fmap_2.
    + exfalso. apply Hz. rewrite <- Hk. now apply list_elem_of_fmap_2.
    + now apply IH.
Qed.

Lemma find_filter {A : Type} (f : A -> bool) (P : A -> Prop) `{!forall x, Decision (P x)}
  (l : list A) :
  (forall x, x ∈ l -> ~ P x -> f x = false) -> find f (filter P l) = find f l.
Proof.
  induction l as [|y l IH]; intros Hext; [reflexivity|].
  assert (Hl : find f (filter P l) = find f l).
  { apply IH. intros x Hx. apply Hext, elem_of_cons. now right. }
  destruct (decide (P y)) as [Hy | Hy].
  - rewrite filter_cons_True by exact Hy. simpl. now rewrite Hl.
  - rewrite filter_cons_False by exact Hy. simpl.
    rewrite (Hext y) by (trivial; apply elem_of_cons; now left). exact Hl.
Qed.

Lemma find_other_snoc (db : t) (userId feedId userId' feedId' : Z) (row : Subscription) :
  s_userId row = userId -> s_feedId row = feedId ->
  (userId', feedId') <> (userId, feedId) ->
  find (isFor userId' feedId') (rows db ++ [row]) = find (isFor userId' feedId') (rows db).
Proof.
  intros Hu Hf Hne. rewrite find_snoc.
  destruct (find (isFor userId' feedId') (rows db)); [reflexivity|].
  destruct (isFor userId' feedId' row) eqn:E; [|reflexivity].
  apply isFor_spec in E as [E1 E2]. exfalso. apply Hne. congruence.
Qed.

(** The table after [destroy] of one of its rows. *)
Lemma destroy_spec (db : t) (s : Subscription) :
  wellFormed db -> s ∈ rows db ->
  wellFormed (destroy db s) /\
  ~ subscribed (destroy db s) (s_userId s) (s_feedId s) /\
  (forall userId feedId, (userId, feedId) <> (s_userId s, s_feedId s) ->
     findOne (destroy db s) userId feedId = findOne db userId feedId).
Proof.
  intros [Hids Hbelow Hpairs] Hs.
  assert (Hsub : sublist (rows (destroy db s)) (rows db)) by apply sublist_filter.
  split_and!.
  - constructor.
    + eapply sublist_NoDup; [exact Hids|]. now apply fmap_sublist.
    + apply Forall_forall. intros x Hx. rewrite Forall_forall in Hbelow.
      apply Hbelow. eapply elem_of_sublist; [exact Hx | exact Hsub].
    + eapply sublist_NoDup; [exact Hpairs|]. now apply fmap_sublist.
  - intros (x & Hx & Hu & Hf). simpl in Hx. apply list_elem_of_filter in Hx as [Hne Hx].
    apply Hne. f_equal.
    apply (NoDup_key_inj (fun s => (s_userId s, s_feedId s)) (rows db)); trivial.
    simpl. congruence.
  - intros userId feedId Hne. unfold findOne. simpl. apply find_filter.
    intros x Hx Hid. apply dec_stable in Hid.
    assert (x = s) by (apply (NoDup_key_inj s_id (rows db)); trivial). subst x.
    destruct (isFor userId feedId s) eqn:E; [|reflexivity].
    apply isFor_spec in E as [E1 E2]. exfalso. apply Hne. congruence.
Qed.

(** X17. On a well-formed table of subscriptions [subscribeFeed] leaves a
    well-formed table. For a feed that does not exist it throws "Failed to
    subscribe to feed: Feed not found" and changes nothing; for a feed that
    exists it returns, and the subscription returned is the one found
    afterwards for the user and the feed. In both cases the subscriptions of
    other users and to other feeds are found as before. *)
Theorem subscribeFeed_spec (feeds : list Feed) (db : t) (userId feedId now : Z) :
  wellFormed db ->
  let out := subscribeFeed feeds db userId feedId now in
  wellFormed (fst out) /\
  (findByPk feeds feedId = None ->
   out = (db, inl (Js.newError "Failed to subscribe to feed: Feed not found"))) /\
  (is_Some (findByPk feeds feedId) ->
   exists s msg, snd out = inr (s, msg) /\ findOne (fst out) userId feedId = Some s) /\
  (forall userId' feedId', (userId', feedId') <> (userId, feedId) ->
     findOne (fst out) userId' feedId' = findOne db userId' feedId').
Proof.
  intros Hw out. subst out. unfold subscribeFeed.
  destruct (findByPk feeds feedId) as [feed|].
  - destruct (findOne db userId feedId) as [existing|] eqn:E.
    + cbn [fst snd wrap]. split_and!.
      * exact Hw.
      * discriminate.
      * intros _. eexists _, _. split; [reflexivity | exact E].
      * reflexivity.
    + rewrite (create_new db userId feedId now E). cbn [fst snd wrap].
      destruct Hw as [Hids Hbelow Hpairs].
      apply findOne_None in E.
      split_and!.
      * constructor; simpl.
        -- rewrite map_app. apply NoDup_app. split_and!; trivial; [|apply NoDup_singleton].
           intros x Hx Hn. apply list_elem_of_singleton in Hn. subst x.
           apply list_elem_of_fmap in Hx as (a & Ha & Hin). simpl in Ha.
           rewrite Forall_forall in Hbelow. specialize (Hbelow a Hin). lia.
        -- apply Forall_app. split.
           ++ eapply Forall_impl; [exact Hbelow|]. simpl. intros a Ha. lia.
           ++ constructor; [simpl; lia | constructor].
        -- rewrite map_app. apply NoDup_app. split_and!; trivial; [|apply NoDup_singleton].
           intros x Hx Hn. apply list_elem_of_singleton in Hn. subst x.
           apply list_elem_of_fmap in Hx as (a & Ha & Hin). simpl in Ha.
           apply E. exists a. split; [exact Hin|]. split; congruence.
      * discriminate.
      * intros _. eexists _, _. split; [reflexivity|].
        unfold findOne. simpl. rewrite find_snoc.
        apply findOne_None in E. unfold findOne in E. rewrite E.
        unfold isFor. simpl. now rewrite !bool_decide_eq_true_2.
      * intros userId' feedId' Hne. unfold findOne. simpl.
        now apply (find_other_snoc db userId feedId).
  - simpl. split_and!; trivial. intros [x Hx]. discriminate.
Qed.

(** X18. On a well-formed table [unsubscribeFeed] leaves a well-formed
    table in which the user is not subscribed to the feed. When the user was
    not subscribed it throws "Failed to unsubscribe from feed: Subscription
    not found" and changes nothing; when the user was, it returns
    "Unsubscribed successfully". The subscriptions of other users and to
    other feeds are found as before. *)
Theorem unsubscribeFeed_spec (db : t) (userId feedId : Z) :
  wellFormed db ->
  let out := unsubscribeFeed db userId feedId in
  wellFormed (fst out) /\
  ~ subscribed (fst out) userId feedId /\
  (~ subscribed db userId feedId ->
   out = (db, inl (Js.newError "Failed to unsubscribe from feed: Subscription not found"))) /\
  (subscribed db userId feedId -> snd out = inr "Unsubscribed successfully") /\
  (forall userId' feedId', (userId', feedId') <> (userId, feedId) ->
     findOne (fst out) userId' feedId' = findOne db userId' feedId').
Proof.
  intros Hw out. subst out. unfold unsubscribeFeed.
  destruct (findOne db userId feedId) as [s|] eqn:E.
  - destruct (findOne_Some _ _ _ _ E) as (Hin & Hu & Hf).
    destruct (destroy_spec db s Hw Hin) as (Hw' & Hn & Hframe).
    rewrite Hu, Hf in Hn, Hframe. cbn [fst snd wrap].
    split_and!; trivial.
    intros Hnot. exfalso. apply Hnot. now exists s.
  - cbn [fst snd wrap]. apply findOne_None in E. split_and!; trivial.
    intros H. contradiction.
Qed.

(** X19. On a well-formed table, subscribing a user to an existing feed
    they were not subscribed to and then unsubscribing gives back the rows
    the table had; only the counter of ids has advanced by one. *)
Theorem subscribe_unsubscribe (feeds : list Feed) (db : t) (userId feedId now : Z) :
  wellFormed db ->
  is_Some (findByPk feeds feedId) ->
  ~ subscribed db userId feedId ->
  unsubscribeFeed (fst (subscribeFeed feeds db userId feedId now)) userId feedId
  = ({| rows := rows db; next_id := next_id db + 1 |}, inr "Unsubscribed successfully").
Proof.
  intros [Hids Hbelow Hpairs] [feed Hfeed] Hn. apply findOne_None in Hn.
  unfold subscribeFeed. rewrite Hfeed, Hn, (create_new db userId feedId now Hn).
  cbn [fst]. unfold unsubscribeFeed, findOne. cbn [rows]. rewrite find_snoc.
  unfold findOne in Hn. rewrite Hn.
  unfold isFor at 1. cbn [s_userId s_feedId]. rewrite !bool_decide_eq_true_2 by reflexivity.
  cbn [andb wrap]. f_equal. unfold destroy. cbn [rows next_id s_id]. f_equal.
  rewrite filter_app, filter_cons_False, filter_nil, app_nil_r by (intros H; now apply H).
  apply RetentionFacts.filter_all. intros x Hx.
  rewrite Forall_forall in Hbelow. specialize (Hbelow x Hx). lia.
Qed.

End SubscriptionFacts.

(** ** FeedService.createFeed *)

Module FeedCreationFacts.

Import FeedCreation.

(** The validation carries a [feedInfo] exactly when it is valid. *)
Lemma validateFeedUrl_feedInfo (parseURL : string -> Js.Error + ParsedFeed Item)
  (axios : string -> string -> option string -> HttpOutcome) (url : string) :
  let validation := FeedService.validateFeedUrl parseURL axios url in
  (FeedService.valid validation = false -> FeedService.feedInfo validation = None) /\
  (FeedService.valid validation = true -> is_Some (FeedService.feedInfo validation)).
Proof.
  unfold FeedService.validateFeedUrl.
  destruct (parseURL url) as [pe | feed]; [|simpl; split; [discriminate | eauto]].
  destruct (snd (FeedService.parseWithFeedParser axios url)) as [fe | feed];
    [|simpl; split; [discriminate | eauto]].
  destruct (FeedService.isAllowableError pe || FeedService.isAllowableError fe); simpl;
    split; first [discriminate | eauto].
Qed.

Lemma attrsOf_title (feedData : FeedData) (feedInfo : FeedService.FeedInfo) (now : Z) :
  at_title (attrsOf feedData feedInfo now) <> EmptyString /\
  at_url (attrsOf feedData feedInfo now) = fd_url feedData /\
  at_isActive (attrsOf feedData feedInfo now) = true.
Proof.
  split_and!; try reflexivity. simpl.
  rewrite !NormalizeFacts.or_str_empty. intros (_ & _ & H). discriminate H.
Qed.

Section CreateFeed.

Variable dateParse : string -> option Z.
Context {FS St : Type} {F : FeedModel FS} {M : Sequelize.ArticleModel St}.
Variable parseURL : string -> Js.Error + ParsedFeed Item.
Variable axios : string -> string -> option string -> HttpOutcome.
Variable fetcher : ArticleFetcher.Remote.

(** The fetch with the feed table gives what the fetcher gives, and
    leaves the table as the fetcher's [feed.update] wrote it, if it did. *)
Lemma fetchFeedArticles_spec (feed : Feed) (fs : FS) (s : St) (now : Z) :
  let fetch := ArticleFetcher.fetchFeedArticles dateParse fetcher feed s now in
  snd (fetchFeedArticles dateParse fetcher feed fs s now) = fetch /\
  fst (fetchFeedArticles dateParse fetcher feed fs s now)
  = match snd fetch with
    | inl _ => update fs feed now (f_errorCount feed + 1)
    | inr _ =>
        match FetchSpec.candidates dateParse fetcher feed now with
        | [] => fs
        | _ :: _ => update fs feed now 0
        end
    end.
Proof.
  unfold fetchFeedArticles, ArticleFetcher.fetchFeedArticles, ArticleFetcher.tryBlock,
    FetchSpec.candidates.
  rewrite JsFacts.or_zero_id.
  destruct (ArticleFetcher.parse fetcher (f_url feed)) as [e | pf]; [split; reflexivity|].
  destruct (items pf) as [[|it its]|]; try (split; reflexivity).
  change (default [] (Some (it :: its))) with (it :: its).
  destruct (ArticleFetcher.validArticles dateParse now (it :: its)) as [|v vs];
    [split; reflexivity|].
  destruct (ArticleM.bulkCreateSafeWithDupeCheck s (v :: vs) (f_id feed) now)
    as [[s' [e | news]] log]; split; reflexivity.
Qed.

(** X20. [createFeed] for a URL that no feed has: when the validation is
    invalid, it throws an error whose message starts with "Failed to create
    feed: " before it writes anything, and leaves the three stores as they
    were. When the validation is valid, [Feed.create] is called with a title
    that is not empty; if it throws, the error is passed on with the same
    prefix; if it returns a feed to which the user is not subscribed yet,
    [createFeed] returns, whether the first fetch of articles returned or
    threw: the feed as the fetch left it, the new subscription, and the
    message with the warning of the validation. The feed table is then as
    [Feed.create] left it only when the fetch found no valid candidate;
    otherwise the fetch has written lastFetched and errorCount to the row of
    the new feed: errorCount 0 when it returned, the errorCount of the new
    feed plus one when it threw. *)
Theorem createFeed_new_url (feedData : FeedData) (userId now : Z) (w : World FS St) :
  findOne (feeds w) (fd_url feedData) = None ->
  let validation := FeedService.validateFeedUrl parseURL axios (fd_url feedData) in
  let out := createFeed dateParse parseURL axios fetcher feedData userId now w in
  (FeedService.valid validation = false ->
   out = (w, inl (Js.newError ("Failed to create feed: " +:+ Js.message typeError)))) /\
  (FeedService.valid validation = true ->
   exists feedInfo,
     FeedService.feedInfo validation = Some feedInfo /\
     at_title (attrsOf feedData feedInfo now) <> EmptyString /\
     match create (feeds w) (attrsOf feedData feedInfo now) with
     | (fs', inl error) =>
         out = (mkWorld fs' (subscriptions w) (articles w),
                inl (Js.newError ("Failed to create feed: " +:+ Js.message error)))
     | (fs', inr feed) =>
         ~ Subscriptions.subscribed (subscriptions w) userId (f_id feed) ->
         let fetch := ArticleFetcher.fetchFeedArticles dateParse fetcher feed (articles w) now in
         exists subscription,
           snd out = inr (fst (fst fetch), subscription, createdMessage validation) /\
           feeds (fst out)
           = match snd fetch with
             | inl _ => update fs' feed now (f_errorCount feed + 1)
             | inr _ =>
                 match FetchSpec.candidates dateParse fetcher feed now with
                 | [] => fs'
                 | _ :: _ => update fs' feed now 0
                 end
             end /\
           articles (fst out) = snd (fst fetch) /\
           Subscriptions.findOne (subscriptions (fst out)) userId (f_id feed)
           = Some subscription
     end).
Proof.
  intros Hnew validation out.
  destruct (validateFeedUrl_feedInfo parseURL axios (fd_url feedData)) as [Hinv Hval].
  fold validation in Hinv, Hval. subst out. unfold createFeed, tryCreate.
  fold validation. rewrite Hnew. split.
  - intros Hv. now rewrite (Hinv Hv).
  - intros Hv. destruct (Hval Hv) as [feedInfo Hfi]. rewrite Hfi.
    exists feedInfo. split; [reflexivity|]. split; [apply attrsOf_title|].
    destruct (create (feeds w) (attrsOf feedData feedInfo now)) as [fs' [error | feed]];
      [reflexivity|].
    cbv beta iota zeta. intros Hsub. apply SubscriptionFacts.findOne_None in Hsub.
    rewrite (SubscriptionFacts.create_new _ _ _ now Hsub).
    destruct (fetchFeedArticles_spec feed fs' (articles w) now) as [Hres Hfs].
    cbv zeta in Hres, Hfs.
    destruct (fetchFeedArticles dateParse fetcher feed fs' (articles w) now)
      as [fs'' [[feed' st'] res]].
    cbn [fst snd] in Hres, Hfs. rewrite <- Hres in Hfs |- *.
    eexists. cbn [fst snd Subscriptions.wrap feeds articles subscriptions] in Hfs |- *.
    split_and!; try reflexivity; [exact Hfs|].
    unfold Subscriptions.findOne. cbn [Subscriptions.rows].
    rewrite SubscriptionFacts.find_snoc.
    unfold Subscriptions.findOne in Hsub. rewrite Hsub.
    unfold Subscriptions.isFor. simpl. now rewrite !bool_decide_eq_true_2.
Qed.

(** X21. [createFeed] for a URL that a feed already has neither creates a
    feed nor fetches articles, whatever the validation says: it returns the
    existing feed with the subscription of the user, which it creates if
    there was none; called again it returns the same feed and subscription
    with "Already subscribed to this feed" and changes nothing. *)
Theorem createFeed_existing_url (feedData : FeedData) (userId now now' : Z)
  (w : World FS St) (existingFeed : Feed) :
  findOne (feeds w) (fd_url feedData) = Some existingFeed ->
  let out := createFeed dateParse parseURL axios fetcher feedData userId now w in
  feeds (fst out) = feeds w /\
  articles (fst out) = articles w /\
  exists subscription message,
    snd out = inr (existingFeed, subscription, message) /\
    Subscriptions.findOne (subscriptions (fst out)) userId (f_id existingFeed)
    = Some subscription /\
    createFeed dateParse parseURL axios fetcher feedData userId now' (fst out)
    = (fst out, inr (existingFeed, subscription, "Already subscribed to this feed")).
Proof.
  intros Hex out. subst out. unfold createFeed, tryCreate. rewrite Hex.
  destruct (Subscriptions.findOne (subscriptions w) userId (f_id existingFeed))
    as [existing|] eqn:E.
  - cbn [fst snd Subscriptions.wrap]. split_and!; trivial.
    eexists _, _. split_and!; [reflexivity | exact E |].
    now rewrite Hex, E.
  - rewrite (SubscriptionFacts.create_new _ _ _ now E).
    cbn [fst snd Subscriptions.wrap feeds articles subscriptions].
    assert (Hfound : Subscriptions.findOne
              {| Subscriptions.rows := Subscriptions.rows (subscriptions w) ++
                   [ {| Subscriptions.s_id := Subscriptions.next_id (subscriptions w);
                        Subscriptions.s_userId := userId;
                        Subscriptions.s_feedId := f_id existingFeed;
                        Subscriptions.s_isActive := true;
                        Subscriptions.s_notificationsEnabled := true;
                        Subscriptions.s_createdAt := now;
                        Subscriptions.s_updatedAt := now |} ];
                 Subscriptions.next_id := Subscriptions.next_id (subscriptions w) + 1 |}
              userId (f_id existingFeed)
            = Some {| Subscriptions.s_id := Subscriptions.next_id (subscriptions w);
                      Subscriptions.s_userId := userId;
                      Subscriptions.s_feedId := f_id existingFeed;
                      Subscriptions.s_isActive := true;
                      Subscriptions.s_notificationsEnabled := true;
                      Subscriptions.s_createdAt := now;
                      Subscriptions.s_updatedAt := now |}).
    { unfold Subscriptions.findOne. cbn [Subscriptions.rows].
      rewrite SubscriptionFacts.find_snoc.
      unfold Subscriptions.findOne in E. rewrite E.
      unfold Subscriptions.isFor. simpl. now rewrite !bool_decide_eq_true_2. }
    split_and!; trivial.
    eexists _, _. split_and!; [reflexivity | exact Hfound |].
    now rewrite Hex, Hfound.
Qed.

End CreateFeed.

End FeedCreationFacts.

(** ** ArticleFetcher.fetchFeedById *)

Module FetchByIdFacts.

Import FetchById.

Lemma findByPk_Some (table : list Feed) (feed : Feed) :
  NoDup (map f_id table) -> feed ∈ table ->
  Subscriptions.findByPk table (f_id feed) = Some feed.
Proof.
  unfold Subscriptions.findByPk. induction table as [|x l IH]; intros Hn Hin.
  - now apply elem_of_nil in Hin.
  - simpl in Hn. apply NoDup_cons in Hn as [Hx Hl]. simpl.
    destruct (decide (f_id x = f_id feed)) as [Heq | Hne].
    + rewrite bool_decide_eq_true_2 by exact Heq.
      apply elem_of_cons in Hin as [-> | Hin]; [reflexivity|].
      exfalso. apply Hx. rewrite Heq. now apply list_elem_of_fmap_2.
    + rewrite bool_decide_eq_false_2 by exact Hne.
      apply elem_of_cons in Hin as [-> | Hin]; [contradiction | now apply IH].
Qed.

Lemma findByPk_None (table : list Feed) (feedId : Z) :
  (forall feed, feed ∈ table -> f_id feed <> feedId) ->
  Subscriptions.findByPk table feedId = None.
Proof.
  unfold Subscriptions.findByPk. induction table as [|x l IH]; intros H; [reflexivity|].
  simpl. rewrite bool_decide_eq_false_2 by (apply H, elem_of_cons; now left).
  apply IH. intros feed Hin. apply H, elem_of_cons. now right.
Qed.

Section Fetch.

Variable dateParse : string -> option Z.
Context {St : Type} {M : Sequelize.ArticleModel St}.

(** X22. Over a feed table with unique ids, [fetchFeedById] with the id of
    a row does what [fetchFeedArticles] does on that row, whether the feed
    is active or not; with an id that no row has it throws "Feed not found"
    and leaves the article store untouched. *)
Theorem fetchFeedById_spec (r : ArticleFetcher.Remote) (table : list Feed) (s : St) (now : Z) :
  NoDup (map f_id table) ->
  (forall feed, feed ∈ table ->
     let res := ArticleFetcher.fetchFeedArticles dateParse r feed s now in
     fetchFeedById dateParse r table (f_id feed) s now
     = (Some (fst (fst res)), snd (fst res), snd res)) /\
  (forall feedId, (forall feed, feed ∈ table -> f_id feed <> feedId) ->
     fetchFeedById dateParse r table feedId s now
     = (None, s, inl (Js.newError "Feed not found"))).
Proof.
  intros Hn. split.
  - intros feed Hin res. subst res. unfold fetchFeedById.
    rewrite (findByPk_Some table feed Hn Hin).
    now destruct (ArticleFetcher.fetchFeedArticles dateParse r feed s now) as [[feed' s'] res].
  - intros feedId Hnone. unfold fetchFeedById. now rewrite (findByPk_None table feedId Hnone).
Qed.

End Fetch.

End FetchByIdFacts.

(** ** The properties above on the sample stores *)

Module MoreExamples.

Import MoreSamples.

Lemma twoStoredDb_wellFormed : TableSpec.wellFormed Samples.twoStoredDb.
Proof.
  constructor; apply (bool_decide_unpack _); vm_compute; exact I.
Qed.

Lemma fiveRows_ids : NoDup (map a_id (Db.articles Samples.fiveRows)).
Proof. apply (bool_decide_unpack _). vm_compute. exact I. Qed.

Lemma oneSubscription_wellFormed : Subscriptions.wellFormed oneSubscription.
Proof.
  constructor; apply (bool_decide_unpack _); vm_compute; exact I.
Qed.

(** Feed A: rss-parser fails and every GET of the rotation is refused. *)
Lemma fetchFeedArticles_all_refused_witness :
  let r := Samples.remoteAB [] in
  Fallback.requests (fst (ArticleFetcher.parseWithFeedParser r (f_url Samples.feedA)))
  = Fallback.userAgents /\
  Fallback.timers (fst (ArticleFetcher.parseWithFeedParser r (f_url Samples.feedA)))
  = [1000; 1000; 1000; 1000] /\
  ArticleFetcher.fetchFeedArticles (M := Samples.model) Samples.noDates r Samples.feedA
    Samples.emptyDb t0
  = (ArticleFetcher.updateFeed Samples.feedA t0 1, Samples.emptyDb,
     inl (Js.newError
            ("Failed to fetch articles for feed " +:+ ArticleFetcher.dquote +:+ "A"
             +:+ ArticleFetcher.dquote
             +:+ ": Both parsers failed. Primary: Status code 500"
             +:+ ", Fallback: Request failed with status code 500"))).
Proof.
  intros r.
  apply (NormalizeFacts.fetchFeedArticles_all_refused (M := Samples.model) Samples.noDates
           r Samples.feedA Samples.emptyDb t0 status500 (fun _ => refused500)).
  - reflexivity.
  - intros ua _. reflexivity.
Defined.

Lemma fetch_keeps_wellFormed_witness :
  TableSpec.wellFormed
    (snd (fst (ArticleFetcher.fetchFeedArticles (M := Samples.model) Samples.noDates
                 Samples.remoteF Samples.feedF Samples.twoStoredDb t0))) /\
  TableSpec.wellFormed
    (snd (ArticleFetcher.fetchAllFeeds (M := Samples.model) Samples.noDates
            Samples.remoteF [Samples.feedF] Samples.twoStoredDb t0)).
Proof.
  exact (TableFacts.fetch_keeps_wellFormed Samples.httpUrl Samples.noDates Samples.remoteF
           Samples.feedF [Samples.feedF] Samples.twoStoredDb t0 twoStoredDb_wellFormed).
Defined.

(** The five rows cleaned at day 100 and again at day 130, in UTC, by a
    store that numbers the rows as they are stored. *)
Lemma cleanOldArticles_again_witness :
  let clean := Retention.cleanOldArticles Samples.utcZone Samples.utcZone Samples.noneBefore
                 Samples.inOrder in
  let cutoff' := Retention.cutoffDate Samples.utcZone Samples.utcZone (130 * Samples.day) 30 in
  let db1 := fst (clean (100 * Samples.day) 30 2 Samples.fiveRows) in
  let out := clean (130 * Samples.day) 30 2 db1 in
  Db.articles (fst out)
  = filter (fun a => ~ Retention.olderThan Samples.noneBefore cutoff' a) (Db.articles db1) /\
  snd out = Z.of_nat (length (Retention.oldArticles Samples.noneBefore cutoff'
                                (Db.articles db1))) /\
  clean (100 * Samples.day) 30 2 db1 = (db1, 0).
Proof.
  exact (CleanupFacts.cleanOldArticles_again Samples.utcZone Samples.utcZone Samples.noneBefore
           Samples.inOrder (fun rows => Permutation_refl rows)
           (100 * Samples.day) 30 2 (130 * Samples.day) 30 Samples.fiveRows fiveRows_ids).
Defined.

Lemma subscribeFeed_idempotent_witness :
  Subscriptions.subscribeFeed [Samples.feedA] oneSubscription 7 1 t1
  = (oneSubscription, inr (subscription71, "Already subscribed to this feed")).
Proof.
  apply (SubscriptionFacts.subscribeFeed_idempotent [Samples.feedA] noSubscriptions
           oneSubscription 7 1 t0 t1 subscription71 "Subscribed successfully").
  reflexivity.
Defined.

Lemma subscribeFeed_spec_witness :
  let out := Subscriptions.subscribeFeed [Samples.feedA] oneSubscription 8 1 t1 in
  Subscriptions.wellFormed (fst out) /\
  (Subscriptions.findByPk [Samples.feedA] 1 = None ->
   out = (oneSubscription, inl (Js.newError "Failed to subscribe to feed: Feed not found"))) /\
  (is_Some (Subscriptions.findByPk [Samples.feedA] 1) ->
   exists s msg, snd out = inr (s, msg) /\ Subscriptions.findOne (fst out) 8 1 = Some s) /\
  (forall userId' feedId', (userId', feedId') <> (8, 1) ->
     Subscriptions.findOne (fst out) userId' feedId'
     = Subscriptions.findOne oneSubscription userId' feedId').
Proof.
  exact (SubscriptionFacts.subscribeFeed_spec [Samples.feedA] oneSubscription 8 1 t1
           oneSubscription_wellFormed).
Defined.

Lemma unsubscribeFeed_spec_witness :
  let out := Subscriptions.unsubscribeFeed oneSubscription 7 1 in
  Subscriptions.wellFormed (fst out) /\
  ~ Subscriptions.subscribed (fst out) 7 1 /\
  (~ Subscriptions.subscribed oneSubscription 7 1 ->
   out = (oneSubscription,
          inl (Js.newError "Failed to unsubscribe from feed: Subscription not found"))) /\
  (Subscriptions.subscribed oneSubscription 7 1 -> snd out = inr "Unsubscribed successfully") /\
  (forall userId' feedId', (userId', feedId') <> (7, 1) ->
     Subscriptions.findOne (fst out) userId' feedId'
     = Subscriptions.findOne oneSubscription userId' feedId').
Proof.
  exact (SubscriptionFacts.unsubscribeFeed_spec oneSubscription 7 1 oneSubscription_wellFormed).
Defined.

Lemma subscribe_unsubscribe_witness :
  Subscriptions.unsubscribeFeed
    (fst (Subscriptions.subscribeFeed [Samples.feedA] oneSubscription 8 1 t1)) 8 1
  = ({| Subscriptions.rows := [subscription71]; Subscriptions.next_id := 3 |},
     inr "Unsubscribed successfully").
Proof.
  apply (SubscriptionFacts.subscribe_unsubscribe [Samples.feedA] oneSubscription 8 1 t1).
  - exact oneSubscription_wellFormed.
  - eexists. reflexivity.
  - apply SubscriptionFacts.findOne_None. reflexivity.
Defined.

(** Both strategies of the validation meet HTTP 429, which is on the
    list, and the first fetch fails too: the feed is created and returned
    with errorCount 1, and so is its row in the feed table. *)
Lemma createFeed_new_url_witness :
  let validation := FeedService.validateFeedUrl Samples.rss429 Samples.axios429
                      "https://new.example/rss" in
  let out := FeedCreation.createFeed (F := feedList) (M := Samples.model) Samples.noDates
               Samples.rss429 Samples.axios429 (Samples.remoteAB [])
               (request "https://new.example/rss") 7 t0 emptyWorld in
  FeedService.valid validation = true /\
  exists subscription,
    snd out = inr (newFeed429, subscription, FeedCreation.createdMessage validation) /\
    FeedCreation.feeds (fst out) = [newFeed429] /\
    FeedCreation.articles (fst out) = Samples.emptyDb /\
    Subscriptions.findOne (FeedCreation.subscriptions (fst out)) 7 1 = Some subscription.
Proof.
  intros validation out. split; [reflexivity|].
  destruct (proj2 (FeedCreationFacts.createFeed_new_url (F := feedList) (M := Samples.model)
                     Samples.noDates Samples.rss429 Samples.axios429 (Samples.remoteAB [])
                     (request "https://new.example/rss") 7 t0 emptyWorld eq_refl)
              eq_refl) as (feedInfo & Hinfo & _ & Hcreated).
  change (Some (FeedService.placeholderInfo "https://new.example/rss") = Some feedInfo)
    in Hinfo.
  injection Hinfo as <-.
  assert (Hnone : ~ Subscriptions.subscribed noSubscriptions 7 1).
  { intros (s & Hs & _). now apply elem_of_nil in Hs. }
  hnf in Hcreated.
  destruct (Hcreated Hnone) as (subscription & Hout & Hfeeds & Harticles & Hsub).
  exists subscription. split_and!; [exact Hout | exact Hfeeds | exact Harticles | exact Hsub].
Defined.

(** A page that is no feed: the validation is invalid and nothing is
    created. *)
Example createFeed_not_a_feed :
  FeedCreation.createFeed (F := feedList) (M := Samples.model) Samples.noDates
    rssNotAFeed Samples.axiosNotAFeed Samples.remoteF
    (request "https://example.com/page.html") 7 t0 emptyWorld
  = (emptyWorld,
     inl (Js.newError
            "Failed to create feed: Cannot read properties of undefined (reading 'title')")).
Proof. vm_compute. reflexivity. Qed.

Lemma createFeed_existing_url_witness :
  let create := FeedCreation.createFeed (F := feedList) (M := Samples.model) Samples.noDates
                  rssNotAFeed Samples.axiosNotAFeed Samples.remoteF
                  (request (f_url Samples.feedA)) 8 in
  let out := create t0 worldA in
  FeedCreation.feeds (fst out) = FeedCreation.feeds worldA /\
  FeedCreation.articles (fst out) = FeedCreation.articles worldA /\
  exists subscription message,
    snd out = inr (Samples.feedA, subscription, message) /\
    Subscriptions.findOne (FeedCreation.subscriptions (fst out)) 8 (f_id Samples.feedA)
    = Some subscription /\
    create t1 (fst out)
    = (fst out, inr (Samples.feedA, subscription, "Already subscribed to this feed")).
Proof.
  exact (FeedCreationFacts.createFeed_existing_url (F := feedList) (M := Samples.model)
           Samples.noDates rssNotAFeed Samples.axiosNotAFeed Samples.remoteF
           (request (f_url Samples.feedA)) 8 t0 t1 worldA Samples.feedA eq_refl).
Defined.

Example createFeed_existing_feed_subscribes :
  snd (FeedCreation.createFeed (F := feedList) (M := Samples.model) Samples.noDates
         rssNotAFeed Samples.axiosNotAFeed Samples.remoteF
         (request (f_url Samples.feedA)) 8 t1 worldA)
  = inr (Samples.feedA,
         {| Subscriptions.s_id := 2; Subscriptions.s_userId := 8; Subscriptions.s_feedId := 1;
            Subscriptions.s_isActive := true; Subscriptions.s_notificationsEnabled := true;
            Subscriptions.s_createdAt := t1; Subscriptions.s_updatedAt := t1 |},
         "Subscribed to existing feed").
Proof. reflexivity. Qed.

(** Both strategies of the validation meet HTTP 429, which is on the
    list: the feed is created with the placeholders; the first fetch fails
    too, which does not fail the creation but shows on the feed returned. *)
Example createFeed_despite_fetch_failure :
  match snd (FeedCreation.createFeed (F := feedList) (M := Samples.model) Samples.noDates
               Samples.rss429 Samples.axios429 (Samples.remoteAB [])
               (request "https://new.example/rss") 7 t0 emptyWorld) with
  | inr (feed, subscription, message) =>
      f_id feed = 1 /\ f_title feed = "Feed Title (Unable to fetch)" /\
      f_errorCount feed = 1 /\ f_isActive feed = true /\
      Subscriptions.s_feedId subscription = 1 /\
      Js.startsWith message "Feed created and subscribed successfully. Warning: " = true
  | inl _ => False
  end.
Proof. vm_compute. repeat split. Qed.

(** Feed 3 is not active: a run skips it, a fetch by id does not. *)
Lemma fetchFeedById_spec_witness :
  let table := [Samples.feedA; inactiveFeed] in
  (forall feed, feed ∈ table ->
     let res := ArticleFetcher.fetchFeedArticles (M := Samples.model) Samples.noDates
                  Samples.remoteF feed Samples.emptyDb t0 in
     FetchById.fetchFeedById (M := Samples.model) Samples.noDates Samples.remoteF table
       (f_id feed) Samples.emptyDb t0
     = (Some (fst (fst res)), snd (fst res), snd res)) /\
  (forall feedId, (forall feed, feed ∈ table -> f_id feed <> feedId) ->
     FetchById.fetchFeedById (M := Samples.model) Samples.noDates Samples.remoteF table
       feedId Samples.emptyDb t0
     = (None, Samples.emptyDb, inl (Js.newError "Feed not found"))).
Proof.
  apply (FetchByIdFacts.fetchFeedById_spec (M := Samples.model) Samples.noDates
           Samples.remoteF [Samples.feedA; inactiveFeed] Samples.emptyDb t0).
  apply (bool_decide_unpack _). vm_compute. exact I.
Defined.

Example inactive_feed_is_fetched_by_id :
  snd (FetchById.fetchFeedById (M := Samples.model) Samples.noDates Samples.remoteF
         [Samples.feedA; inactiveFeed] 3 Samples.emptyDb t0) = inr 5 /\
  ArticleFetcher.feedsProcessed
    (fst (fst (ArticleFetcher.fetchAllFeeds (M := Samples.model) Samples.noDates
                 Samples.remoteF [inactiveFeed] Samples.emptyDb t0))) = 0.
Proof. split; vm_compute; reflexivity. Qed.

End MoreExamples.
